(** * text2image: the task registry, the task state machine and the thread pool

    A shallow embedding of the C++ sources
      - include/text2image.h         (public enums, the options struct)
      - src/text2image_internal.h    (Task, ThreadPool, LibraryContext)
      - src/task.cpp                 (Task constructor)
      - src/skia_render_engine.cpp   (SkiaRenderEngine::Impl::render)
      - src/library_context.cpp      (LibraryContext)
      - src/thread_pool.cpp          (ThreadPool)
      - src/text2image.cpp           (the C ABI)

    Conventions.
      - Raw pointers ([void*], function pointers) are addresses in [N];
        the null pointer is [0].  A [const char*] argument is an
        [option string], [None] being the null pointer.
      - [std::shared_ptr<Task>] is an address into a heap of Task
        objects: the registry, the pool's queue and a worker alias the
        same object.
      - Code that throws or catches runs in a state-and-exception monad
        [M] over the whole program state [World].
      - Skia, libxml2, the allocator and the file system are not part of
        the repository: their answers are read from an environment
        [Externals], which threads a state of its own so that two calls
        may answer differently.
      - Threads are interleaved at the granularity of the critical
        sections of the pool: one step of a worker is either its
        critical section (wait, test, dequeue) or the execution of the
        task it holds. *)

From Stdlib Require Import ZArith NArith List Bool.
From stdpp Require Import gmap strings list fin_maps.

Local Open Scope Z_scope.

(* ===================================================================== *)
(** ** include/text2image.h                                               *)
(* ===================================================================== *)

Inductive Text2Image_Resolution :=
  | TEXT2IMAGE_RESOLUTION_AUTO
  | TEXT2IMAGE_RESOLUTION_720P
  | TEXT2IMAGE_RESOLUTION_1080P
  | TEXT2IMAGE_RESOLUTION_2K
  | TEXT2IMAGE_RESOLUTION_4K
  | TEXT2IMAGE_RESOLUTION_8K.

(** [JPEG], [TIFF] and [HEIF] are second names of [JPG], [TIF] and
    [HEIC] in the C enum (same integer value). *)
Inductive Text2Image_Format :=
  | TEXT2IMAGE_FORMAT_PNG
  | TEXT2IMAGE_FORMAT_JPG
  | TEXT2IMAGE_FORMAT_WEBP
  | TEXT2IMAGE_FORMAT_BMP
  | TEXT2IMAGE_FORMAT_TIF
  | TEXT2IMAGE_FORMAT_HEIC
  | TEXT2IMAGE_FORMAT_AVIF.

Inductive Text2Image_BackgroundType :=
  | TEXT2IMAGE_BACKGROUND_SOLID
  | TEXT2IMAGE_BACKGROUND_IMAGE.

(** [typedef void* Text2Image_TaskHandle] and the callback pointer. *)
Abbreviation Text2Image_TaskHandle := N (only parsing).
Abbreviation Text2Image_RenderCallback := N (only parsing).
Definition nullptr : N := 0%N.

(** [backgroundBlur] is a C [float]; it is kept as its IEEE-754 binary32
    bit pattern ([0.0f] is the pattern [0]). *)
Record Text2Image_RenderOptions := mkOptions {
  resolution : Text2Image_Resolution;
  format : Text2Image_Format;
  quality : Z;
  customWidth : Z;
  customHeight : Z;
  backgroundType : Text2Image_BackgroundType;
  backgroundColor : Z;
  backgroundImage : option string;
  backgroundBlur : Z;
  borderRadius : Z;
  enableJavaScript : bool;
  timeout : Z
}.

(* ===================================================================== *)
(** ** src/text2image_internal.h: Task                                    *)
(* ===================================================================== *)

Inductive TaskPriority := LOW | NORMAL | HIGH.

Inductive TaskStatus := PENDING | RUNNING | COMPLETED | FAILED | CANCELLED.

Global Instance TaskStatus_eq_dec : EqDecision TaskStatus.
Proof. solve_decision. Defined.

Record Task := mkTask {
  m_handle : Text2Image_TaskHandle;
  m_html : string;
  m_css : string;
  m_options : Text2Image_RenderOptions;
  m_status : TaskStatus;
  m_errorMessage : string;
  m_result : list Byte.byte;
  m_priority : TaskPriority;
  m_callback : Text2Image_RenderCallback;
  m_userData : N
}.

Module TaskObj.

(** [Task::Task] of task.cpp; [this] is the address the object is
    constructed at.  [m_errorMessage] and [m_result] are not in the
    initialiser list: they are default-constructed, hence empty. *)
Definition new (this : N) (html css : string)
    (options : Text2Image_RenderOptions) : Task :=
  {| m_handle := this;
     m_html := html;
     m_css := css;
     m_options := options;
     m_status := PENDING;
     m_errorMessage := EmptyString;
     m_result := [];
     m_priority := NORMAL;
     m_callback := nullptr;
     m_userData := nullptr |}.

Definition setStatus (status : TaskStatus) (t : Task) : Task :=
  {| m_handle := m_handle t; m_html := m_html t; m_css := m_css t;
     m_options := m_options t; m_status := status;
     m_errorMessage := m_errorMessage t; m_result := m_result t;
     m_priority := m_priority t; m_callback := m_callback t;
     m_userData := m_userData t |}.

Definition setErrorMessage (message : string) (t : Task) : Task :=
  {| m_handle := m_handle t; m_html := m_html t; m_css := m_css t;
     m_options := m_options t; m_status := m_status t;
     m_errorMessage := message; m_result := m_result t;
     m_priority := m_priority t; m_callback := m_callback t;
     m_userData := m_userData t |}.

Definition setResult (result : list Byte.byte) (t : Task) : Task :=
  {| m_handle := m_handle t; m_html := m_html t; m_css := m_css t;
     m_options := m_options t; m_status := m_status t;
     m_errorMessage := m_errorMessage t; m_result := result;
     m_priority := m_priority t; m_callback := m_callback t;
     m_userData := m_userData t |}.

Definition setPriority (priority : TaskPriority) (t : Task) : Task :=
  {| m_handle := m_handle t; m_html := m_html t; m_css := m_css t;
     m_options := m_options t; m_status := m_status t;
     m_errorMessage := m_errorMessage t; m_result := m_result t;
     m_priority := priority; m_callback := m_callback t;
     m_userData := m_userData t |}.

Definition setCallback (callback : Text2Image_RenderCallback)
    (userData : N) (t : Task) : Task :=
  {| m_handle := m_handle t; m_html := m_html t; m_css := m_css t;
     m_options := m_options t; m_status := m_status t;
     m_errorMessage := m_errorMessage t; m_result := m_result t;
     m_priority := m_priority t; m_callback := callback;
     m_userData := userData |}.

End TaskObj.

(** [std::vector::empty] and [std::string::empty]. *)
Definition vec_empty {A} (v : list A) : bool :=
  match v with [] => true | _ :: _ => false end.

Definition str_empty (s : string) : bool :=
  match s with EmptyString => true | String _ _ => false end.

(* ===================================================================== *)
(** ** Exceptions, observable events, the environment                     *)
(* ===================================================================== *)

(** What a C++ [throw] carries as far as the [catch] clauses of the
    sources tell apart: [catch (const std::exception& e)] reads
    [e.what()], [catch (...)] takes the rest. *)
Inductive Exn :=
  | StdException (what : string)
  | UnknownException.

(** How a call ends.  [Undefined] is undefined behaviour of the C++
    abstract machine (a dangling or null dereference, [front()] of an
    empty queue); no [catch] clause ever sees it. *)
Inductive Result (A : Type) :=
  | Returned (a : A)
  | Thrown (e : Exn)
  | Undefined.
Arguments Returned {A} a.
Arguments Thrown {A} e.
Arguments Undefined {A}.

(** The answer of a collaborator that may throw. *)
Inductive Outcome (A : Type) :=
  | Normal (a : A)
  | Raises (e : Exn).
Arguments Normal {A} a.
Arguments Raises {A} e.

(** [SkEncodedImageFormat], as far as [render] selects it. *)
Inductive SkEncodedImageFormat := kPNG | kJPEG | kWEBP | kBMP | kTIFF.

(** The effects a run leaves behind, oldest first. *)
Inductive Event :=
  | EvStatus (task : N) (from to : TaskStatus)
      (* [m_status.store(to)] on a task whose status was [from] *)
  | EvRender (task : N)
      (* [RenderEngine::render] entered for the task *)
  | EvFileOpen (path : string) (ok : bool)
  | EvFileWrite (path : string) (data : list Byte.byte) (ok : bool)
  | EvCallback (callback : N) (handle : N) (success : bool) (userData : N)
      (* the call [m_callback(m_handle, success, m_userData)] *)
  | EvSleep (ms : Z)
  | EvNotifyOne
  | EvNotifyAll.

(** The collaborators outside the repository.  Every answer may depend
    on, and change, the state [Env] of the outside world. *)
Record Externals := mkExternals {
  Env : Type;
  (* std::thread::hardware_concurrency() *)
  hardware_concurrency : N;
  (* operator new behind std::make_shared<Task>: the address of the new
     object, never null (running out of memory is outside the model) *)
  ext_alloc : Env → positive * Env;
  (* SkiaRenderEngine::Impl::initialize, which catches everything *)
  ext_engine_initialize : Env → bool * Env;
  (* Impl::parseHtml (std::regex and libxml2's htmlReadMemory) *)
  ext_parseHtml : Env → string → string → Outcome bool * Env;
  (* SkSurface::MakeRaster(info): is the surface non-null *)
  ext_MakeRaster : Env → Z → Z → Outcome bool * Env;
  (* Impl::drawBackground, which catches everything *)
  ext_drawBackground :
    Env → Z → Z → Text2Image_RenderOptions → bool * Env;
  (* Impl::renderHtmlToCanvas *)
  ext_renderHtmlToCanvas :
    Env → Z → Z → Text2Image_RenderOptions → Outcome bool * Env;
  (* the rounded-corner pass of render, taken when borderRadius > 0 *)
  ext_roundCorners : Env → Z → Z → Z → Outcome unit * Env;
  (* Impl::encodeImage, which catches everything: the encoded bytes, or
     [None] when it returns false *)
  ext_encodeImage :
    Env → SkEncodedImageFormat → Z → option (list Byte.byte) * Env;
  (* std::ofstream file(path, std::ios::binary): is the stream good *)
  ext_ofstream_open : Env → string → bool * Env;
  (* file.write(data, size): is the stream still good *)
  ext_ofstream_write : Env → string → list Byte.byte → bool * Env
}.

(* ===================================================================== *)
(** ** src/text2image_internal.h: ThreadPool and LibraryContext state     *)
(* ===================================================================== *)

(** [size_t] arithmetic ([++m_activeThreads], [--m_activeThreads]). *)
Definition size_t_wrap (z : Z) : Z := z mod 2 ^ 64.

(** Where a worker thread of [m_workers] stands.  A thread that has
    returned from [worker()] stays in the vector until [shutdown]
    clears it, so it still counts in [m_workers.size()]. *)
Inductive WorkerState :=
  | WWaiting                 (* at the top of the loop, outside the lock *)
  | WHolding (task : N)      (* holds a dequeued task, not yet executed *)
  | WExited.                 (* returned from worker() *)

Record ThreadPool := mkPool {
  m_workers : list WorkerState;
  m_tasks : list N;          (* std::queue: front is the head *)
  m_stop : bool;
  m_activeThreads : Z;
  m_maxThreads : Z
}.

Record LibraryContext := mkContext {
  m_renderEngine : bool;     (* is the unique_ptr non-null *)
  m_threadPool : ThreadPool;
  m_tasksMap : gmap N N;     (* LibraryContext::m_tasks: handle -> shared_ptr *)
  m_lastError : string;
  m_initialized : bool
}.

Section Model.
Context {X : Externals}.

(** The whole program state: the outside world, the heap of Task
    objects behind the shared pointers, the singleton
    [LibraryContext::getInstance()] and the events so far. *)
Record World := mkWorld {
  w_env : Env X;
  w_heap : gmap N Task;
  w_ctx : LibraryContext;
  w_joining : bool;   (* a client thread is inside the joins of shutdown *)
  w_trace : list Event
}.

(* ------------------------------------------------------------------- *)
(** *** The state-and-exception monad                                   *)
(* ------------------------------------------------------------------- *)

Definition M (A : Type) : Type := World → Result A * World.

Definition ret {A} (a : A) : M A := λ w, (Returned a, w).

Definition bind {A B} (m : M A) (k : A → M B) : M B :=
  λ w, match m w with
       | (Returned a, w') => k a w'
       | (Thrown e, w') => (Thrown e, w')
       | (Undefined, w') => (Undefined, w')
       end.

Definition throw {A} (e : Exn) : M A := λ w, (Thrown e, w).

Definition undefined {A} : M A := λ w, (Undefined, w).

(** [try { body } catch (const std::exception& e) { on_std e.what() }
    catch (...) { on_other }]. *)
Definition try_catch {A} (body : M A)
    (on_std : string → M A) (on_other : M A) : M A :=
  λ w, match body w with
       | (Returned a, w') => (Returned a, w')
       | (Thrown (StdException what), w') => on_std what w'
       | (Thrown UnknownException, w') => on_other w'
       | (Undefined, w') => (Undefined, w')
       end.

Definition gets {A} (f : World → A) : M A := λ w, (Returned (f w), w).

Definition modify (f : World → World) : M unit := λ w, (Returned tt, f w).

End Model.

Arguments World X : clear implicits.
Arguments M X A : clear implicits.

Declare Scope m_scope.
Delimit Scope m_scope with M.
Notation "'let*' x ':=' m 'in' k" := (bind m (λ x, k))
  (at level 10, x name, m at level 100, k at level 200) : m_scope.
Notation "m1 ';;;' m2" := (bind m1 (λ _, m2))
  (at level 100, m2 at level 200, right associativity) : m_scope.

Section State.
Context {X : Externals}.
Local Open Scope m_scope.

Definition set_env (e : Env X) (w : World X) : World X :=
  {| w_env := e; w_heap := w_heap w; w_ctx := w_ctx w;
     w_joining := w_joining w; w_trace := w_trace w |}.

Definition set_heap (h : gmap N Task) (w : World X) : World X :=
  {| w_env := w_env w; w_heap := h; w_ctx := w_ctx w;
     w_joining := w_joining w; w_trace := w_trace w |}.

Definition set_ctx (c : LibraryContext) (w : World X) : World X :=
  {| w_env := w_env w; w_heap := w_heap w; w_ctx := c;
     w_joining := w_joining w; w_trace := w_trace w |}.

Definition set_joining (b : bool) (w : World X) : World X :=
  {| w_env := w_env w; w_heap := w_heap w; w_ctx := w_ctx w;
     w_joining := b; w_trace := w_trace w |}.

Definition set_trace (t : list Event) (w : World X) : World X :=
  {| w_env := w_env w; w_heap := w_heap w; w_ctx := w_ctx w;
     w_joining := w_joining w; w_trace := t |}.

Definition emit (ev : Event) : M X unit :=
  modify (λ w, set_trace (w_trace w ++ [ev]) w).

(** A call into the outside world that cannot throw. *)
Definition call {A} (f : Env X → A * Env X) : M X A :=
  λ w, let '(a, e) := f (w_env w) in (Returned a, set_env e w).

(** A call into the outside world that may throw. *)
Definition call_throwing {A} (f : Env X → Outcome A * Env X) : M X A :=
  λ w, match f (w_env w) with
       | (Normal a, e) => (Returned a, set_env e w)
       | (Raises x, e) => (Thrown x, set_env e w)
       end.

(** Dereference of a [shared_ptr<Task>]. *)
Definition deref (p : N) : M X Task :=
  λ w, match w_heap w !! p with
       | Some t => (Returned t, w)
       | None => (Undefined, w)
       end.

Definition update (p : N) (f : Task → Task) : M X unit :=
  let* t := deref p in
  modify (λ w, set_heap (<[p := f t]> (w_heap w)) w).

End State.

(* ===================================================================== *)
(** ** Task methods through a shared pointer                              *)
(* ===================================================================== *)

Section TaskMethods.
Context {X : Externals}.
Local Open Scope m_scope.

Definition Task_getStatus (task : N) : M X TaskStatus :=
  let* t := deref task in ret (m_status t).

Definition Task_getResult (task : N) : M X (list Byte.byte) :=
  let* t := deref task in ret (m_result t).

Definition Task_getErrorMessage (task : N) : M X string :=
  let* t := deref task in ret (m_errorMessage t).

Definition Task_getHandle (task : N) : M X N :=
  let* t := deref task in ret (m_handle t).

(** [m_status.store(status)]; the event keeps the status replaced. *)
Definition Task_setStatus (task : N) (status : TaskStatus) : M X unit :=
  let* t := deref task in
  update task (TaskObj.setStatus status) ;;;
  emit (EvStatus task (m_status t) status).

Definition Task_setErrorMessage (task : N) (message : string) : M X unit :=
  update task (TaskObj.setErrorMessage message).

Definition Task_setResult (task : N) (result : list Byte.byte) : M X unit :=
  update task (TaskObj.setResult result).

Definition Task_setCallback (task : N)
    (callback : Text2Image_RenderCallback) (userData : N) : M X unit :=
  update task (TaskObj.setCallback callback userData).

(** [if (m_callback) m_callback(m_handle, success, m_userData);]
    The callee is client code: the model records the call. *)
Definition Task_executeCallback (task : N) (success : bool) : M X unit :=
  let* t := deref task in
  if N.eqb (m_callback t) nullptr then ret tt
  else emit (EvCallback (m_callback t) (m_handle t) success (m_userData t)).

End TaskMethods.

(* ===================================================================== *)
(** ** src/skia_render_engine.cpp: SkiaRenderEngine::Impl::render         *)
(* ===================================================================== *)

(** The canvas size chosen by [render]. *)
Definition canvas_size (options : Text2Image_RenderOptions) : Z * Z :=
  match resolution options with
  | TEXT2IMAGE_RESOLUTION_AUTO =>
      (if 0 <? customWidth options then customWidth options else 800,
       if 0 <? customHeight options then customHeight options else 600)
  | TEXT2IMAGE_RESOLUTION_720P => (1280, 720)
  | TEXT2IMAGE_RESOLUTION_1080P => (1920, 1080)
  | TEXT2IMAGE_RESOLUTION_2K => (2560, 1440)
  | TEXT2IMAGE_RESOLUTION_4K => (3840, 2160)
  | TEXT2IMAGE_RESOLUTION_8K => (7680, 4320)
  end.

(** The encoder chosen by [render]; HEIC and AVIF take the [default:]
    branch of the switch. *)
Definition encoded_format (f : Text2Image_Format) : SkEncodedImageFormat :=
  match f with
  | TEXT2IMAGE_FORMAT_PNG => kPNG
  | TEXT2IMAGE_FORMAT_JPG => kJPEG
  | TEXT2IMAGE_FORMAT_WEBP => kWEBP
  | TEXT2IMAGE_FORMAT_BMP => kBMP
  | TEXT2IMAGE_FORMAT_TIF => kTIFF
  | TEXT2IMAGE_FORMAT_HEIC | TEXT2IMAGE_FORMAT_AVIF => kPNG
  end.

Section RenderEngine.
Context {X : Externals}.
Local Open Scope m_scope.

Definition Impl_render_body (task : N) : M X bool :=
  let* t := deref task in
  let html := m_html t in
  let css := m_css t in
  let options := m_options t in
  let* parsed := call_throwing (λ e, ext_parseHtml X e html css) in
  if negb parsed then
    Task_setErrorMessage task "Failed to parse HTML/CSS" ;;; ret false
  else
    let width := fst (canvas_size options) in
    let height := snd (canvas_size options) in
    let* surface := call_throwing (λ e, ext_MakeRaster X e width height) in
    if negb surface then
      Task_setErrorMessage task "Failed to create Skia surface" ;;; ret false
    else
      let* drawn :=
        call (λ e, ext_drawBackground X e width height options) in
      if negb drawn then
        Task_setErrorMessage task "Failed to draw background" ;;; ret false
      else
        let* rendered :=
          call_throwing
            (λ e, ext_renderHtmlToCanvas X e width height options) in
        if negb rendered then
          Task_setErrorMessage task "Failed to render HTML" ;;; ret false
        else
          (if 0 <? borderRadius options then
             call_throwing
               (λ e, ext_roundCorners X e width height (borderRadius options))
           else ret tt) ;;;
          let* encoded :=
            call (λ e, ext_encodeImage X e
                         (encoded_format (format options))
                         (quality options)) in
          match encoded with
          | None =>
              Task_setErrorMessage task "Failed to encode image" ;;; ret false
          | Some output =>
              Task_setResult task output ;;; ret true
          end.

Definition Impl_render (task : N) : M X bool :=
  try_catch (Impl_render_body task)
    (λ what,
       Task_setErrorMessage task ("Exception during rendering: " +:+ what) ;;;
       ret false)
    (Task_setErrorMessage task "Unknown exception during rendering" ;;;
     ret false).

(** [RenderEngine::render], dispatched to [SkiaRenderEngine::render],
    which forwards to [m_impl->render(task)]. *)
Definition RenderEngine_render (task : N) : M X bool :=
  emit (EvRender task) ;;; Impl_render task.

End RenderEngine.

(* ===================================================================== *)
(** ** src/thread_pool.cpp                                                *)
(* ===================================================================== *)

Global Instance WorkerState_eq_dec : EqDecision WorkerState.
Proof. solve_decision. Defined.

(** [ThreadPool::ThreadPool(numThreads)]: every worker is started and
    stands at the top of its loop. *)
Definition ThreadPool_new (numThreads : Z) : ThreadPool :=
  {| m_workers := replicate (Z.to_nat numThreads) WWaiting;
     m_tasks := [];
     m_stop := false;
     m_activeThreads := 0;
     m_maxThreads := numThreads |}.

Definition pool_set_workers (ws : list WorkerState) (p : ThreadPool) :=
  {| m_workers := ws; m_tasks := m_tasks p; m_stop := m_stop p;
     m_activeThreads := m_activeThreads p; m_maxThreads := m_maxThreads p |}.

Definition pool_set_tasks (q : list N) (p : ThreadPool) :=
  {| m_workers := m_workers p; m_tasks := q; m_stop := m_stop p;
     m_activeThreads := m_activeThreads p; m_maxThreads := m_maxThreads p |}.

Definition pool_set_stop (b : bool) (p : ThreadPool) :=
  {| m_workers := m_workers p; m_tasks := m_tasks p; m_stop := b;
     m_activeThreads := m_activeThreads p; m_maxThreads := m_maxThreads p |}.

Definition pool_set_activeThreads (n : Z) (p : ThreadPool) :=
  {| m_workers := m_workers p; m_tasks := m_tasks p; m_stop := m_stop p;
     m_activeThreads := n; m_maxThreads := m_maxThreads p |}.

Definition pool_set_maxThreads (n : Z) (p : ThreadPool) :=
  {| m_workers := m_workers p; m_tasks := m_tasks p; m_stop := m_stop p;
     m_activeThreads := m_activeThreads p; m_maxThreads := n |}.

Definition ctx_set_renderEngine (b : bool) (c : LibraryContext) :=
  {| m_renderEngine := b; m_threadPool := m_threadPool c;
     m_tasksMap := m_tasksMap c; m_lastError := m_lastError c;
     m_initialized := m_initialized c |}.

Definition ctx_set_threadPool (p : ThreadPool) (c : LibraryContext) :=
  {| m_renderEngine := m_renderEngine c; m_threadPool := p;
     m_tasksMap := m_tasksMap c; m_lastError := m_lastError c;
     m_initialized := m_initialized c |}.

Definition ctx_set_tasksMap (m : gmap N N) (c : LibraryContext) :=
  {| m_renderEngine := m_renderEngine c; m_threadPool := m_threadPool c;
     m_tasksMap := m; m_lastError := m_lastError c;
     m_initialized := m_initialized c |}.

Definition ctx_set_lastError (s : string) (c : LibraryContext) :=
  {| m_renderEngine := m_renderEngine c; m_threadPool := m_threadPool c;
     m_tasksMap := m_tasksMap c; m_lastError := s;
     m_initialized := m_initialized c |}.

Definition ctx_set_initialized (b : bool) (c : LibraryContext) :=
  {| m_renderEngine := m_renderEngine c; m_threadPool := m_threadPool c;
     m_tasksMap := m_tasksMap c; m_lastError := m_lastError c;
     m_initialized := b |}.

(** The predicate of [m_condition.wait(lock, ...)] in [worker]. *)
Definition wait_predicate (p : ThreadPool) : bool :=
  m_stop p || negb (vec_empty (m_tasks p))
  || (m_maxThreads p <=? m_activeThreads p).

(** What a worker does in its critical section once the wait is over. *)
Inductive Acquire :=
  | ABlocked                (* the wait predicate is false: keep waiting *)
  | AExit                   (* [return]: the thread ends *)
  | AContinue               (* [continue]: back to the wait *)
  | ATake (task : N)        (* [front(); pop(); ++m_activeThreads] *)
  | AUndefined.             (* [front()] of an empty queue *)

Definition acquire_front (p : ThreadPool) : Acquire :=
  match m_tasks p with
  | [] => AUndefined
  | task :: _ => ATake task
  end.

Definition acquire (p : ThreadPool) : Acquire :=
  if wait_predicate p then
    if m_stop p
       || (vec_empty (m_tasks p) && (m_maxThreads p <=? m_activeThreads p))
    then
      if m_maxThreads p <? Z.of_nat (length (m_workers p)) then AExit
      else if vec_empty (m_tasks p) then AContinue
      else acquire_front p
    else acquire_front p
  else ABlocked.

Section ThreadPoolMethods.
Context {X : Externals}.
Local Open Scope m_scope.

Definition get_pool : M X ThreadPool :=
  gets (λ w, m_threadPool (w_ctx w)).

Definition modify_ctx (f : LibraryContext → LibraryContext) : M X unit :=
  modify (λ w, set_ctx (f (w_ctx w)) w).

Definition modify_pool (f : ThreadPool → ThreadPool) : M X unit :=
  modify_ctx (λ c, ctx_set_threadPool (f (m_threadPool c)) c).

(** Is some shared pointer to the object at [p] still around: the
    registry entry, a queue entry, or the local of a worker. *)
Definition held (w : World X) (p : N) : bool :=
  bool_decide (p ∈ (map_img (m_tasksMap (w_ctx w)) : gset N))
  || bool_decide (p ∈ m_tasks (m_threadPool (w_ctx w)))
  || bool_decide (WHolding p ∈ m_workers (m_threadPool (w_ctx w))).

(** The last [shared_ptr] going away destroys the Task.  Run after
    every statement that drops a shared pointer. *)
Definition drop_unheld : M X unit :=
  modify (λ w, set_heap (filter (λ kv, held w kv.1 = true) (w_heap w)) w).

Definition ThreadPool_enqueue (task : N) : M X unit :=
  let* p := get_pool in
  if m_stop p then
    throw (StdException "enqueue on stopped ThreadPool")
  else
    modify_pool (λ p, pool_set_tasks (m_tasks p ++ [task]) p) ;;;
    emit EvNotifyOne.

(** [ThreadPool::shutdown] up to the joins: the flag and the wake-up. *)
Definition ThreadPool_shutdown_signal : M X unit :=
  modify_pool (pool_set_stop true) ;;;
  emit EvNotifyAll.

Definition all_exited (ws : list WorkerState) : bool :=
  forallb (λ s, bool_decide (s = WExited)) ws.

(** The rest of [ThreadPool::shutdown]: [join] returns for a thread
    that has left [worker()]; until all have, the caller is blocked
    and nothing changes ([false]). *)
Definition ThreadPool_shutdown_join : M X bool :=
  let* p := get_pool in
  if all_exited (m_workers p) then
    modify_pool (pool_set_workers []) ;;; ret true
  else ret false.

Definition ThreadPool_setMaxThreads (numThreads : Z) : M X unit :=
  let* p := get_pool in
  if numThreads =? m_maxThreads p then ret tt
  else
    let currentSize := Z.of_nat (length (m_workers p)) in
    if currentSize <? numThreads then
      modify_pool (pool_set_maxThreads numThreads) ;;;
      modify_pool (λ p,
        pool_set_workers
          (m_workers p ++ replicate (Z.to_nat (numThreads - currentSize))
                                    WWaiting) p)
    else if numThreads <? currentSize then
      modify_pool (pool_set_maxThreads numThreads) ;;;
      emit EvNotifyAll
    else ret tt.

Definition set_worker (i : nat) (s : WorkerState) : M X unit :=
  modify_pool (λ p, pool_set_workers (<[i := s]> (m_workers p)) p).

(** The part of the loop of [worker] that runs under [m_mutex], for
    the thread [m_workers[i]]. *)
Definition worker_critical_section (i : nat) : M X unit :=
  let* p := get_pool in
  match m_workers p !! i with
  | Some WWaiting =>
      match acquire p with
      | ABlocked | AContinue => ret tt
      | AExit => set_worker i WExited
      | ATake task =>
          modify_pool (λ p, pool_set_tasks (tail (m_tasks p)) p) ;;;
          modify_pool (λ p,
            pool_set_activeThreads
              (size_t_wrap (m_activeThreads p + 1)) p) ;;;
          set_worker i (WHolding task)
      | AUndefined => undefined
      end
  | _ => ret tt
  end.

(** The [try] block of [worker] and its handlers.  The render engine
    is not called: the source leaves that as a comment and sleeps. *)
Definition worker_run_task (task : N) : M X unit :=
  try_catch
    (Task_setStatus task RUNNING ;;;
     emit (EvSleep 100) ;;;
     Task_setStatus task COMPLETED ;;;
     Task_executeCallback task true)
    (λ what,
       Task_setStatus task FAILED ;;;
       Task_setErrorMessage task
         ("Exception in worker thread: " +:+ what) ;;;
       Task_executeCallback task false)
    (Task_setStatus task FAILED ;;;
     Task_setErrorMessage task "Unknown exception in worker thread" ;;;
     Task_executeCallback task false).

(** The part of the loop of [worker] that runs outside the lock, for
    the thread [m_workers[i]]; the local [task] dies at the end of the
    iteration. *)
Definition worker_execute (i : nat) : M X unit :=
  let* p := get_pool in
  match m_workers p !! i with
  | Some (WHolding task) =>
      worker_run_task task ;;;
      modify_pool (λ p,
        pool_set_activeThreads (size_t_wrap (m_activeThreads p - 1)) p) ;;;
      set_worker i WWaiting ;;;
      drop_unheld
  | _ => ret tt
  end.

End ThreadPoolMethods.

(* ===================================================================== *)
(** ** src/library_context.cpp                                            *)
(* ===================================================================== *)

(** [LibraryContext::LibraryContext()]: the pool is built here, with
    [hardware_concurrency()] workers, not in [initialize]. *)
Definition LibraryContext_new (X : Externals) : LibraryContext :=
  {| m_renderEngine := false;
     m_threadPool := ThreadPool_new (Z.of_N (hardware_concurrency X));
     m_tasksMap := ∅;
     m_lastError := EmptyString;
     m_initialized := false |}.

(** The program state when [getInstance()] has just built the
    singleton. *)
Definition World_new (X : Externals) (e : Env X) : World X :=
  {| w_env := e; w_heap := ∅; w_ctx := LibraryContext_new X;
     w_joining := false; w_trace := [] |}.

Section LibraryContextMethods.
Context {X : Externals}.
Local Open Scope m_scope.

Definition setLastError (error : string) : M X unit :=
  modify_ctx (ctx_set_lastError error).

(** [m_lastError.empty() ? nullptr : m_lastError.c_str()]. *)
Definition getLastError : M X (option string) :=
  let* c := gets w_ctx in
  ret (if str_empty (m_lastError c) then None else Some (m_lastError c)).

Definition initialized : M X bool := gets (λ w, m_initialized (w_ctx w)).

Definition initialize : M X bool :=
  let* init := initialized in
  if init then ret true
  else
    try_catch
      (modify_ctx (ctx_set_renderEngine true) ;;;
       let* ok := call (ext_engine_initialize X) in
       if negb ok then
         setLastError ("Failed to initialize render engine: " +:+ "Skia") ;;;
         modify_ctx (ctx_set_renderEngine false) ;;;
         ret false
       else
         modify_ctx (ctx_set_initialized true) ;;;
         ret true)
      (λ what,
         setLastError ("Exception during initialization: " +:+ what) ;;;
         ret false)
      (setLastError "Unknown exception during initialization" ;;;
       ret false).

(** [LibraryContext::shutdown] up to the joins of the pool.  [true]
    when the caller goes on to join, [false] when it returned at once
    because the library is not initialized. *)
Definition shutdown_signal : M X bool :=
  let* init := initialized in
  if negb init then ret false
  else
    ThreadPool_shutdown_signal ;;;
    modify (set_joining true) ;;;
    ret true.

(** [LibraryContext::shutdown] from the joins on, for a caller that
    [shutdown_signal] left there; [false] while the joins still block
    (or when no caller is there). *)
Definition shutdown_complete : M X bool :=
  let* joining := gets w_joining in
  if negb joining then ret false
  else
    let* joined := ThreadPool_shutdown_join in
    if negb joined then ret false
    else
      modify (set_joining false) ;;;
      modify_ctx (ctx_set_renderEngine false) ;;;
      modify_ctx (ctx_set_tasksMap ∅) ;;;
      drop_unheld ;;;
      modify_ctx (ctx_set_initialized false) ;;;
      ret true.

(** [LibraryContext::shutdown] as one call; [false] when the caller
    is left blocked in a join. *)
Definition shutdown : M X bool :=
  let* signalled := shutdown_signal in
  if signalled then shutdown_complete else ret true.

(** [std::make_shared<Task>(html, css, options)]: the object is built
    at the address the allocator hands out. *)
Definition make_shared_Task (html css : string)
    (options : Text2Image_RenderOptions) : M X N :=
  let* a := call (ext_alloc X) in
  let this := Npos a in
  modify (λ w, set_heap (<[this := TaskObj.new this html css options]>
                           (w_heap w)) w) ;;;
  ret this.

(** [createTask]; the result is the shared pointer, [nullptr] on
    failure.  Building a [std::string] from a null [html] and reading
    [*options] through a null pointer are undefined. *)
Definition createTask (html css : option string)
    (options : option Text2Image_RenderOptions) : M X N :=
  let* init := initialized in
  if negb init then
    setLastError "Library not initialized" ;;; ret nullptr
  else
    try_catch
      (match html, options with
       | Some html, Some options =>
           let* task :=
             make_shared_Task html (default EmptyString css) options in
           let* handle := Task_getHandle task in
           modify_ctx (λ c,
             ctx_set_tasksMap (<[handle := task]> (m_tasksMap c)) c) ;;;
           ret task
       | _, _ => undefined
       end)
      (λ what,
         setLastError ("Exception creating task: " +:+ what) ;;;
         ret nullptr)
      (setLastError "Unknown exception creating task" ;;; ret nullptr).

Definition freeTask (handle : N) : M X unit :=
  if N.eqb handle nullptr then ret tt
  else
    let* c := gets w_ctx in
    match m_tasksMap c !! handle with
    | Some _ =>
        modify_ctx (λ c,
          ctx_set_tasksMap (delete handle (m_tasksMap c)) c) ;;;
        drop_unheld
    | None => ret tt
    end.

Definition getTask (handle : N) : M X N :=
  let* c := gets w_ctx in
  match m_tasksMap c !! handle with
  | Some task => ret task
  | None => ret nullptr
  end.

Definition renderSync (task : N) (outputPath : option string) : M X bool :=
  let* init := initialized in
  if negb init then
    setLastError "Library not initialized" ;;; ret false
  else if N.eqb task nullptr then
    setLastError "Invalid task" ;;; ret false
  else
    try_catch
      (Task_setStatus task RUNNING ;;;
       let* success := RenderEngine_render task in
       if success then
         Task_setStatus task COMPLETED ;;;
         match outputPath with
         | Some outputPath =>
             let* result := Task_getResult task in
             if negb (vec_empty result) then
               let* opened :=
                 call (λ e, ext_ofstream_open X e outputPath) in
               emit (EvFileOpen outputPath opened) ;;;
               if negb opened then
                 setLastError
                   ("Failed to open output file: " +:+ outputPath) ;;;
                 ret false
               else
                 let* written :=
                   call (λ e, ext_ofstream_write X e outputPath result) in
                 emit (EvFileWrite outputPath result written) ;;;
                 if negb written then
                   setLastError
                     ("Failed to write to output file: " +:+ outputPath) ;;;
                   ret false
                 else ret true
             else ret true
         | None => ret true
         end
       else
         Task_setStatus task FAILED ;;;
         let* msg := Task_getErrorMessage task in
         setLastError ("Rendering failed: " +:+ msg) ;;;
         ret false)
      (λ what,
         Task_setStatus task FAILED ;;;
         let errorMsg := "Exception during rendering: " +:+ what in
         Task_setErrorMessage task errorMsg ;;;
         setLastError errorMsg ;;;
         ret false)
      (Task_setStatus task FAILED ;;;
       let errorMsg := "Unknown exception during rendering" in
       Task_setErrorMessage task errorMsg ;;;
       setLastError errorMsg ;;;
       ret false).

(** The lambda [renderTask] that [renderAsync] builds (lines 214-248
    of library_context.cpp), as the code it would run if called. *)
Definition renderTask (task : N) (outputPath : option string) : M X unit :=
  let* success := RenderEngine_render task in
  let* success :=
    if success then
      Task_setStatus task COMPLETED ;;;
      match outputPath with
      | Some outputPath =>
          let* result := Task_getResult task in
          if negb (vec_empty result) then
            let* opened :=
              call (λ e, ext_ofstream_open X e outputPath) in
            emit (EvFileOpen outputPath opened) ;;;
            if negb opened then
              Task_setStatus task FAILED ;;;
              Task_setErrorMessage task
                ("Failed to open output file: " +:+ outputPath) ;;;
              ret false
            else
              let* written :=
                call (λ e, ext_ofstream_write X e outputPath result) in
              emit (EvFileWrite outputPath result written) ;;;
              if negb written then
                Task_setStatus task FAILED ;;;
                Task_setErrorMessage task
                  ("Failed to write to output file: " +:+ outputPath) ;;;
                ret false
              else ret true
          else ret true
      | None => ret true
      end
    else
      Task_setStatus task FAILED ;;; ret false in
  Task_executeCallback task success.

(** [renderAsync]: the lambda is built and then dropped; what goes
    into the queue is the task itself. *)
Definition renderAsync (task : N) (outputPath : option string)
    (callback : Text2Image_RenderCallback) (userData : N) : M X bool :=
  let* init := initialized in
  if negb init then
    setLastError "Library not initialized" ;;; ret false
  else if N.eqb task nullptr then
    setLastError "Invalid task" ;;; ret false
  else
    try_catch
      (Task_setCallback task callback userData ;;;
       let renderTask := renderTask task outputPath in
       ThreadPool_enqueue task ;;;
       ret true)
      (λ what,
         setLastError
           ("Exception during async rendering setup: " +:+ what) ;;;
         ret false)
      (setLastError "Unknown exception during async rendering setup" ;;;
       ret false).

End LibraryContextMethods.

(* ===================================================================== *)
(** ** src/text2image.cpp: the C ABI                                      *)
(* ===================================================================== *)

Definition Text2Image_GetDefaultOptions : Text2Image_RenderOptions :=
  {| resolution := TEXT2IMAGE_RESOLUTION_AUTO;
     format := TEXT2IMAGE_FORMAT_PNG;
     quality := 90;
     customWidth := 0;
     customHeight := 0;
     backgroundType := TEXT2IMAGE_BACKGROUND_SOLID;
     backgroundColor := 0xFFFFFFFF;
     backgroundImage := None;
     backgroundBlur := 0;
     borderRadius := 0;
     enableJavaScript := false;
     timeout := 30000 |}.

Section CAbi.
Context {X : Externals}.
Local Open Scope m_scope.

Definition Text2Image_Init : M X bool := initialize.

Definition Text2Image_Shutdown : M X bool := shutdown.

Definition Text2Image_CreateTask (html css : option string)
    (options : option Text2Image_RenderOptions) : M X N :=
  match html with
  | None => setLastError "HTML content cannot be null" ;;; ret nullptr
  | Some _ =>
      let defaultOptions := Text2Image_GetDefaultOptions in
      let options :=
        match options with
        | None => Some defaultOptions
        | Some o => Some o
        end in
      let* task :=
        createTask html (Some (default EmptyString css)) options in
      if N.eqb task nullptr then ret nullptr
      else Task_getHandle task
  end.

Definition Text2Image_Render (task : N) (outputPath : option string)
    : M X bool :=
  if N.eqb task nullptr then
    setLastError "Invalid task handle" ;;; ret false
  else
    let* taskPtr := getTask task in
    if N.eqb taskPtr nullptr then
      setLastError "Task not found" ;;; ret false
    else renderSync taskPtr outputPath.

Definition Text2Image_RenderAsync (task : N) (outputPath : option string)
    (callback : Text2Image_RenderCallback) (userData : N) : M X bool :=
  if N.eqb task nullptr then
    setLastError "Invalid task handle" ;;; ret false
  else
    let* taskPtr := getTask task in
    if N.eqb taskPtr nullptr then
      setLastError "Task not found" ;;; ret false
    else renderAsync taskPtr outputPath callback userData.

(** [buffer] and [size] are the addresses of the caller's
    out-parameters.  What is stored through them on success comes
    back as the second component: the bytes of the new array and the
    value of [*size].  [new uint8_t[n]] does not return null, so the
    test that follows it in the source is never taken. *)
Definition Text2Image_GetResult (task buffer size : N)
    : M X (bool * option (list Byte.byte * Z)) :=
  if N.eqb task nullptr || N.eqb buffer nullptr || N.eqb size nullptr then
    setLastError "Invalid parameters" ;;; ret (false, None)
  else
    let* taskPtr := getTask task in
    if N.eqb taskPtr nullptr then
      setLastError "Task not found" ;;; ret (false, None)
    else
      let* status := Task_getStatus taskPtr in
      if negb (bool_decide (status = COMPLETED)) then
        setLastError "Task not completed" ;;; ret (false, None)
      else
        let* result := Task_getResult taskPtr in
        if vec_empty result then
          setLastError "No result available" ;;; ret (false, None)
        else
          ret (true, Some (result, Z.of_nat (length result))).

Definition Text2Image_FreeTask (task : N) : M X unit :=
  if N.eqb task nullptr then ret tt else freeTask task.

Definition Text2Image_GetLastError : M X (option string) := getLastError.

(** [numThreads] is a C [int]; the cast to [size_t] wraps. *)
Definition Text2Image_SetMaxThreads (numThreads : Z) : M X unit :=
  let numThreads :=
    if numThreads <=? 0 then Z.of_N (hardware_concurrency X)
    else numThreads in
  ThreadPool_setMaxThreads (size_t_wrap numThreads).

End CAbi.

(* ===================================================================== *)
(** ** Runs: client calls interleaved with worker steps                   *)
(* ===================================================================== *)

(** One atomic step of the program: a call of the C ABI by a client
    thread, or a step of a worker thread. *)
Inductive Op :=
  | OpInit
  | OpShutdownSignal
  | OpShutdownComplete
  | OpCreateTask (html css : option string)
      (options : option Text2Image_RenderOptions)
  | OpRender (task : N) (outputPath : option string)
  | OpRenderAsync (task : N) (outputPath : option string)
      (callback userData : N)
  | OpGetResult (task buffer size : N)
  | OpFreeTask (task : N)
  | OpGetLastError
  | OpSetMaxThreads (numThreads : Z)
  | OpWorkerCriticalSection (i : nat)
  | OpWorkerExecute (i : nat).

Section Interleaving.
Context {X : Externals}.
Local Open Scope m_scope.

Definition run_op (op : Op) : M X unit :=
  match op with
  | OpInit => Text2Image_Init ;;; ret tt
  | OpShutdownSignal => shutdown_signal ;;; ret tt
  | OpShutdownComplete => shutdown_complete ;;; ret tt
  | OpCreateTask html css options =>
      Text2Image_CreateTask html css options ;;; ret tt
  | OpRender task outputPath => Text2Image_Render task outputPath ;;; ret tt
  | OpRenderAsync task outputPath callback userData =>
      Text2Image_RenderAsync task outputPath callback userData ;;; ret tt
  | OpGetResult task buffer size =>
      Text2Image_GetResult task buffer size ;;; ret tt
  | OpFreeTask task => Text2Image_FreeTask task
  | OpGetLastError => Text2Image_GetLastError ;;; ret tt
  | OpSetMaxThreads numThreads => Text2Image_SetMaxThreads numThreads
  | OpWorkerCriticalSection i => worker_critical_section i
  | OpWorkerExecute i => worker_execute i
  end.

Fixpoint run_ops (ops : list Op) : M X unit :=
  match ops with
  | [] => ret tt
  | op :: ops => run_op op ;;; run_ops ops
  end.

(** The state a run leaves, whatever way it ended. *)
Definition exec (ops : list Op) (w : World X) : World X :=
  snd (run_ops ops w).

End Interleaving.

(* ===================================================================== *)
(** ** A concrete outside world, for running the model                    *)
(* ===================================================================== *)

Module Demo.

(** The allocator hands out consecutive addresses.  A background
    image loads at the first draw only (the file is gone afterwards)
    and never loads from ["missing.png"].  Output files open
    everywhere but under ["/no/such/dir/"]. *)
Record DemoEnv := mkDemoEnv {
  next_address : positive;
  draws : nat
}.

Definition png : list Byte.byte :=
  [Byte.x89; Byte.x50; Byte.x4e; Byte.x47].

Definition externals (cores : N) : Externals :=
  {| Env := DemoEnv;
     hardware_concurrency := cores;
     ext_alloc := λ e,
       (next_address e,
        {| next_address := Pos.succ (next_address e); draws := draws e |});
     ext_engine_initialize := λ e, (true, e);
     ext_parseHtml := λ e _ _, (Normal true, e);
     ext_MakeRaster := λ e _ _, (Normal true, e);
     ext_drawBackground := λ e _ _ o,
       match backgroundType o, backgroundImage o with
       | TEXT2IMAGE_BACKGROUND_IMAGE, Some path =>
           (negb (String.eqb path "missing.png") && Nat.eqb (draws e) 0,
            {| next_address := next_address e; draws := S (draws e) |})
       | _, _ => (true, e)
       end;
     ext_renderHtmlToCanvas := λ e _ _ _, (Normal true, e);
     ext_roundCorners := λ e _ _ _, (Normal tt, e);
     ext_encodeImage := λ e _ _, (Some png, e);
     ext_ofstream_open := λ e path,
       (negb (String.prefix "/no/such/dir/" path), e);
     ext_ofstream_write := λ e _ _, (true, e) |}.

Definition env0 : DemoEnv := {| next_address := 1; draws := 0 |}.

(** The process right after the singleton is built, on a machine
    with [cores] hardware threads. *)
Definition start (cores : N) : World (externals cores) :=
  World_new (externals cores) env0.

Definition with_image (path : string) : Text2Image_RenderOptions :=
  {| resolution := TEXT2IMAGE_RESOLUTION_720P;
     format := TEXT2IMAGE_FORMAT_PNG;
     quality := 90;
     customWidth := 0;
     customHeight := 0;
     backgroundType := TEXT2IMAGE_BACKGROUND_IMAGE;
     backgroundColor := 0xFFFFFFFF;
     backgroundImage := Some path;
     backgroundBlur := 0;
     borderRadius := 0;
     enableJavaScript := false;
     timeout := 30000 |}.

End Demo.

(* ===================================================================== *)
(** ** Predicates of the specification                                    *)
(* ===================================================================== *)

(** [post m w Q]: running [m] from [w] ends in a result and a state
    that satisfy [Q].  [M] is deterministic and total, so this is both
    the weakest precondition and the strongest postcondition. *)
Definition post {X A} (m : M X A) (w : World X)
    (Q : Result A → World X → Prop) : Prop :=
  Q (m w).1 (m w).2.

(** How [render] leaves the task it was given: with a result and
    [true], or with a non-empty error message and [false]. *)
Inductive render_outcome (t : Task) : bool → Task → Prop :=
  | render_ok output :
      render_outcome t true (TaskObj.setResult output t)
  | render_failed message :
      message ≠ EmptyString →
      render_outcome t false (TaskObj.setErrorMessage message t).

(** The part of the state [render] leaves alone. *)
Definition render_frame {X} (task : N) (t : Task) (w : World X)
    : Result bool → World X → Prop :=
  λ r w', ∃ b t',
    r = Returned b ∧ render_outcome t b t' ∧
    w_heap w' = <[task := t']> (w_heap w) ∧
    w_ctx w' = w_ctx w ∧ w_joining w' = w_joining w ∧
    w_trace w' = w_trace w.

(** Two contexts that differ at most in the last-error slot. *)
Definition same_but_lastError (c c' : LibraryContext) : Prop :=
  m_renderEngine c' = m_renderEngine c ∧
  m_threadPool c' = m_threadPool c ∧
  m_tasksMap c' = m_tasksMap c ∧
  m_initialized c' = m_initialized c.

(** The events of the output file. *)
Definition is_file_event (ev : Event) : Prop :=
  match ev with
  | EvFileOpen _ _ | EvFileWrite _ _ _ => True
  | _ => False
  end.

(** The terminal status [renderSync] stores after [render] said [b]. *)
Definition terminal_status (b : bool) : TaskStatus :=
  if b then COMPLETED else FAILED.

(** The callback event of [executeCallback], if there is a callback. *)
Definition callback_events (t : Task) (success : bool) : list Event :=
  if N.eqb (m_callback t) nullptr then []
  else [EvCallback (m_callback t) (m_handle t) success (m_userData t)].

(** Every shared pointer that is around points to a live Task, and the
    registry holds no null handle and no null pointer. *)
Record wf {X} (w : World X) : Prop := mk_wf {
  wf_registry : ∀ h p,
    m_tasksMap (w_ctx w) !! h = Some p →
    h ≠ nullptr ∧ p ≠ nullptr ∧ is_Some (w_heap w !! p);
  wf_queue : ∀ p,
    p ∈ m_tasks (m_threadPool (w_ctx w)) → is_Some (w_heap w !! p);
  wf_workers : ∀ p,
    WHolding p ∈ m_workers (m_threadPool (w_ctx w)) →
    is_Some (w_heap w !! p)
}.

(** A call from [w] that returns (no exception escapes, nothing
    undefined), leaves a well-formed state and does not reset the stop
    flag of the pool. *)
Definition returns_wf {X A} (w : World X) : Result A → World X → Prop :=
  λ r w',
    (∃ a, r = Returned a) ∧ wf w' ∧
    (m_stop (m_threadPool (w_ctx w)) = true →
     m_stop (m_threadPool (w_ctx w')) = true).

(** The handle resolves to the live task [t]: the registry maps it to a
    shared pointer, and [t] is the object behind it. *)
Definition resolves_to {X} (w : World X) (handle : N) (t : Task) : Prop :=
  ∃ p, m_tasksMap (w_ctx w) !! handle = Some p ∧ w_heap w !! p = Some t.

(** The condition under which [Text2Image_GetResult] is claimed to
    succeed. *)
Definition result_ready {X} (w : World X) (handle buffer size : N) : Prop :=
  buffer ≠ nullptr ∧ size ≠ nullptr ∧
  ∃ t, resolves_to w handle t ∧ m_status t = COMPLETED ∧ m_result t ≠ [].

(** [Text2Image_GetResult] returned [true]. *)
Definition succeeded {A} (r : Result (bool * A)) : Prop :=
  ∃ out, r = Returned (true, out).





(** The events a run adds to those of the state it starts from. *)
Definition new_events {X} (w w' : World X) : list Event :=
  drop (length (w_trace w)) (w_trace w').







(** What a render, by [renderSync] or by a worker, makes of a task. *)
Definition rendered (t t' : Task) : Prop :=
  (∃ b t1, render_outcome (TaskObj.setStatus RUNNING t) b t1 ∧
           t' = TaskObj.setStatus (terminal_status b) t1) ∨
  t' = TaskObj.setStatus COMPLETED t.







(* ===================================================================== *)
(** ** Concrete runs on the demo world                                    *)
(* ===================================================================== *)

Module Scenarios.
Import Demo.

Local Open Scope string_scope.

(** A task whose render fails: its background image does not load. *)
Definition create_unrenderable : Op :=
  OpCreateTask (Some "<p>hi</p>") None (Some (with_image "missing.png")).

(** A task with the default options. *)
Definition create_plain : Op := OpCreateTask (Some "<p>hi</p>") None None.


(** The task at address 1 after a run on a one-core machine. *)
Definition task_after (ops : list Op) : option Task :=
  w_heap (exec ops (start 1)) !! 1%N.

Definition outcome (t : Task) : TaskStatus * string * list Byte.byte :=
  (m_status t, m_errorMessage t, m_result t).

(** The asynchronous path of a task whose render fails: submitted with
    callback 7 and context 9, dequeued and executed by the worker. *)
Definition async_run : list Op :=
  [OpInit; create_unrenderable; OpRenderAsync 1 None 7 9;
   OpWorkerCriticalSection 0; OpWorkerExecute 0].

(** The synchronous path of the same task. *)
Definition sync_run : list Op :=
  [OpInit; create_unrenderable; OpRender 1 None].

(** A synchronous render into a directory that does not exist. *)
Definition unwritable_run : list Op :=
  [OpInit; create_plain; OpRender 1 (Some "/no/such/dir/out.png")].



(** The library right after [Text2Image_Init] on a one-core machine. *)
Definition initialized_world : World (externals 1) := exec [OpInit] (start 1).

(** The plain task as the constructor leaves it at address 1. *)
Definition plain_task : Task :=
  TaskObj.new 1 "<p>hi</p>" "" Text2Image_GetDefaultOptions.

(** The library with the plain task created and nothing else done. *)
Definition created_world : World (externals 1) :=
  exec [OpInit; create_plain] (start 1).

(** The library with the plain task rendered synchronously. *)
Definition rendered_world : World (externals 1) :=
  exec [OpInit; create_plain; OpRender 1 None] (start 1).



End Scenarios.

(* ===================================================================== *)
(** ** What one operation does to the state                               *)
(* ===================================================================== *)

(** How [renderSync] ends once [render] has answered [b] and left the
    task [t1] behind, from the context [c]: the value returned, the
    events of the output file, and the context left.  The output file
    is tried only after a successful render that left a non-empty
    result, and every failure goes to the last-error slot. *)
Inductive sync_end (outputPath : option string) (t1 : Task)
    (c : LibraryContext)
    : bool → bool → list Event → LibraryContext → Prop :=
  | sync_render_failed :
      sync_end outputPath t1 c false false []
        (ctx_set_lastError ("Rendering failed: " +:+ m_errorMessage t1) c)
  | sync_no_file :
      outputPath = None ∨ m_result t1 = [] →
      sync_end outputPath t1 c true true [] c
  | sync_open_failed path :
      outputPath = Some path → m_result t1 ≠ [] →
      sync_end outputPath t1 c true false [EvFileOpen path false]
        (ctx_set_lastError ("Failed to open output file: " +:+ path) c)
  | sync_write_failed path :
      outputPath = Some path → m_result t1 ≠ [] →
      sync_end outputPath t1 c true false
        [EvFileOpen path true; EvFileWrite path (m_result t1) false]
        (ctx_set_lastError ("Failed to write to output file: " +:+ path) c)
  | sync_written path :
      outputPath = Some path → m_result t1 ≠ [] →
      sync_end outputPath t1 c true true
        [EvFileOpen path true; EvFileWrite path (m_result t1) true] c.

(** [held], read off a context. *)
Definition held_by (c : LibraryContext) (p : N) : bool :=
  bool_decide (p ∈ (map_img (m_tasksMap c) : gset N))
  || bool_decide (p ∈ m_tasks (m_threadPool c))
  || bool_decide (WHolding p ∈ m_workers (m_threadPool c)).

(** The Task objects [drop_unheld] leaves. *)
Definition survivors (c : LibraryContext) (h : gmap N Task) : gmap N Task :=
  filter (λ kv, held_by c kv.1 = true) h.

(** The state [w'] has these parts; nothing is said of the outside
    world. *)
Definition state_is {X} (w' : World X) (c : LibraryContext)
    (h : gmap N Task) (tr : list Event) (j : bool) : Prop :=
  w_ctx w' = c ∧ w_heap w' = h ∧ w_trace w' = tr ∧ w_joining w' = j.

(** The thread count [Text2Image_SetMaxThreads] passes on. *)
Definition requested_threads (X : Externals) (numThreads : Z) : Z :=
  size_t_wrap (if numThreads <=? 0 then Z.of_N (hardware_concurrency X)
               else numThreads).

(** The state changes an operation can make from the state [w]. *)
Inductive op_effect {X} (w : World X) : Op → World X → Prop :=
  | effect_none op w' :
      state_is w' (w_ctx w) (w_heap w) (w_trace w) (w_joining w) →
      op_effect w op w'
  | effect_error op message w' :
      message ≠ EmptyString →
      state_is w' (ctx_set_lastError message (w_ctx w))
        (w_heap w) (w_trace w) (w_joining w) →
      op_effect w op w'
  | effect_init_ok w' :
      m_initialized (w_ctx w) = false →
      state_is w'
        (ctx_set_initialized true (ctx_set_renderEngine true (w_ctx w)))
        (w_heap w) (w_trace w) (w_joining w) →
      op_effect w OpInit w'
  | effect_init_failed w' :
      m_initialized (w_ctx w) = false →
      state_is w'
        (ctx_set_renderEngine false
           (ctx_set_lastError "Failed to initialize render engine: Skia"
              (ctx_set_renderEngine true (w_ctx w))))
        (w_heap w) (w_trace w) (w_joining w) →
      op_effect w OpInit w'
  | effect_shutdown_signal w' :
      m_initialized (w_ctx w) = true →
      state_is w'
        (ctx_set_threadPool (pool_set_stop true (m_threadPool (w_ctx w)))
           (w_ctx w))
        (w_heap w) (w_trace w ++ [EvNotifyAll]) true →
      op_effect w OpShutdownSignal w'
  | effect_shutdown_complete w' :
      w_joining w = true →
      all_exited (m_workers (m_threadPool (w_ctx w))) = true →
      let c :=
        ctx_set_tasksMap ∅
          (ctx_set_renderEngine false
             (ctx_set_threadPool
                (pool_set_workers [] (m_threadPool (w_ctx w))) (w_ctx w))) in
      state_is w' (ctx_set_initialized false c)
        (survivors c (w_heap w)) (w_trace w) false →
      op_effect w OpShutdownComplete w'
  | effect_create html css options a content style o w' :
      m_initialized (w_ctx w) = true →
      state_is w'
        (ctx_set_tasksMap (<[Npos a := Npos a]> (m_tasksMap (w_ctx w)))
           (w_ctx w))
        (<[Npos a := TaskObj.new (Npos a) content style o]> (w_heap w))
        (w_trace w) (w_joining w) →
      op_effect w (OpCreateTask html css options) w'
  | effect_render handle outputPath p t b t1 ok evs c' w' :
      m_initialized (w_ctx w) = true →
      m_tasksMap (w_ctx w) !! handle = Some p →
      w_heap w !! p = Some t →
      render_outcome (TaskObj.setStatus RUNNING t) b t1 →
      sync_end outputPath t1 (w_ctx w) b ok evs c' →
      state_is w' c'
        (<[p := TaskObj.setStatus (terminal_status b) t1]> (w_heap w))
        (w_trace w
         ++ [EvStatus p (m_status t) RUNNING; EvRender p;
             EvStatus p RUNNING (terminal_status b)] ++ evs)
        (w_joining w) →
      op_effect w (OpRender handle outputPath) w'
  | effect_enqueue handle outputPath callback userData p t w' :
      m_initialized (w_ctx w) = true →
      m_tasksMap (w_ctx w) !! handle = Some p →
      w_heap w !! p = Some t →
      m_stop (m_threadPool (w_ctx w)) = false →
      state_is w'
        (ctx_set_threadPool
           (pool_set_tasks (m_tasks (m_threadPool (w_ctx w)) ++ [p])
              (m_threadPool (w_ctx w)))
           (w_ctx w))
        (<[p := TaskObj.setCallback callback userData t]> (w_heap w))
        (w_trace w ++ [EvNotifyOne]) (w_joining w) →
      op_effect w (OpRenderAsync handle outputPath callback userData) w'
  | effect_rejected handle outputPath callback userData p t w' :
      m_initialized (w_ctx w) = true →
      m_tasksMap (w_ctx w) !! handle = Some p →
      w_heap w !! p = Some t →
      m_stop (m_threadPool (w_ctx w)) = true →
      state_is w'
        (ctx_set_lastError
           "Exception during async rendering setup: enqueue on stopped ThreadPool"
           (w_ctx w))
        (<[p := TaskObj.setCallback callback userData t]> (w_heap w))
        (w_trace w) (w_joining w) →
      op_effect w (OpRenderAsync handle outputPath callback userData) w'
  | effect_free handle p w' :
      m_tasksMap (w_ctx w) !! handle = Some p →
      let c := ctx_set_tasksMap (delete handle (m_tasksMap (w_ctx w)))
                 (w_ctx w) in
      state_is w' c (survivors c (w_heap w)) (w_trace w) (w_joining w) →
      op_effect w (OpFreeTask handle) w'
  | effect_grow numThreads w' :
      let pool := m_threadPool (w_ctx w) in
      let n := requested_threads X numThreads in
      let size := Z.of_nat (length (m_workers pool)) in
      n ≠ m_maxThreads pool → size < n →
      state_is w'
        (ctx_set_threadPool
           (pool_set_workers
              (m_workers pool ++ replicate (Z.to_nat (n - size)) WWaiting)
              (pool_set_maxThreads n pool))
           (w_ctx w))
        (w_heap w) (w_trace w) (w_joining w) →
      op_effect w (OpSetMaxThreads numThreads) w'
  | effect_shrink numThreads w' :
      let pool := m_threadPool (w_ctx w) in
      let n := requested_threads X numThreads in
      let size := Z.of_nat (length (m_workers pool)) in
      n ≠ m_maxThreads pool → n < size →
      state_is w'
        (ctx_set_threadPool (pool_set_maxThreads n pool) (w_ctx w))
        (w_heap w) (w_trace w ++ [EvNotifyAll]) (w_joining w) →
      op_effect w (OpSetMaxThreads numThreads) w'
  | effect_exit i w' :
      let pool := m_threadPool (w_ctx w) in
      m_workers pool !! i = Some WWaiting →
      acquire pool = AExit →
      state_is w'
        (ctx_set_threadPool
           (pool_set_workers (<[i := WExited]> (m_workers pool)) pool)
           (w_ctx w))
        (w_heap w) (w_trace w) (w_joining w) →
      op_effect w (OpWorkerCriticalSection i) w'
  | effect_take i p q w' :
      let pool := m_threadPool (w_ctx w) in
      m_workers pool !! i = Some WWaiting →
      acquire pool = ATake p →
      m_tasks pool = p :: q →
      state_is w'
        (ctx_set_threadPool
           (pool_set_workers (<[i := WHolding p]> (m_workers pool))
              (pool_set_activeThreads (size_t_wrap (m_activeThreads pool + 1))
                 (pool_set_tasks q pool)))
           (w_ctx w))
        (w_heap w) (w_trace w) (w_joining w) →
      op_effect w (OpWorkerCriticalSection i) w'
  | effect_execute i p t w' :
      let pool := m_threadPool (w_ctx w) in
      m_workers pool !! i = Some (WHolding p) →
      w_heap w !! p = Some t →
      let c :=
        ctx_set_threadPool
          (pool_set_workers (<[i := WWaiting]> (m_workers pool))
             (pool_set_activeThreads (size_t_wrap (m_activeThreads pool - 1))
                pool))
          (w_ctx w) in
      state_is w' c
        (survivors c (<[p := TaskObj.setStatus COMPLETED t]> (w_heap w)))
        (w_trace w
         ++ [EvStatus p (m_status t) RUNNING; EvSleep 100;
             EvStatus p RUNNING COMPLETED] ++ callback_events t true)
        (w_joining w) →
      op_effect w (OpWorkerExecute i) w'.

(** A call that returns and whose change of state is one [op] can
    make. *)
Definition effect_of {X A} (op : Op) (w : World X)
    : Result A → World X → Prop :=
  λ r w', (∃ a, r = Returned a) ∧ op_effect w op w'.

(* ===================================================================== *)
(** ** Predicates on runs                                                 *)
(* ===================================================================== *)

(** Every step of the run passes the test [ok] in the state it starts
    from. *)
Fixpoint always {X} (ok : Op → World X → bool) (ops : list Op) (w : World X)
    : bool :=
  match ops with
  | [] => true
  | op :: ops => ok op w && always ok ops (run_op op w).2
  end.

(** The step asks the pool for fewer threads than it has. *)
Definition shrinking {X} (op : Op) (w : World X) : bool :=
  match op with
  | OpSetMaxThreads numThreads =>
      requested_threads X numThreads
      <? Z.of_nat (length (m_workers (m_threadPool (w_ctx w))))
  | _ => false
  end.

Definition keeps_size {X} (op : Op) (w : World X) : bool :=
  negb (shrinking op w).



(** The number of elements that pass a test. *)
Fixpoint count {A} (f : A → bool) (l : list A) : nat :=
  match l with
  | [] => 0
  | x :: l => (if f x then 1 else 0) + count f l
  end.

Definition is_holding (s : WorkerState) : bool :=
  match s with WHolding _ => true | _ => false end.

(** [notify_one] is called by [enqueue] only, once per task accepted;
    the worker sleeps once per task it runs. *)
Definition is_submission (ev : Event) : bool :=
  match ev with EvNotifyOne => true | _ => false end.

Definition is_execution (ev : Event) : bool :=
  match ev with EvSleep _ => true | _ => false end.



(** [Text2Image_GetLastError] returns a message (not the null pointer)
    and leaves the state as it is. *)
Definition reports_error {X} (w : World X) : Prop :=
  ∃ message, message ≠ EmptyString ∧
             Text2Image_GetLastError w = (Returned (Some message), w).

(** The last-error slot after a call that says whether it succeeded:
    untouched on success, a message on failure. *)
Definition error_contract {X} (w : World X) (succeeded : bool)
    (w' : World X) : Prop :=
  if succeeded then m_lastError (w_ctx w') = m_lastError (w_ctx w)
  else reports_error w'.

(** Handles are addresses: the registry maps a handle to the object at
    that address, and the object carries the address as its handle. *)
Definition handles_are_addresses {X} (w : World X) : Prop :=
  (∀ h p, m_tasksMap (w_ctx w) !! h = Some p → p = h) ∧
  (∀ p t, w_heap w !! p = Some t → m_handle t = p).

(** No worker thread has returned from [worker()], and the pool has no
    more threads than [m_maxThreads] and no fewer than it was built
    with. *)
Definition no_worker_left {X} (w : World X) : Prop :=
  (WExited ∉ m_workers (m_threadPool (w_ctx w))) ∧
  Z.of_nat (length (m_workers (m_threadPool (w_ctx w))))
  ≤ m_maxThreads (m_threadPool (w_ctx w)) ∧
  Z.of_N (hardware_concurrency X)
  ≤ Z.of_nat (length (m_workers (m_threadPool (w_ctx w)))).

(** The books of the pool balance: every submission accepted by
    [enqueue] is in the queue, in the hands of a worker, or has been
    run; and [m_activeThreads] counts the workers that hold a task. *)
Definition pool_accounts {X} (w : World X) : Prop :=
  count is_submission (w_trace w)
  = (count is_execution (w_trace w)
     + length (m_tasks (m_threadPool (w_ctx w)))
     + count is_holding (m_workers (m_threadPool (w_ctx w))))%nat ∧
  m_activeThreads (m_threadPool (w_ctx w))
  = size_t_wrap
      (Z.of_nat (count is_holding (m_workers (m_threadPool (w_ctx w))))).



(* ===================================================================== *)
(** ** src/skia_render_engine.cpp: renderHtmlToCanvas and renderElement   *)
(* ===================================================================== *)

(** libxml2's [xmlNode] as far as [renderElement] reads it: the field
    [type] (the integer of the enum [xmlElementType]), the field [name]
    (a C string, possibly null), what [xmlNodeGetContent] returns for
    the node (a C string, or null), and the nodes linked from
    [children] through [next]. *)
#[local] Unset Elimination Schemes.
Inductive xmlNode :=
  | XmlNode (type : Z) (name : option string) (content : option string)
      (children : list xmlNode).
#[local] Set Elimination Schemes.

Definition XML_ELEMENT_NODE : Z := 1.

(** Addition of C [int]s; [None] when it overflows, which is
    undefined. *)
Definition INT_MIN : Z := - 2 ^ 31.
Definition INT_MAX : Z := 2 ^ 31 - 1.

Definition int_add (a b : Z) : option Z :=
  if (INT_MIN <=? a + b) && (a + b <=? INT_MAX) then Some (a + b) else None.

(** The call [canvas->drawSimpleText(text, byteLength, kUTF8, x, y,
    font, paint)], with the font of size 16 and the black paint that
    [renderElement] builds; [x] and [y] are the [int]s passed. *)
Inductive Draw :=
  | DrawSimpleText (text : string) (byteLength : nat) (x y : Z).



(** [renderElement(canvas, node, x, y, width)] for a non-null [node]:
    the draws on the canvas, in order; [None] is undefined behaviour
    (a [std::string] built from a null [name], an [int] overflow).
    [width] is not used by the source. *)
Fixpoint renderElement (node : xmlNode) (x y : Z) {struct node}
    : option (list Draw) :=
  match node with
  | XmlNode type name content children =>
      if negb (type =? XML_ELEMENT_NODE) then Some []
      else
        match name with
        | None => None
        | Some nodeName =>
            let own :=
              if String.eqb nodeName "text" || String.eqb nodeName "#text"
              then
                match content with
                | Some text =>
                    match int_add y 16 with
                    | Some baseline =>
                        Some [DrawSimpleText text (String.length text)
                                x baseline]
                    | None => None
                    end
                | None => Some []
                end
              else Some [] in
            match own with
            | None => None
            | Some own =>
                match children with
                | [] => Some own
                | _ :: _ =>
                    match int_add y 20 with
                    | None => None
                    | Some below =>
                        match
                          (fix loop (cs : list xmlNode)
                             : option (list Draw) :=
                             match cs with
                             | [] => Some []
                             | child :: cs =>
                                 match renderElement child x below with
                                 | None => None
                                 | Some first =>
                                     match loop cs with
                                     | None => None
                                     | Some rest => Some (first ++ rest)
                                     end
                                 end
                             end) children
                        with
                        | None => None
                        | Some below_draws => Some (own ++ below_draws)
                        end
                    end
                end
            end
        end
  end.

(** The loop over the children in [renderElement]. *)
Fixpoint renderChildren (cs : list xmlNode) (x below : Z)
    : option (list Draw) :=
  match cs with
  | [] => Some []
  | child :: cs =>
      match renderElement child x below with
      | None => None
      | Some first =>
          match renderChildren cs x below with
          | None => None
          | Some rest => Some (first ++ rest)
          end
      end
  end.

(** [renderHtmlToCanvas]: [doc] is [m_htmlDoc] (null, or a document
    with what [xmlDocGetRootElement] returns for it).  The value
    returned and the draws. *)
Definition renderHtmlToCanvas (doc : option (option xmlNode))
    (width height : Z) : option (bool * list Draw) :=
  match doc with
  | None => Some (false, [])
  | Some None => Some (false, [])
  | Some (Some root) =>
      match renderElement root 0 0 with
      | Some draws => Some (true, draws)
      | None => None
      end
  end.

(** The number of levels of a tree. *)
Fixpoint levels (node : xmlNode) : nat :=
  match node with
  | XmlNode _ _ _ children =>
      S ((fix deepest (cs : list xmlNode) : nat :=
            match cs with
            | [] => 0%nat
            | child :: cs => Nat.max (levels child) (deepest cs)
            end) children)
  end.

(** No element of the tree that [renderElement] reaches is named
    ["text"] or ["#text"], and every one has a name. *)
Fixpoint no_text_element (node : xmlNode) : bool :=
  match node with
  | XmlNode type name _ children =>
      negb (type =? XML_ELEMENT_NODE)
      || (match name with
          | None => false
          | Some nodeName =>
              negb (String.eqb nodeName "text" || String.eqb nodeName "#text")
          end
          && (fix all (cs : list xmlNode) : bool :=
                match cs with
                | [] => true
                | child :: cs => no_text_element child && all cs
                end) children)
  end.

(** The number of levels of the deepest tree of a list. *)
Fixpoint deepest (cs : list xmlNode) : nat :=
  match cs with
  | [] => 0%nat
  | child :: cs => Nat.max (levels child) (deepest cs)
  end.


(* ===================================================================== *)
(** ** More concrete runs and documents                                   *)
(* ===================================================================== *)

Module Coverage.
Import Demo Scenarios.

Local Open Scope string_scope.


(** On a machine with two hardware threads: the thread count is set to
    auto-detect, then raised to three; a task is submitted; shutdown
    sets the stop flag; every worker takes its turn. *)
Definition growing_run : list Op :=
  [OpInit; OpSetMaxThreads 0; OpSetMaxThreads 3; create_plain;
   OpRenderAsync 1 None 7 9; OpShutdownSignal; OpWorkerCriticalSection 0;
   OpWorkerExecute 0; OpWorkerCriticalSection 1; OpWorkerCriticalSection 2;
   OpShutdownComplete].

(** Calls made before [Text2Image_Init]. *)
Definition before_init_run : list Op :=
  [create_plain; OpRender 1 None; OpShutdownSignal].

(** The library with the plain task created and submitted. *)
Definition queued_world : World (externals 1) :=
  exec [OpInit; create_plain; OpRenderAsync 1 None 7 9] (start 1).

Definition submitted_task : Task := TaskObj.setCallback 7 9 plain_task.

(** The same on a machine where [hardware_concurrency()] is 0: the
    pool has no thread, and the task stays in the queue. *)
Definition orphan_world : World (externals 0) :=
  exec [OpInit; create_plain; OpRenderAsync 1 None 7 9] (start 0).

(** A text node as libxml2 builds it: type [XML_TEXT_NODE] (3), name
    ["text"]. *)
Definition text_node (s : string) : xmlNode :=
  XmlNode 3 (Some "text") (Some s) [].

Definition element (name : string) (children : list xmlNode) : xmlNode :=
  XmlNode XML_ELEMENT_NODE (Some name) (Some "") children.

(** An element whose content is the text [s]. *)
Definition text_element (name s : string) : xmlNode :=
  XmlNode XML_ELEMENT_NODE (Some name) (Some s) [text_node s].

(** [<html><body><p>hi</p><p>there</p></body></html>]. *)
Definition plain_page : xmlNode :=
  element "html"
    [element "body" [text_element "p" "hi"; text_element "p" "there"]].


End Coverage.

(* ===================================================================== *)
(** ** The order of the queue                                             *)
(* ===================================================================== *)

(** The task a step of a run puts into the queue, if any: what
    [Text2Image_RenderAsync] added at the back. *)
Definition accepted_at {X} (op : Op) (w w' : World X) : list N :=
  match op with
  | OpRenderAsync _ _ _ _ =>
      drop (length (m_tasks (m_threadPool (w_ctx w))))
           (m_tasks (m_threadPool (w_ctx w')))
  | _ => []
  end.

(** The task a step of a run hands to a worker, if any: the one the
    waiting worker of a critical section holds afterwards. *)
Definition taken_at {X} (op : Op) (w w' : World X) : list N :=
  match op with
  | OpWorkerCriticalSection i =>
      match m_workers (m_threadPool (w_ctx w)) !! i,
            m_workers (m_threadPool (w_ctx w')) !! i with
      | Some WWaiting, Some (WHolding task) => [task]
      | _, _ => []
      end
  | _ => []
  end.

(** The tasks accepted along a run, and the tasks taken by workers
    along a run, in order. *)
Fixpoint accepted {X} (ops : list Op) (w : World X) : list N :=
  match ops with
  | [] => []
  | op :: ops =>
      accepted_at op w (run_op op w).2 ++ accepted ops (run_op op w).2
  end.

Fixpoint taken {X} (ops : list Op) (w : World X) : list N :=
  match ops with
  | [] => []
  | op :: ops => taken_at op w (run_op op w).2 ++ taken ops (run_op op w).2
  end.
(* ===================================================================== *)
(** ** Reasoning about computations in [M]                                *)
(* ===================================================================== *)

Arguments set_env {X} e w /.
Arguments set_heap {X} h w /.
Arguments set_ctx {X} c w /.
Arguments set_joining {X} b w /.
Arguments set_trace {X} t w /.
Arguments post : simpl never.

Section PostRules.
Context {X : Externals}.
Implicit Types w : World X.

Lemma post_eq {A} (m : M X A) w Q r w' :
  m w = (r, w') → Q r w' → post m w Q.
Proof. unfold post. by intros ->. Qed.

Lemma post_run {A} (m : M X A) w r w' :
  post m w (λ r0 w0, r0 = r ∧ w0 = w') → m w = (r, w').
Proof. unfold post. destruct (m w) as [r0 w0]. cbn. by intros [-> ->]. Qed.

Lemma post_mono {A} (m : M X A) w (Q Q' : Result A → World X → Prop) :
  post m w Q → (∀ r w', Q r w' → Q' r w') → post m w Q'.
Proof. unfold post. auto. Qed.

Lemma post_ret {A} (a : A) w Q : Q (Returned a) w → post (ret a) w Q.
Proof. done. Qed.

Lemma post_throw {A} e w (Q : Result A → World X → Prop) :
  Q (Thrown e) w → post (throw e) w Q.
Proof. done. Qed.

Lemma post_undefined {A} w (Q : Result A → World X → Prop) :
  Q Undefined w → post undefined w Q.
Proof. done. Qed.

Lemma post_bind {A B} (m : M X A) (k : A → M X B) w Q :
  post m w (λ r w',
    match r with
    | Returned a => post (k a) w' Q
    | Thrown e => Q (Thrown e) w'
    | Undefined => Q Undefined w'
    end) →
  post (bind m k) w Q.
Proof.
  unfold post, bind. destruct (m w) as [[a|e|] w']; simpl; auto.
Qed.

Lemma post_try_catch {A} (body : M X A) on_std on_other w Q :
  post body w (λ r w',
    match r with
    | Returned a => Q (Returned a) w'
    | Thrown (StdException what) => post (on_std what) w' Q
    | Thrown UnknownException => post on_other w' Q
    | Undefined => Q Undefined w'
    end) →
  post (try_catch body on_std on_other) w Q.
Proof.
  unfold post, try_catch.
  destruct (body w) as [[a|[what|]|] w']; simpl; auto.
Qed.

Lemma post_gets {A} (f : World X → A) w Q :
  Q (Returned (f w)) w → post (gets f) w Q.
Proof. done. Qed.

Lemma post_modify (f : World X → World X) w Q :
  Q (Returned tt) (f w) → post (modify f) w Q.
Proof. done. Qed.

Lemma post_emit ev w Q :
  Q (Returned tt) (set_trace (w_trace w ++ [ev]) w) → post (emit ev) w Q.
Proof. done. Qed.

Lemma post_call {A} (f : Env X → A * Env X) w Q :
  (∀ a e, f (w_env w) = (a, e) → Q (Returned a) (set_env e w)) →
  post (call f) w Q.
Proof.
  unfold post, call. destruct (f (w_env w)) as [a e].
  intros H. by apply H.
Qed.

Lemma post_call_throwing {A} (f : Env X → Outcome A * Env X) w Q :
  (∀ a e, f (w_env w) = (Normal a, e) → Q (Returned a) (set_env e w)) →
  (∀ x e, f (w_env w) = (Raises x, e) → Q (Thrown x) (set_env e w)) →
  post (call_throwing f) w Q.
Proof.
  unfold post, call_throwing.
  destruct (f (w_env w)) as [[a|x] e]; intros H1 H2;
    [by apply H1 | by apply H2].
Qed.

Lemma post_deref p t w Q :
  w_heap w !! p = Some t → Q (Returned t) w → post (deref p) w Q.
Proof. unfold post, deref. by intros ->. Qed.

Lemma post_update p f t w Q :
  w_heap w !! p = Some t →
  Q (Returned tt) (set_heap (<[p := f t]> (w_heap w)) w) →
  post (update p f) w Q.
Proof. unfold post, update, bind, deref, modify. by intros ->. Qed.

Lemma post_drop_unheld w Q :
  Q (Returned tt) (drop_unheld w).2 → post drop_unheld w Q.
Proof. done. Qed.

Lemma post_get_pool w Q :
  Q (Returned (m_threadPool (w_ctx w))) w → post get_pool w Q.
Proof. done. Qed.

Lemma post_modify_ctx f w Q :
  Q (Returned tt) (set_ctx (f (w_ctx w)) w) → post (modify_ctx f) w Q.
Proof. done. Qed.

Lemma post_modify_pool f w Q :
  Q (Returned tt)
    (set_ctx (ctx_set_threadPool (f (m_threadPool (w_ctx w))) (w_ctx w)) w) →
  post (modify_pool f) w Q.
Proof. done. Qed.

Lemma post_setLastError s w Q :
  Q (Returned tt) (set_ctx (ctx_set_lastError s (w_ctx w)) w) →
  post (setLastError s) w Q.
Proof. done. Qed.

Lemma post_initialized w Q :
  Q (Returned (m_initialized (w_ctx w))) w → post initialized w Q.
Proof. done. Qed.

End PostRules.

(** One step of symbolic execution: the rule for the head of the
    computation, then the postcondition is put back in weak head form. *)
Ltac mstep :=
  lazymatch goal with
  | |- post drop_unheld _ _ => apply post_drop_unheld
  | |- post (bind _ _) _ _ => apply post_bind
  | |- post (try_catch _ _ _) _ _ => apply post_try_catch
  | |- post (ret _) _ _ => apply post_ret
  | |- post (throw _) _ _ => apply post_throw
  | |- post undefined _ _ => apply post_undefined
  | |- post (gets _) _ _ => apply post_gets
  | |- post (modify _) _ _ => apply post_modify
  | |- post (emit _) _ _ => apply post_emit
  | |- post get_pool _ _ => apply post_get_pool
  | |- post (modify_ctx _) _ _ => apply post_modify_ctx
  | |- post (modify_pool _) _ _ => apply post_modify_pool
  | |- post (setLastError _) _ _ => apply post_setLastError
  | |- post initialized _ _ => apply post_initialized
  | |- post (call _) _ _ => apply post_call; intros ? ? ?
  | |- post (call_throwing _) _ _ => apply post_call_throwing; intros ? ? ?
  | |- post (if ?b then _ else _) _ _ =>
      let H := fresh "Hif" in
      destruct b eqn:H; try (exfalso; cbn in H; discriminate H)
  | |- post (match ?x with _ => _ end) _ _ => destruct x eqn:?
  end; cbn [negb andb orb].

Section TaskRules.
Context {X : Externals}.
Implicit Types w : World X.

Lemma post_Task_setStatus task status t w Q :
  w_heap w !! task = Some t →
  Q (Returned tt)
    (set_trace (w_trace w ++ [EvStatus task (m_status t) status])
       (set_heap (<[task := TaskObj.setStatus status t]> (w_heap w)) w)) →
  post (Task_setStatus task status) w Q.
Proof.
  intros Ht HQ. unfold Task_setStatus.
  apply post_bind, (post_deref _ t); [done|].
  apply post_bind, (post_update _ _ t); [done|].
  by apply post_emit.
Qed.

Lemma post_Task_setErrorMessage task message t w Q :
  w_heap w !! task = Some t →
  Q (Returned tt)
    (set_heap (<[task := TaskObj.setErrorMessage message t]> (w_heap w)) w) →
  post (Task_setErrorMessage task message) w Q.
Proof. intros Ht HQ. by apply (post_update _ _ t). Qed.

Lemma post_Task_setResult task result t w Q :
  w_heap w !! task = Some t →
  Q (Returned tt)
    (set_heap (<[task := TaskObj.setResult result t]> (w_heap w)) w) →
  post (Task_setResult task result) w Q.
Proof. intros Ht HQ. by apply (post_update _ _ t). Qed.

Lemma post_Task_setCallback task callback userData t w Q :
  w_heap w !! task = Some t →
  Q (Returned tt)
    (set_heap (<[task := TaskObj.setCallback callback userData t]>
                 (w_heap w)) w) →
  post (Task_setCallback task callback userData) w Q.
Proof. intros Ht HQ. by apply (post_update _ _ t). Qed.

Lemma post_Task_getStatus task t w Q :
  w_heap w !! task = Some t →
  Q (Returned (m_status t)) w → post (Task_getStatus task) w Q.
Proof.
  intros Ht HQ. unfold Task_getStatus.
  apply post_bind, (post_deref _ t); [done|]. by apply post_ret.
Qed.

Lemma post_Task_getResult task t w Q :
  w_heap w !! task = Some t →
  Q (Returned (m_result t)) w → post (Task_getResult task) w Q.
Proof.
  intros Ht HQ. unfold Task_getResult.
  apply post_bind, (post_deref _ t); [done|]. by apply post_ret.
Qed.

Lemma post_Task_getErrorMessage task t w Q :
  w_heap w !! task = Some t →
  Q (Returned (m_errorMessage t)) w → post (Task_getErrorMessage task) w Q.
Proof.
  intros Ht HQ. unfold Task_getErrorMessage.
  apply post_bind, (post_deref _ t); [done|]. by apply post_ret.
Qed.

Lemma post_Task_getHandle task t w Q :
  w_heap w !! task = Some t →
  Q (Returned (m_handle t)) w → post (Task_getHandle task) w Q.
Proof.
  intros Ht HQ. unfold Task_getHandle.
  apply post_bind, (post_deref _ t); [done|]. by apply post_ret.
Qed.

Lemma post_Task_executeCallback task success t w Q :
  w_heap w !! task = Some t →
  Q (Returned tt)
    (if N.eqb (m_callback t) nullptr then w
     else set_trace
            (w_trace w ++ [EvCallback (m_callback t) (m_handle t) success
                                      (m_userData t)]) w) →
  post (Task_executeCallback task success) w Q.
Proof.
  intros Ht HQ. unfold Task_executeCallback.
  apply post_bind, (post_deref _ t); [done|].
  destruct (N.eqb (m_callback t) nullptr); [by apply post_ret|].
  by apply post_emit.
Qed.

End TaskRules.

(** The side condition of the Task rules: the task is in the heap. *)
Ltac mlookup :=
  cbn;
  repeat match goal with
         | H : w_heap ?w = _ |- context [w_heap ?w] => rewrite H
         end;
  first [eassumption | apply lookup_insert_eq | by simplify_map_eq].

Ltac mtask :=
  lazymatch goal with
  | |- post (Task_setStatus _ _) _ _ =>
      eapply post_Task_setStatus; [mlookup|]
  | |- post (Task_setErrorMessage _ _) _ _ =>
      eapply post_Task_setErrorMessage; [mlookup|]
  | |- post (Task_setResult _ _) _ _ =>
      eapply post_Task_setResult; [mlookup|]
  | |- post (Task_setCallback _ _ _) _ _ =>
      eapply post_Task_setCallback; [mlookup|]
  | |- post (Task_getStatus _) _ _ =>
      eapply post_Task_getStatus; [mlookup|]
  | |- post (Task_getResult _) _ _ =>
      eapply post_Task_getResult; [mlookup|]
  | |- post (Task_getErrorMessage _) _ _ =>
      eapply post_Task_getErrorMessage; [mlookup|]
  | |- post (Task_getHandle _) _ _ =>
      eapply post_Task_getHandle; [mlookup|]
  | |- post (Task_executeCallback _ _) _ _ =>
      eapply post_Task_executeCallback; [mlookup|]
  | |- post (deref _) _ _ => eapply post_deref; [mlookup|]
  end; cbn [negb andb orb].


(** Symbolic execution as far as the rules go. *)
Ltac msteps := repeat first [mtask | mstep].
(* ===================================================================== *)
(** ** What the methods do, as postconditions                             *)
(* ===================================================================== *)

Section RenderSpec.
Context {X : Externals}.
Implicit Types w : World X.

Lemma append_nonempty (s1 s2 : string) :
  s1 ≠ EmptyString → s1 +:+ s2 ≠ EmptyString.
Proof. destruct s1; [congruence | discriminate]. Qed.

Lemma Impl_render_spec task t w :
  w_heap w !! task = Some t →
  post (Impl_render task) w (render_frame task t w).
Proof.
  intros Ht. unfold Impl_render, Impl_render_body.
  repeat first
    [ mstep | mtask
    | match goal with
      | |- post (match ?x with _ => _ end) _ _ => destruct x
      | |- match ?x with _ => _ end => destruct x
      end ].
  all: eexists _, _; split_and!; try reflexivity; constructor;
    first [done | by apply append_nonempty].
Qed.

Lemma RenderEngine_render_spec task t w :
  w_heap w !! task = Some t →
  post (RenderEngine_render task) w (λ r w', ∃ b t',
    r = Returned b ∧ render_outcome t b t' ∧
    w_heap w' = <[task := t']> (w_heap w) ∧
    w_ctx w' = w_ctx w ∧ w_joining w' = w_joining w ∧
    w_trace w' = w_trace w ++ [EvRender task]).
Proof.
  intros Ht. unfold RenderEngine_render. mstep. mstep.
  eapply post_mono; [by apply (Impl_render_spec task t)|].
  intros r w' (b & t' & -> & ? & ? & ? & ? & ?). by exists b, t'.
Qed.
End RenderSpec.

Section RenderSyncSpec.
Context {X : Externals}.
Implicit Types w : World X.

Lemma render_outcome_status t b t' :
  render_outcome t b t' → m_status t' = m_status t.
Proof. by destruct 1. Qed.

(** [renderSync] on an initialized library and a live task: the status
    goes to RUNNING, [render] runs once, the status goes to COMPLETED or
    FAILED after its answer, and only then the output file is tried. *)
Lemma renderSync_spec task t outputPath w :
  m_initialized (w_ctx w) = true →
  task ≠ nullptr →
  w_heap w !! task = Some t →
  post (renderSync task outputPath) w (λ r w', ∃ ok b t1 evs,
    r = Returned ok ∧
    render_outcome (TaskObj.setStatus RUNNING t) b t1 ∧
    w_heap w' = <[task := TaskObj.setStatus (terminal_status b) t1]> (w_heap w) ∧
    w_trace w' = w_trace w
                 ++ [EvStatus task (m_status t) RUNNING; EvRender task;
                     EvStatus task RUNNING (terminal_status b)] ++ evs ∧
    Forall is_file_event evs ∧
    (ok = true → b = true) ∧
    (b = true → outputPath = None → ok = true) ∧
    same_but_lastError (w_ctx w) (w_ctx w') ∧
    w_joining w' = w_joining w).
Proof.
  intros Hinit Hnull Ht. unfold renderSync.
  mstep. mstep. rewrite Hinit. cbn.
  apply N.eqb_neq in Hnull. rewrite Hnull.
  mstep. mstep. mtask. mstep.
  eapply post_mono; [apply RenderEngine_render_spec; mlookup|].
  intros r w1 (b & t1 & -> & Hout & Hheap & Hctx & Hj & Htr). cbn in *.
  pose proof (render_outcome_status _ _ _ Hout) as Hst. cbn in Hst.
  (* every way out of the function, in terms of the state [w2] it leaves *)
  assert (∀ ok evs (w2 : World X),
            Forall is_file_event evs → (ok = true → b = true) →
            (b = true → outputPath = None → ok = true) →
            w_heap w2
            = <[task := TaskObj.setStatus (terminal_status b) t1]> (w_heap w1) →
            w_trace w2
            = w_trace w1
                ++ EvStatus task (m_status t1) (terminal_status b) :: evs →
            same_but_lastError (w_ctx w1) (w_ctx w2) →
            w_joining w2 = w_joining w1 →
            ∃ ok' b' t1' evs',
              Returned ok = Returned ok' ∧
              render_outcome (TaskObj.setStatus RUNNING t) b' t1' ∧
              w_heap w2
              = <[task := TaskObj.setStatus (terminal_status b') t1']> (w_heap w) ∧
              w_trace w2
              = w_trace w
                 ++ [EvStatus task (m_status t) RUNNING; EvRender task;
                     EvStatus task RUNNING (terminal_status b')] ++ evs' ∧
              Forall is_file_event evs' ∧
              (ok' = true → b' = true) ∧
              (b' = true → outputPath = None → ok' = true) ∧
              same_but_lastError (w_ctx w) (w_ctx w2) ∧
              w_joining w2 = w_joining w) as Hend.
  { intros ok evs w2 Hevs Hok Hnone Hh2 Ht2 Hc2 Hj2.
    exists ok, b, t1, evs.
    rewrite Hh2, Ht2, Hheap, Htr, Hst, Hj2, Hj, !insert_insert_eq.
    rewrite <- !app_assoc, <- Hctx. done. }
  destruct b; cbn in *.
  - mstep. mtask.
    destruct outputPath as [outputPath|]; cbn.
    + mstep. mtask. mstep.
      * mstep. mstep. mstep. mstep. mstep.
        -- mstep. mstep. mstep.
           apply (Hend false [EvFileOpen outputPath a]); cbn;
             rewrite <- ?app_assoc; by repeat constructor.
        -- mstep. mstep. mstep. mstep. mstep.
           ++ mstep. mstep. mstep.
              apply (Hend false [EvFileOpen outputPath a;
                                 EvFileWrite outputPath (m_result t1) a0]);
                cbn; rewrite <- ?app_assoc; by repeat constructor.
           ++ mstep.
              apply (Hend true [EvFileOpen outputPath a;
                                EvFileWrite outputPath (m_result t1) a0]);
                cbn; rewrite <- ?app_assoc; by repeat constructor.
      * mstep. apply (Hend true []); cbn; by repeat constructor.
    + mstep. apply (Hend true []); cbn; by repeat constructor.
  - mstep. mtask. mstep. mtask. mstep. mstep. mstep.
    apply (Hend false []); cbn; by repeat constructor.
Qed.

End RenderSyncSpec.

Section CreateSpec.
Context {X : Externals}.
Implicit Types w : World X.

(** [createTask] on an initialized library, given content and options:
    it returns a new non-null pointer, registered under itself, to the
    object the constructor builds. *)
Lemma createTask_spec html css options w :
  m_initialized (w_ctx w) = true →
  ∃ a e,
    ext_alloc X (w_env w) = (a, e) ∧
    createTask (Some html) css (Some options) w
    = (Returned (Npos a),
       set_ctx (ctx_set_tasksMap (<[Npos a := Npos a]> (m_tasksMap (w_ctx w)))
                                 (w_ctx w))
         (set_heap (<[Npos a := TaskObj.new (Npos a) html
                                  (default EmptyString css) options]>
                      (w_heap w))
            (set_env e w))).
Proof.
  intros Hinit. destruct (ext_alloc X (w_env w)) as [a e] eqn:Ha.
  exists a, e. split; [done|].
  apply post_run. unfold createTask, make_shared_Task.
  mstep. mstep. rewrite Hinit. cbn [negb].
  msteps. rewrite Ha in *. by simplify_eq.
Qed.

(** Passing no options and passing the defaults is the same call. *)
Lemma CreateTask_null_options_eq html css w :
  Text2Image_CreateTask html css None w
  = Text2Image_CreateTask html css (Some Text2Image_GetDefaultOptions) w.
Proof. by destruct html. Qed.

End CreateSpec.

Section WorkerSpec.
Context {X : Externals}.
Implicit Types w : World X.

(** The [try] block of [worker] on a live task: RUNNING, the sleep,
    COMPLETED, the callback with [true]; no handler is entered and the
    render engine is not called. *)
Lemma worker_run_task_spec task t w :
  w_heap w !! task = Some t →
  post (worker_run_task task) w (λ r w',
    r = Returned tt ∧
    w_heap w' = <[task := TaskObj.setStatus COMPLETED t]> (w_heap w) ∧
    w_trace w' = w_trace w
                 ++ [EvStatus task (m_status t) RUNNING; EvSleep 100;
                     EvStatus task RUNNING COMPLETED]
                 ++ callback_events t true ∧
    w_ctx w' = w_ctx w ∧ w_joining w' = w_joining w ∧ w_env w' = w_env w).
Proof.
  intros Ht. unfold worker_run_task.
  mstep. mstep. mtask. mstep. mstep. mstep. mtask. mtask.
  cbn. rewrite insert_insert_eq. unfold callback_events.
  destruct (m_callback t =? nullptr)%N; cbn;
    rewrite <- ?app_assoc; cbn; by rewrite ?app_nil_r.
Qed.

End WorkerSpec.

Section WellFormed.
Context {X : Externals}.
Implicit Types w : World X.

Lemma wf_new e : wf (World_new X e).
Proof.
  split; cbn.
  - intros h p. by rewrite lookup_empty.
  - intros p. by rewrite elem_of_nil.
  - intros p Hp. apply elem_of_replicate in Hp as [? _]. done.
Qed.

(** Well-formedness looks at the live addresses, the registry, the
    queue and the workers only. *)
Lemma wf_frame w w' :
  wf w →
  (∀ p, is_Some (w_heap w !! p) → is_Some (w_heap w' !! p)) →
  m_tasksMap (w_ctx w') = m_tasksMap (w_ctx w) →
  m_tasks (m_threadPool (w_ctx w')) = m_tasks (m_threadPool (w_ctx w)) →
  m_workers (m_threadPool (w_ctx w')) = m_workers (m_threadPool (w_ctx w)) →
  wf w'.
Proof.
  intros [Hr Hq Hw] Hheap Hreg Hqueue Hworkers.
  split; rewrite ?Hreg, ?Hqueue, ?Hworkers.
  - intros h p Hp. destruct (Hr h p Hp) as (? & ? & ?). auto.
  - intros p Hp. auto.
  - intros p Hp. auto.
Qed.

Lemma is_Some_insert (h : gmap N Task) p q t :
  is_Some (h !! q) → is_Some (<[p := t]> h !! q).
Proof. intros. apply lookup_insert_is_Some'. by right. Qed.

Lemma held_registry w h p :
  m_tasksMap (w_ctx w) !! h = Some p → held w p = true.
Proof.
  intros Hp. unfold held.
  rewrite (bool_decide_eq_true_2 (p ∈ map_img (m_tasksMap (w_ctx w)))); [done|].
  apply elem_of_map_img. by exists h.
Qed.

Lemma held_queue w p :
  p ∈ m_tasks (m_threadPool (w_ctx w)) → held w p = true.
Proof.
  intros Hp. unfold held.
  rewrite (bool_decide_eq_true_2 (p ∈ m_tasks (m_threadPool (w_ctx w))));
    [by rewrite orb_true_r|done].
Qed.

Lemma held_worker w p :
  WHolding p ∈ m_workers (m_threadPool (w_ctx w)) → held w p = true.
Proof.
  intros Hp. unfold held.
  rewrite (bool_decide_eq_true_2
             (WHolding p ∈ m_workers (m_threadPool (w_ctx w))));
    [by rewrite orb_true_r|done].
Qed.

(** Dropping the unheld objects of a state whose pointers are all live
    leaves them all live. *)
Lemma drop_unheld_wf w : wf w → wf (drop_unheld w).2.
Proof.
  intros [Hr Hq Hw]. split; cbn.
  - intros h p Hp. destruct (Hr h p Hp) as (? & ? & [t Ht]).
    split_and!; try done. exists t.
    apply map_lookup_filter_Some. split; [done|]. by eapply held_registry.
  - intros p Hp. destruct (Hq p Hp) as [t Ht]. exists t.
    apply map_lookup_filter_Some. split; [done|]. by apply held_queue.
  - intros p Hp. destruct (Hw p Hp) as [t Ht]. exists t.
    apply map_lookup_filter_Some. split; [done|]. by apply held_worker.
Qed.

End WellFormed.

(** The final step of most preservation proofs: the state differs from
    a well-formed one in parts well-formedness does not look at, or in
    the contents of live objects. *)
Ltac wf_by_frame H :=
  split; [by eexists|]; split; [|by cbn];
  apply (wf_frame _ _ H); cbn;
  [ intros ? ?;
    repeat match goal with
           | Hh : w_heap ?w = _ |- context [w_heap ?w] => rewrite Hh
           end;
    repeat apply is_Some_insert; done
  | congruence .. ].

(** The other preservation proofs: the call returned and kept the stop
    flag; what is left is the well-formedness of the state. *)
Ltac wf_intro :=
  split; [by eexists|]; split;
  [|cbn;
    repeat match goal with
           | Hc : w_ctx ?w = _ |- context [w_ctx ?w] => rewrite Hc
           | Hc : m_threadPool (w_ctx ?w) = _
             |- context [m_threadPool (w_ctx ?w)] => rewrite Hc
           end; by cbn].

Section Preservation.
Context {X : Externals}.
Implicit Types w : World X.

Lemma initialize_wf w : wf w → post initialize w (returns_wf w).
Proof.
  intros Hwf. unfold initialize. msteps; wf_by_frame Hwf.
Qed.

Lemma shutdown_signal_wf w : wf w → post shutdown_signal w (returns_wf w).
Proof.
  intros Hwf. unfold shutdown_signal, ThreadPool_shutdown_signal.
  msteps; wf_by_frame Hwf.
Qed.

Lemma shutdown_complete_wf w : wf w → post shutdown_complete w (returns_wf w).
Proof.
  intros Hwf. unfold shutdown_complete, ThreadPool_shutdown_join.
  msteps; try wf_by_frame Hwf.
  wf_intro.
  lazymatch goal with
  | |- wf (set_ctx _ (drop_unheld ?w0).2) =>
      apply (wf_frame (drop_unheld w0).2); [apply drop_unheld_wf|done..]
  end.
  destruct Hwf as [Hr Hq Hw]. split; cbn.
  - intros h p. by rewrite lookup_empty.
  - done.
  - intros p. by rewrite elem_of_nil.
Qed.

Lemma Text2Image_CreateTask_wf html css options w :
  wf w → post (Text2Image_CreateTask html css options) w (returns_wf w).
Proof.
  intros Hwf.
  destruct options as [o|];
    [|unfold post; rewrite CreateTask_null_options_eq;
      change (post (Text2Image_CreateTask html css
                      (Some Text2Image_GetDefaultOptions)) w (returns_wf w))].
  all: unfold Text2Image_CreateTask.
  all: destruct html as [html|]; [|msteps; wf_by_frame Hwf].
  all: cbn beta iota; mstep.
  all: destruct (m_initialized (w_ctx w)) eqn:Hinit;
    [|unfold createTask; mstep; mstep; rewrite Hinit; cbn [negb];
      msteps; wf_by_frame Hwf].
  all: lazymatch goal with
       | |- post (createTask _ ?c (Some ?o)) _ _ =>
           destruct (createTask_spec html c o w Hinit) as (a & e & _ & Heq)
       end.
  all: eapply post_eq; [exact Heq|]; cbn beta iota.
  all: mstep; mtask; cbn.
  all: wf_intro.
  all: destruct Hwf as [Hr Hq Hw]; split; cbn;
    [ intros h p [[<- <-]|[? Hp]]%lookup_insert_Some;
      [ split_and!; try done; rewrite lookup_insert_eq; by eexists
      | destruct (Hr h p Hp) as (? & ? & ?); split_and!; try done;
        by apply is_Some_insert ]
    | intros p Hp; by apply is_Some_insert, Hq
    | intros p Hp; by apply is_Some_insert, Hw ].
Qed.

Lemma renderSync_wf task outputPath w :
  wf w → (task = nullptr ∨ is_Some (w_heap w !! task)) →
  post (renderSync task outputPath) w (returns_wf w).
Proof.
  intros Hwf Htask.
  destruct (m_initialized (w_ctx w)) eqn:Hinit;
    [|unfold renderSync; mstep; mstep; rewrite Hinit; cbn [negb];
      msteps; wf_by_frame Hwf].
  destruct (decide (task = nullptr)) as [->|Hnull];
    [unfold renderSync; mstep; mstep; rewrite Hinit; cbn [negb];
     msteps; wf_by_frame Hwf|].
  destruct Htask as [?|[t Ht]]; [done|].
  eapply post_mono; [by apply (renderSync_spec task t)|].
  intros r w' (ok & b & t1 & evs & -> & _ & Hheap & _ & _ & _ & _ & Hctx & _).
  destruct Hctx as (_ & Hpool & Hreg & _).
  wf_intro.
  apply (wf_frame _ _ Hwf); [|congruence..].
  intros p Hp. rewrite Hheap. by apply is_Some_insert.
Qed.

Lemma getTask_spec handle w :
  getTask handle w
  = (Returned (default nullptr (m_tasksMap (w_ctx w) !! handle)), w).
Proof.
  unfold getTask, bind, gets. by destruct (m_tasksMap (w_ctx w) !! handle).
Qed.

Lemma getTask_live handle w :
  wf w →
  let task := default nullptr (m_tasksMap (w_ctx w) !! handle) in
  task = nullptr ∨ is_Some (w_heap w !! task).
Proof.
  intros Hwf. destruct (m_tasksMap (w_ctx w) !! handle) as [p|] eqn:Hp; cbn.
  - right. by apply (wf_registry w Hwf handle p).
  - by left.
Qed.

Lemma Text2Image_Render_wf task outputPath w :
  wf w → post (Text2Image_Render task outputPath) w (returns_wf w).
Proof.
  intros Hwf. unfold Text2Image_Render.
  mstep; [msteps; wf_by_frame Hwf|].
  mstep. eapply post_eq; [apply getTask_spec|]. cbn beta iota.
  mstep; [msteps; wf_by_frame Hwf|].
  by apply renderSync_wf, getTask_live.
Qed.

Lemma renderAsync_wf task outputPath callback userData w :
  wf w → (task = nullptr ∨ is_Some (w_heap w !! task)) →
  post (renderAsync task outputPath callback userData) w (returns_wf w).
Proof.
  intros Hwf Htask. unfold renderAsync, ThreadPool_enqueue.
  mstep. mstep. mstep; [msteps; wf_by_frame Hwf|].
  mstep; [msteps; wf_by_frame Hwf|].
  destruct Htask as [->|[t Ht]]; [done|].
  msteps; try wf_by_frame Hwf.
  wf_intro. destruct Hwf as [Hr Hq Hw]. split; cbn.
  - intros h p Hp. destruct (Hr h p Hp) as (? & ? & ?).
    split_and!; try done. by apply is_Some_insert.
  - intros p [Hp|Hp%list_elem_of_singleton]%elem_of_app.
    + by apply is_Some_insert, Hq.
    + subst p. rewrite lookup_insert_eq. by eexists.
  - intros p Hp. by apply is_Some_insert, Hw.
Qed.

Lemma Text2Image_RenderAsync_wf task outputPath callback userData w :
  wf w →
  post (Text2Image_RenderAsync task outputPath callback userData) w (returns_wf w).
Proof.
  intros Hwf. unfold Text2Image_RenderAsync.
  mstep; [msteps; wf_by_frame Hwf|].
  mstep. eapply post_eq; [apply getTask_spec|]. cbn beta iota.
  mstep; [msteps; wf_by_frame Hwf|].
  by apply renderAsync_wf, getTask_live.
Qed.

Lemma Text2Image_GetResult_wf task buffer size w :
  wf w → post (Text2Image_GetResult task buffer size) w (returns_wf w).
Proof.
  intros Hwf. unfold Text2Image_GetResult.
  mstep; [msteps; wf_by_frame Hwf|].
  mstep. eapply post_eq; [apply getTask_spec|]. cbn beta iota.
  mstep; [msteps; wf_by_frame Hwf|].
  destruct (getTask_live task w Hwf) as [Hnull|[t Ht]];
    [apply N.eqb_neq in Hif0; done|].
  msteps; wf_by_frame Hwf.
Qed.

Lemma Text2Image_FreeTask_wf task w :
  wf w → post (Text2Image_FreeTask task) w (returns_wf w).
Proof.
  intros Hwf. unfold Text2Image_FreeTask, freeTask.
  msteps; try wf_by_frame Hwf.
  wf_intro. apply drop_unheld_wf.
  destruct Hwf as [Hr Hq Hw]. split; cbn; [|done..].
  intros h p [_ Hp]%lookup_delete_Some. by apply Hr in Hp.
Qed.

Lemma Text2Image_GetLastError_wf w :
  wf w → post Text2Image_GetLastError w (returns_wf w).
Proof.
  intros Hwf. unfold Text2Image_GetLastError, getLastError.
  msteps; wf_by_frame Hwf.
Qed.

Lemma Text2Image_SetMaxThreads_wf numThreads w :
  wf w → post (Text2Image_SetMaxThreads numThreads) w (returns_wf w).
Proof.
  intros Hwf. unfold Text2Image_SetMaxThreads, ThreadPool_setMaxThreads.
  msteps; try wf_by_frame Hwf.
  wf_intro. destruct Hwf as [Hr Hq Hw]. split; cbn; [done..|].
  intros p [Hp|Hp]%elem_of_app; [by apply Hw|].
  by apply elem_of_replicate in Hp as [? _].
Qed.

(** [front()] is never called on an empty queue. *)
Lemma acquire_defined p : acquire p ≠ AUndefined.
Proof.
  unfold acquire, acquire_front, wait_predicate.
  destruct (m_stop p), (m_tasks p) as [|task q],
    (m_maxThreads p <=? m_activeThreads p)%Z,
    (m_maxThreads p <? Z.of_nat (length (m_workers p)))%Z; by cbn.
Qed.

(** What [acquire] takes is the front of the queue. *)
Lemma acquire_take p task :
  acquire p = ATake task → ∃ q, m_tasks p = task :: q.
Proof.
  unfold acquire, acquire_front.
  destruct (m_tasks p) as [|task' q]; repeat case_match; try done.
  all: intros [= ->]; by eexists.
Qed.

Lemma elem_of_list_insert_inv {A} (l : list A) i x y :
  x ∈ <[i := y]> l → x = y ∨ x ∈ l.
Proof.
  intros [j Hj]%list_elem_of_lookup.
  apply list_lookup_insert_Some in Hj as [(-> & -> & _)|[_ Hj]]; [by left|].
  right. apply list_elem_of_lookup. by exists j.
Qed.

Lemma worker_critical_section_wf i w :
  wf w → post (worker_critical_section i) w (returns_wf w).
Proof.
  intros Hwf. unfold worker_critical_section.
  mstep. mstep. mstep; [|wf_by_frame Hwf].
  mstep; try wf_by_frame Hwf.
  destruct (acquire (m_threadPool (w_ctx w))) eqn:Hacq; cbn beta iota.
  1, 3: msteps; wf_by_frame Hwf.
  - msteps. wf_intro.
    destruct Hwf as [Hr Hq Hw]. split; cbn; [done..|].
    intros p [?|Hp]%elem_of_list_insert_inv; [done|by apply Hw].
  - apply acquire_take in Hacq as [q Hq'].
    msteps. wf_intro.
    destruct Hwf as [Hr Hq Hw]. split; cbn; [done| |].
    + intros p Hp. apply Hq. rewrite Hq'. rewrite Hq' in Hp. cbn in Hp.
      by apply elem_of_cons; right.
    + intros p [[= ->]|Hp]%elem_of_list_insert_inv; [|by apply Hw].
      apply Hq. rewrite Hq'. by apply elem_of_cons; left.
  - by apply acquire_defined in Hacq.
Qed.

Lemma worker_execute_wf i w :
  wf w → post (worker_execute i) w (returns_wf w).
Proof.
  intros Hwf. unfold worker_execute.
  mstep. mstep. mstep; [|wf_by_frame Hwf].
  mstep; try wf_by_frame Hwf.
  destruct (wf_workers w Hwf task) as [t Ht].
  { apply list_elem_of_lookup. by exists i. }
  mstep. eapply post_mono; [by apply (worker_run_task_spec task t)|].
  intros r w1 (-> & Hheap & _ & Hctx & _ & _). cbn beta iota.
  msteps. wf_intro. apply drop_unheld_wf.
  destruct Hwf as [Hr Hq Hw]. split; cbn; rewrite ?Hctx, ?Hheap.
  - intros h p Hp. destruct (Hr h p Hp) as (? & ? & ?).
    split_and!; try done. by apply is_Some_insert.
  - intros p Hp. by apply is_Some_insert, Hq.
  - intros p [?|Hp]%elem_of_list_insert_inv; [done|].
    by apply is_Some_insert, Hw.
Qed.

Lemma run_op_wf op w : wf w → post (run_op op) w (returns_wf w).
Proof.
  intros Hwf. destruct op; cbn [run_op].
  all: try (mstep;
            eapply post_mono;
              [first [ by apply initialize_wf
                     | by apply shutdown_signal_wf
                     | by apply shutdown_complete_wf
                     | by apply Text2Image_CreateTask_wf
                     | by apply Text2Image_Render_wf
                     | by apply Text2Image_RenderAsync_wf
                     | by apply Text2Image_GetResult_wf
                     | by apply Text2Image_GetLastError_wf ]
              | intros r w' ([a ->] & Hwf' & Hstop); mstep;
                split_and!; [by eexists|done|done]]).
  - by apply Text2Image_FreeTask_wf.
  - by apply Text2Image_SetMaxThreads_wf.
  - by apply worker_critical_section_wf.
  - by apply worker_execute_wf.
Qed.

Lemma run_ops_wf ops w : wf w → post (run_ops ops) w (returns_wf w).
Proof.
  revert w. induction ops as [|op ops IH]; intros w Hwf; cbn [run_ops].
  - mstep. split_and!; [by eexists|done|done].
  - mstep. eapply post_mono; [by apply run_op_wf|].
    intros r w' ([[] ->] & Hwf' & Hstop).
    eapply post_mono; [by apply IH|].
    intros r w'' (? & ? & ?). split_and!; auto.
Qed.

(** Every state of a run that starts when the singleton has just been
    built is well-formed, and the run meets no undefined behaviour and
    lets no exception escape. *)
Lemma exec_wf e ops :
  wf (exec ops (World_new X e)) ∧
  (run_ops ops (World_new X e)).1 = Returned tt.
Proof.
  destruct (run_ops_wf ops (World_new X e) (wf_new e)) as ([[] Hr] & Hwf & _).
  by split.
Qed.

Lemma exec_wf_from ops w : wf w → wf (exec ops w).
Proof. intros Hwf. by destruct (run_ops_wf ops w Hwf) as (_ & ? & _). Qed.

(** Once set, the stop flag of the pool stays set. *)
Lemma exec_stop ops w :
  wf w →
  m_stop (m_threadPool (w_ctx w)) = true →
  m_stop (m_threadPool (w_ctx (exec ops w))) = true.
Proof. intros Hwf. by destruct (run_ops_wf ops w Hwf) as (_ & _ & ?). Qed.

End Preservation.




Section Quiet.
Context {X : Externals}.
Implicit Types w : World X.











End Quiet.

Section Effects.
Context {X : Externals}.
Implicit Types w : World X.










End Effects.
(* ===================================================================== *)
(** ** The claims                                                         *)
(* ===================================================================== *)

Section Claims.
Context {X : Externals}.
Implicit Types w : World X.

(** C7.  Every task freshly constructed by [createTask], whatever the
    content, the style and the options, has status PENDING and an empty
    result buffer: on an initialized library the call returns a live,
    registered task that is exactly the object built by the constructor
    [Task::Task], whose status is PENDING and whose result (and error
    message) is empty. *)
Theorem createTask_fresh_task_is_pending html css options w :
  m_initialized (w_ctx w) = true →
  ∃ task t w',
    createTask (Some html) css (Some options) w = (Returned task, w') ∧
    task ≠ nullptr ∧
    m_tasksMap (w_ctx w') !! task = Some task ∧
    w_heap w' !! task = Some t ∧
    t = TaskObj.new task html (default EmptyString css) options ∧
    m_status t = PENDING ∧
    m_result t = [] ∧
    m_errorMessage t = EmptyString.
Proof.
  intros Hinit.
  destruct (createTask_spec html css options w Hinit) as (a & e & _ & Heq).
  eexists (Npos a), _, _. split; [exact Heq|].
  cbn. rewrite !lookup_insert_eq. by split_and!.
Qed.

(** C9.  A call of [Text2Image_CreateTask] with a null options pointer
    is the same call as one that passes the value of
    [Text2Image_GetDefaultOptions], and the task it creates carries
    exactly those options: auto resolution, PNG, quality 90, custom
    dimensions 0, solid opaque white background, border radius 0,
    JavaScript disabled, timeout 30000. *)
Theorem CreateTask_null_options_are_defaults html css w :
  m_initialized (w_ctx w) = true →
  ∃ handle t w',
    Text2Image_CreateTask (Some html) css None w = (Returned handle, w') ∧
    Text2Image_CreateTask (Some html) css (Some Text2Image_GetDefaultOptions) w
    = (Returned handle, w') ∧
    handle ≠ nullptr ∧
    w_heap w' !! handle = Some t ∧
    m_options t = Text2Image_GetDefaultOptions ∧
    resolution (m_options t) = TEXT2IMAGE_RESOLUTION_AUTO ∧
    format (m_options t) = TEXT2IMAGE_FORMAT_PNG ∧
    quality (m_options t) = 90%Z ∧
    customWidth (m_options t) = 0%Z ∧
    customHeight (m_options t) = 0%Z ∧
    backgroundType (m_options t) = TEXT2IMAGE_BACKGROUND_SOLID ∧
    backgroundColor (m_options t) = 0xFFFFFFFF%Z ∧
    backgroundImage (m_options t) = None ∧
    borderRadius (m_options t) = 0%Z ∧
    enableJavaScript (m_options t) = false ∧
    timeout (m_options t) = 30000%Z.
Proof.
  intros Hinit.
  destruct (createTask_spec html (Some (default EmptyString css))
              Text2Image_GetDefaultOptions w Hinit) as (a & e & _ & Heq).
  assert (Text2Image_CreateTask (Some html) css
            (Some Text2Image_GetDefaultOptions) w
          = (Returned (Npos a), (createTask (Some html)
               (Some (default EmptyString css))
               (Some Text2Image_GetDefaultOptions) w).2)) as Hcall.
  { unfold Text2Image_CreateTask, bind. rewrite Heq. cbn.
    unfold Task_getHandle, bind, deref, ret. cbn.
    by rewrite lookup_insert_eq. }
  eexists (Npos a), _, _. split; [|split; [exact Hcall|]].
  { by rewrite CreateTask_null_options_eq. }
  rewrite Heq. cbn. rewrite lookup_insert_eq. by split_and!.
Qed.

(** C10.  On a task with no callback registered (the constructor leaves
    the pointer null, and so does registering a null callback),
    [executeCallback] with any success flag returns normally, calls
    nothing and leaves the whole state, the task included, as it was;
    and the worker that runs such a task finishes without a callback
    event. *)
Theorem executeCallback_null_is_noop task t success w :
  w_heap w !! task = Some t →
  m_callback t = nullptr →
  Task_executeCallback task success w = (Returned tt, w) ∧
  (worker_run_task task w).1 = Returned tt ∧
  w_trace (worker_run_task task w).2
  = w_trace w ++ [EvStatus task (m_status t) RUNNING; EvSleep 100;
                  EvStatus task RUNNING COMPLETED] ∧
  (∀ this html css options,
     m_callback (TaskObj.new this html css options) = nullptr) ∧
  (∀ userData t0, m_callback (TaskObj.setCallback nullptr userData t0) = nullptr).
Proof.
  intros Ht Hcb. split_and!; try done.
  - unfold Task_executeCallback, bind, deref, ret. by rewrite Ht, Hcb.
  - by destruct (worker_run_task_spec task t w Ht) as (-> & _).
  - destruct (worker_run_task_spec task t w Ht) as (_ & _ & -> & _).
    unfold callback_events. by rewrite Hcb.
Qed.

(** The two ways [Text2Image_GetResult] ends in a well-formed state. *)
Lemma GetResult_cases handle buffer size w :
  wf w →
  post (Text2Image_GetResult handle buffer size) w (λ r w',
    (result_ready w handle buffer size ∧
     ∃ t, resolves_to w handle t ∧
          r = Returned (true, Some (m_result t,
                                    Z.of_nat (length (m_result t)))) ∧
          w' = w)
    ∨ (¬ result_ready w handle buffer size ∧
       r = Returned (false, None) ∧ w_heap w' = w_heap w)).
Proof.
  intros Hwf. unfold Text2Image_GetResult.
  mstep.
  { msteps. right. split; [|done].
    intros (Hb & Hs & t & (p & Hp & _) & _).
    destruct (wf_registry w Hwf _ _ Hp) as (Hh & _).
    apply N.eqb_neq in Hh, Hb, Hs. by rewrite Hh, Hb, Hs in Hif. }
  apply orb_false_elim in Hif as [[Hh Hb]%orb_false_elim Hs].
  apply N.eqb_neq in Hh, Hb, Hs.
  mstep. eapply post_eq; [apply getTask_spec|]. cbn beta iota.
  destruct (m_tasksMap (w_ctx w) !! handle) as [p|] eqn:Hp; cbn [default].
  2:{ msteps. right. split; [|done].
      intros (_ & _ & t & (p & ? & _) & _). congruence. }
  destruct (wf_registry w Hwf _ _ Hp) as (_ & Hpnull & [t Ht]).
  assert (∀ t', resolves_to w handle t' → t' = t) as Huniq.
  { intros t' (p' & Hp' & Ht'). congruence. }
  mstep; [by apply N.eqb_eq in Hif|].
  mstep. mtask. mstep.
  { msteps. right. split; [|done].
    intros (_ & _ & t' & ->%Huniq & Hst & _).
    by rewrite Hst, bool_decide_eq_true_2 in Hif0. }
  apply negb_false_iff, bool_decide_eq_true in Hif0.
  mstep. mtask. mstep.
  { msteps. right. split; [|done].
    intros (_ & _ & t' & ->%Huniq & _ & Hne).
    by destruct (m_result t). }
  mstep. left. split.
  - split_and!; try done. exists t. split_and!; try done.
    + by exists p.
    + by destruct (m_result t).
  - exists t. split_and!; try done. by exists p.
Qed.

(** C8.  In a well-formed state (every state of a run is one),
    [Text2Image_GetResult] succeeds if and only if the out-parameters
    are non-null and the handle resolves to a live task whose status is
    COMPLETED and whose result buffer is non-empty.  On success it
    hands out a copy of the result bytes with their length and leaves
    the whole state, the stored result included, as it was; in every
    other case it returns false, hands out nothing and leaves the heap
    as it was. *)
Theorem GetResult_succeeds_iff_completed_with_result handle buffer size w :
  wf w →
  (succeeded (Text2Image_GetResult handle buffer size w).1
   ↔ result_ready w handle buffer size) ∧
  (∀ t, resolves_to w handle t → result_ready w handle buffer size →
        Text2Image_GetResult handle buffer size w
        = (Returned (true, Some (m_result t, Z.of_nat (length (m_result t)))),
           w)) ∧
  (¬ result_ready w handle buffer size →
   (Text2Image_GetResult handle buffer size w).1 = Returned (false, None) ∧
   w_heap (Text2Image_GetResult handle buffer size w).2 = w_heap w).
Proof.
  intros Hwf. pose proof (GetResult_cases handle buffer size w Hwf) as H.
  unfold post in H.
  destruct (Text2Image_GetResult handle buffer size w) as [r w'].
  cbn [fst snd] in *.
  destruct H as [(Hready & t & Hres & -> & ->)|(Hno & -> & Hheap)].
  - split_and!; [|by intros t' (p' & Hp' & Ht'); destruct Hres as (p & Hp & Ht);
                   assert (t' = t) as -> by congruence|done].
    split; [done|]. intros _. by eexists.
  - split_and!; [|done..]. split; [by intros [out [=]]|done].
Qed.

Lemma ThreadPool_shutdown_signal_wf w :
  wf w → wf (ThreadPool_shutdown_signal w).2.
Proof. intros Hwf. by apply (wf_frame w). Qed.

(** On a stopped pool [enqueue] throws and changes nothing. *)
Lemma enqueue_stopped task w :
  m_stop (m_threadPool (w_ctx w)) = true →
  ThreadPool_enqueue task w
  = (Thrown (StdException "enqueue on stopped ThreadPool"), w).
Proof.
  intros Hstop. apply post_run. unfold ThreadPool_enqueue.
  mstep. mstep. by rewrite Hstop.
Qed.

(** On a running pool [enqueue] appends to the queue and notifies one
    waiting worker. *)
Lemma enqueue_running task w :
  m_stop (m_threadPool (w_ctx w)) = false →
  ThreadPool_enqueue task w
  = (Returned tt,
     set_trace (w_trace w ++ [EvNotifyOne])
       (set_ctx (ctx_set_threadPool
                   (pool_set_tasks (m_tasks (m_threadPool (w_ctx w)) ++ [task])
                                   (m_threadPool (w_ctx w)))
                   (w_ctx w)) w)).
Proof.
  intros Hstop. apply post_run. unfold ThreadPool_enqueue.
  mstep. mstep. rewrite Hstop. by msteps.
Qed.

(** On a stopped pool a submission through the C ABI is refused: the
    call returns false, the queue is as before and the last-error slot
    says why. *)
Lemma RenderAsync_stopped handle outputPath callback userData w :
  wf w →
  m_stop (m_threadPool (w_ctx w)) = true →
  post (Text2Image_RenderAsync handle outputPath callback userData) w
    (λ r w',
       r = Returned false ∧
       m_tasks (m_threadPool (w_ctx w')) = m_tasks (m_threadPool (w_ctx w)) ∧
       str_empty (m_lastError (w_ctx w')) = false ∧
       (m_initialized (w_ctx w) = true →
        is_Some (m_tasksMap (w_ctx w) !! handle) →
        m_lastError (w_ctx w')
        = "Exception during async rendering setup: enqueue on stopped ThreadPool")).
Proof.
  intros Hwf Hstop. unfold Text2Image_RenderAsync.
  mstep.
  { msteps. split_and!; try done. intros _ [p Hp].
    apply N.eqb_eq in Hif as ->.
    by destruct (wf_registry w Hwf _ _ Hp) as (? & _). }
  mstep. eapply post_eq; [apply getTask_spec|]. cbn beta iota.
  destruct (m_tasksMap (w_ctx w) !! handle) as [p|] eqn:Hp; cbn [default id].
  2:{ msteps. by split_and!. }
  destruct (wf_registry w Hwf _ _ Hp) as (_ & Hpnull & [t Ht]).
  apply N.eqb_neq in Hpnull. rewrite Hpnull.
  unfold renderAsync. mstep. mstep.
  mstep; [msteps; split_and!; try done; intros Hinit; by rewrite Hinit in Hif0|].
  rewrite Hpnull. mstep. mstep. mtask. mstep.
  eapply post_eq; [by apply enqueue_stopped|]. cbn beta iota.
  msteps. by split_and!.
Qed.

(** C3.  In every state reached after the pool's shutdown has set the
    stop flag, whatever ran in between, [enqueue] fails with the
    exception "enqueue on stopped ThreadPool" and changes nothing, and a
    submission through [Text2Image_RenderAsync] returns false with the
    reason left in the last-error slot and the queue unchanged: the work
    is refused, not dropped.  Before shutdown (stop flag clear)
    [enqueue] appends the task at the back of the FIFO queue and
    notifies one worker. *)
Theorem enqueue_after_shutdown_is_rejected
    ops task handle outputPath callback userData w :
  wf w →
  let stopped := exec ops (ThreadPool_shutdown_signal w).2 in
  ThreadPool_enqueue task stopped
  = (Thrown (StdException "enqueue on stopped ThreadPool"), stopped) ∧
  (∃ w',
     Text2Image_RenderAsync handle outputPath callback userData stopped
     = (Returned false, w') ∧
     m_tasks (m_threadPool (w_ctx w'))
     = m_tasks (m_threadPool (w_ctx stopped)) ∧
     str_empty (m_lastError (w_ctx w')) = false ∧
     (m_initialized (w_ctx stopped) = true →
      is_Some (m_tasksMap (w_ctx stopped) !! handle) →
      m_lastError (w_ctx w')
      = "Exception during async rendering setup: enqueue on stopped ThreadPool")) ∧
  (m_stop (m_threadPool (w_ctx w)) = false →
   ∃ w',
     ThreadPool_enqueue task w = (Returned tt, w') ∧
     m_tasks (m_threadPool (w_ctx w'))
     = m_tasks (m_threadPool (w_ctx w)) ++ [task] ∧
     w_trace w' = w_trace w ++ [EvNotifyOne] ∧
     w_heap w' = w_heap w).
Proof.
  intros Hwf stopped.
  assert (wf stopped) as Hwf'
    by (by apply exec_wf_from, ThreadPool_shutdown_signal_wf).
  assert (m_stop (m_threadPool (w_ctx stopped)) = true) as Hstop.
  { apply exec_stop; [by apply ThreadPool_shutdown_signal_wf|done]. }
  split_and!.
  - by apply enqueue_stopped.
  - pose proof (RenderAsync_stopped handle outputPath callback userData
                  stopped Hwf' Hstop) as H.
    unfold post in H.
    destruct (Text2Image_RenderAsync _ _ _ _ stopped) as [r w'].
    cbn [fst snd] in H. destruct H as (-> & ? & ? & ?). by exists w'.
  - intros Hrun. eexists. split; [by apply enqueue_running|done].
Qed.

(** Whatever happens to the output file, a [renderSync] that leaves the
    task COMPLETED has not touched its error message: [renderSync]
    reports the failures of the file through the last-error slot. *)
Lemma renderSync_completed_keeps_error_message task t outputPath w :
  m_initialized (w_ctx w) = true →
  task ≠ nullptr →
  w_heap w !! task = Some t →
  ∀ t', w_heap (renderSync task outputPath w).2 !! task = Some t' →
        m_status t' = COMPLETED →
        m_errorMessage t' = m_errorMessage t.
Proof.
  intros Hinit Hnull Ht t' Ht' Hst.
  destruct (renderSync_spec task t outputPath w Hinit Hnull Ht)
    as (ok & b & t1 & evs & _ & Hout & Hheap & _).
  rewrite Hheap, lookup_insert_eq in Ht'. injection Ht' as <-.
  destruct Hout; [done|discriminate Hst].
Qed.

(** The worker's execution of a task never enters the render engine. *)
Lemma worker_never_renders task t w :
  w_heap w !! task = Some t →
  ∀ p, EvRender p ∉ new_events w (worker_run_task task w).2.
Proof.
  intros Ht p. destruct (worker_run_task_spec task t w Ht) as (_ & _ & Htr & _).
  unfold new_events. rewrite Htr, drop_app_length. unfold callback_events.
  destruct (m_callback t =? nullptr)%N; cbn;
    repeat (apply not_elem_of_cons; split; [done|]); apply not_elem_of_nil.
Qed.


(** *** The task invariant and the order of the status stores, along runs *)

Lemma exec_cons op ops w :
  wf w → exec (op :: ops) w = exec ops (run_op op w).2.
Proof.
  intros Hwf. unfold exec. cbn [run_ops]. unfold bind.
  destruct (run_op_wf op w Hwf) as ([[] Hr] & _).
  destruct (run_op op w) as [r w']. cbn in Hr. by subst r.
Qed.














End Claims.

(* ===================================================================== *)
(** ** The claims the code does not meet, on concrete runs                *)
(* ===================================================================== *)

Module Runs.
Import Demo Scenarios.

Local Open Scope string_scope.

(** C1.  The worker does not follow the steps of [renderSync].  For a
    task whose render fails, the synchronous path calls the render
    engine and leaves the task FAILED with the engine's error message,
    and so would the lambda built by [renderAsync]; the worker that
    dequeues the task never calls the engine, marks the task COMPLETED
    with no result, and invokes the callback with success. *)
Theorem worker_skips_render_and_reports_success :
  outcome <$> task_after sync_run
  = Some (FAILED, "Failed to draw background", []) ∧
  new_events (start 1) (exec sync_run (start 1))
  = [EvStatus 1 PENDING RUNNING; EvRender 1; EvStatus 1 RUNNING FAILED] ∧
  outcome <$> task_after async_run = Some (COMPLETED, "", []) ∧
  new_events (start 1) (exec async_run (start 1))
  = [EvNotifyOne; EvStatus 1 PENDING RUNNING; EvSleep 100;
     EvStatus 1 RUNNING COMPLETED; EvCallback 7 1 true 9] ∧
  new_events (start 1)
    (renderTask 1 None (exec [OpInit; create_unrenderable;
                              OpRenderAsync 1 None 7 9] (start 1))).2
  = [EvNotifyOne; EvRender 1; EvStatus 1 PENDING FAILED;
     EvCallback 7 1 false 9].
Proof. by vm_compute. Qed.

(** C4.  When the render succeeds and the output file cannot be opened,
    [renderSync] does return false, but the reason goes to the
    last-error slot only: the task keeps status COMPLETED and an empty
    error message.  The lambda built by [renderAsync] does, on the same
    input, what the claim says: it marks the task FAILED and stores the
    message in the task. *)
Theorem renderSync_open_failure_leaves_task_error_empty :
  (Text2Image_Render 1 (Some "/no/such/dir/out.png")
     (exec [OpInit; create_plain] (start 1))).1
  = Returned false ∧
  outcome <$> task_after unwritable_run = Some (COMPLETED, "", png) ∧
  m_lastError (w_ctx (exec unwritable_run (start 1)))
  = "Failed to open output file: /no/such/dir/out.png" ∧
  outcome <$>
    w_heap (renderTask 1 (Some "/no/such/dir/out.png")
              (exec [OpInit; create_plain] (start 1))).2 !! 1%N
  = Some (FAILED, "Failed to open output file: /no/such/dir/out.png", png).
Proof. by vm_compute. Qed.




(** *** The general theorems at concrete states *)

Lemma createTask_fresh_task_is_pending_witness :
  m_initialized (w_ctx initialized_world) = true ∧
  ∃ task t w',
    createTask (Some "<p>hi</p>") (Some "p { color: red }")
      (Some (with_image "bg.png")) initialized_world
    = (Returned task, w') ∧
    task ≠ nullptr ∧
    m_tasksMap (w_ctx w') !! task = Some task ∧
    w_heap w' !! task = Some t ∧
    t = TaskObj.new task "<p>hi</p>" (default "" (Some "p { color: red }"))
          (with_image "bg.png") ∧
    m_status t = PENDING ∧
    m_result t = [] ∧
    m_errorMessage t = "".
Proof.
  split; [reflexivity|].
  apply (createTask_fresh_task_is_pending
           "<p>hi</p>" (Some "p { color: red }") (with_image "bg.png")
           initialized_world).
  reflexivity.
Defined.

Lemma CreateTask_null_options_are_defaults_witness :
  m_initialized (w_ctx initialized_world) = true ∧
  ∃ handle t w',
    Text2Image_CreateTask (Some "<p>hi</p>") None None initialized_world
    = (Returned handle, w') ∧
    Text2Image_CreateTask (Some "<p>hi</p>") None
      (Some Text2Image_GetDefaultOptions) initialized_world
    = (Returned handle, w') ∧
    handle ≠ nullptr ∧
    w_heap w' !! handle = Some t ∧
    m_options t = Text2Image_GetDefaultOptions ∧
    resolution (m_options t) = TEXT2IMAGE_RESOLUTION_AUTO ∧
    format (m_options t) = TEXT2IMAGE_FORMAT_PNG ∧
    quality (m_options t) = 90%Z ∧
    customWidth (m_options t) = 0%Z ∧
    customHeight (m_options t) = 0%Z ∧
    backgroundType (m_options t) = TEXT2IMAGE_BACKGROUND_SOLID ∧
    backgroundColor (m_options t) = 0xFFFFFFFF%Z ∧
    backgroundImage (m_options t) = None ∧
    borderRadius (m_options t) = 0%Z ∧
    enableJavaScript (m_options t) = false ∧
    timeout (m_options t) = 30000%Z.
Proof.
  split; [reflexivity|].
  apply (CreateTask_null_options_are_defaults "<p>hi</p>" None
           initialized_world).
  reflexivity.
Defined.

Lemma executeCallback_null_is_noop_witness :
  w_heap created_world !! 1%N = Some plain_task ∧
  m_callback plain_task = nullptr ∧
  Task_executeCallback 1 true created_world = (Returned tt, created_world) ∧
  (worker_run_task 1 created_world).1 = Returned tt ∧
  w_trace (worker_run_task 1 created_world).2
  = (w_trace created_world
     ++ [EvStatus 1 (m_status plain_task) RUNNING; EvSleep 100;
         EvStatus 1 RUNNING COMPLETED])%list.
Proof.
  split; [by vm_compute|]. split; [reflexivity|].
  destruct (executeCallback_null_is_noop 1 plain_task true created_world)
    as (H1 & H2 & H3 & _); [by vm_compute|reflexivity|].
  exact (conj H1 (conj H2 H3)).
Defined.

Lemma GetResult_succeeds_iff_completed_with_result_witness :
  wf rendered_world ∧
  result_ready rendered_world 1 100 200 ∧
  Text2Image_GetResult 1 100 200 rendered_world
  = (Returned (true, Some (png, 4%Z)), rendered_world) ∧
  wf created_world ∧
  ¬ succeeded (Text2Image_GetResult 1 100 200 created_world).1.
Proof.
  assert (wf rendered_world) as Hr by apply exec_wf.
  assert (wf created_world) as Hc by apply exec_wf.
  destruct (GetResult_succeeds_iff_completed_with_result
              1 100 200 rendered_world Hr) as (_ & Hcopy & _).
  destruct (GetResult_succeeds_iff_completed_with_result
              1 100 200 created_world Hc) as (Hiff & _ & _).
  assert (resolves_to rendered_world 1
            (TaskObj.setStatus COMPLETED (TaskObj.setResult png plain_task)))
    as Hres by (exists 1%N; split; by vm_compute).
  assert (result_ready rendered_world 1 100 200) as Hready.
  { split; [done|]. split; [done|]. eexists. split; [exact Hres|]. done. }
  split; [exact Hr|]. split; [exact Hready|].
  split; [exact (Hcopy _ Hres Hready)|]. split; [exact Hc|].
  intros (_ & _ & t & (p & Hp & Ht) & Hst & _)%Hiff.
  vm_compute in Hp. injection Hp as <-. vm_compute in Ht.
  injection Ht as <-. discriminate Hst.
Defined.

Lemma enqueue_after_shutdown_is_rejected_witness :
  wf created_world ∧
  m_stop (m_threadPool (w_ctx created_world)) = false ∧
  (∃ w',
     ThreadPool_enqueue 1 created_world = (Returned tt, w') ∧
     m_tasks (m_threadPool (w_ctx w')) = [1%N] ∧
     w_trace w' = (w_trace created_world ++ [EvNotifyOne])%list) ∧
  let stopped :=
    exec [OpSetMaxThreads 2; OpGetLastError]
         (ThreadPool_shutdown_signal created_world).2 in
  ThreadPool_enqueue 1 stopped
  = (Thrown (StdException "enqueue on stopped ThreadPool"), stopped) ∧
  ∃ w',
    Text2Image_RenderAsync 1 None 7 9 stopped = (Returned false, w') ∧
    m_lastError (w_ctx w')
    = "Exception during async rendering setup: enqueue on stopped ThreadPool".
Proof.
  assert (wf created_world) as Hc by apply exec_wf.
  destruct (enqueue_after_shutdown_is_rejected
              [OpSetMaxThreads 2; OpGetLastError] 1 1 None 7 9
              created_world Hc)
    as (H1 & (w' & H2 & _ & _ & H3) & H4).
  split; [exact Hc|]. split; [reflexivity|].
  split.
  { destruct (H4 eq_refl) as (w0 & Henq & Hq & Htr & _).
    exists w0. split; [exact Henq|]. split; [exact Hq|exact Htr]. }
  split; [exact H1|]. exists w'. split; [exact H2|].
  apply H3; [by vm_compute|]. exists 1%N. by vm_compute.
Defined.




End Runs.

(* ===================================================================== *)
(** ** Beyond the claims: what each operation does, and what runs keep    *)
(* ===================================================================== *)

Section SyncEnd.
Context {X : Externals}.
Implicit Types w : World X.

(** [renderSync] on an initialized library and a live task, with the
    file events and the last-error slot in full. *)
Lemma renderSync_full task t outputPath w :
  m_initialized (w_ctx w) = true →
  task ≠ nullptr →
  w_heap w !! task = Some t →
  post (renderSync task outputPath) w (λ r w', ∃ ok b t1 evs,
    r = Returned ok ∧
    render_outcome (TaskObj.setStatus RUNNING t) b t1 ∧
    sync_end outputPath t1 (w_ctx w) b ok evs (w_ctx w') ∧
    state_is w' (w_ctx w')
      (<[task := TaskObj.setStatus (terminal_status b) t1]> (w_heap w))
      (w_trace w
       ++ [EvStatus task (m_status t) RUNNING; EvRender task;
           EvStatus task RUNNING (terminal_status b)] ++ evs)
      (w_joining w)).
Proof.
  intros Hinit Hnull Ht. unfold renderSync.
  mstep. mstep. rewrite Hinit. cbn.
  apply N.eqb_neq in Hnull. rewrite Hnull.
  mstep. mstep. mtask. mstep.
  eapply post_mono; [apply RenderEngine_render_spec; mlookup|].
  intros r w1 (b & t1 & -> & Hout & Hheap & Hctx & Hj & Htr). cbn in *.
  pose proof (render_outcome_status _ _ _ Hout) as Hst. cbn in Hst.
  assert (∀ ok evs (w2 : World X),
            sync_end outputPath t1 (w_ctx w) b ok evs (w_ctx w2) →
            w_heap w2
            = <[task := TaskObj.setStatus (terminal_status b) t1]> (w_heap w1) →
            w_trace w2
            = w_trace w1
                ++ EvStatus task (m_status t1) (terminal_status b) :: evs →
            w_joining w2 = w_joining w1 →
            ∃ ok' b' t1' evs',
              Returned ok = Returned ok' ∧
              render_outcome (TaskObj.setStatus RUNNING t) b' t1' ∧
              sync_end outputPath t1' (w_ctx w) b' ok' evs' (w_ctx w2) ∧
              state_is w2 (w_ctx w2)
                (<[task := TaskObj.setStatus (terminal_status b') t1']>
                   (w_heap w))
                (w_trace w
                 ++ [EvStatus task (m_status t) RUNNING; EvRender task;
                     EvStatus task RUNNING (terminal_status b')] ++ evs')
                (w_joining w)) as Hend.
  { intros ok evs w2 Hsync Hh2 Ht2 Hj2.
    exists ok, b, t1, evs. unfold state_is.
    rewrite Hh2, Ht2, Hheap, Htr, Hst, Hj2, Hj, !insert_insert_eq.
    rewrite <- !app_assoc. done. }
  destruct b; cbn in *.
  - mstep. mtask.
    destruct outputPath as [outputPath|]; cbn.
    + mstep. mtask. mstep.
      * assert (m_result t1 ≠ []) as Hne
          by (intros Hr; cbn in Hif; by rewrite Hr in Hif).
        mstep. mstep. mstep. mstep. mstep.
        -- mstep. mstep. mstep. apply negb_true_iff in Hif0; subst.
           apply (Hend false [EvFileOpen outputPath false]); cbn;
             rewrite <- ?app_assoc, ?Hctx; try done.
           by eapply sync_open_failed.
        -- apply negb_false_iff in Hif0; subst.
           mstep. mstep. mstep. mstep. mstep.
           ++ mstep. mstep. mstep. apply negb_true_iff in Hif0; subst.
              apply (Hend false [EvFileOpen outputPath true;
                                 EvFileWrite outputPath (m_result t1) false]);
                cbn; rewrite <- ?app_assoc, ?Hctx; try done.
              by eapply sync_write_failed.
           ++ mstep. apply negb_false_iff in Hif0; subst.
              apply (Hend true [EvFileOpen outputPath true;
                                EvFileWrite outputPath (m_result t1) true]);
                cbn; rewrite <- ?app_assoc, ?Hctx; try done.
              by eapply sync_written.
      * mstep. apply negb_false_iff in Hif.
        apply (Hend true []); cbn; rewrite ?Hctx; try done.
        apply sync_no_file. right. cbn in Hif. by destruct (m_result t1).
    + mstep. apply (Hend true []); cbn; rewrite ?Hctx; try done.
      apply sync_no_file. by left.
  - mstep. mtask. mstep. mtask. mstep. mstep. mstep.
    apply (Hend false []); cbn; rewrite ?Hctx; try done.
    apply sync_render_failed.
Qed.

End SyncEnd.

(** The last step of the proofs below: the state reached, field by
    field. *)
Ltac state_leaf := unfold state_is; cbn; split_and!; reflexivity.

Ltac effect_leaf :=
  split; [by eexists|];
  first
    [ apply effect_none; state_leaf
    | eapply effect_error; [|state_leaf]; done ].

Section OpEffect.
Context {X : Externals}.
Implicit Types w : World X.

Lemma survivors_drop_unheld w :
  w_heap (drop_unheld w).2 = survivors (w_ctx w) (w_heap w).
Proof. reflexivity. Qed.

Lemma initialize_effect w : post initialize w (effect_of OpInit w).
Proof.
  unfold initialize. msteps; try effect_leaf.
  - split; [by eexists|]. eapply effect_init_failed; [|state_leaf].
    by destruct (m_initialized (w_ctx w)).
  - split; [by eexists|]. eapply effect_init_ok; [|state_leaf].
    by destruct (m_initialized (w_ctx w)).
Qed.

Lemma shutdown_signal_effect w :
  post shutdown_signal w (effect_of OpShutdownSignal w).
Proof.
  unfold shutdown_signal, ThreadPool_shutdown_signal.
  msteps; try effect_leaf.
  split; [by eexists|]. eapply effect_shutdown_signal; [|state_leaf].
  by destruct (m_initialized (w_ctx w)).
Qed.

Lemma shutdown_complete_effect w :
  post shutdown_complete w (effect_of OpShutdownComplete w).
Proof.
  unfold shutdown_complete, ThreadPool_shutdown_join.
  msteps; try effect_leaf.
  split; [by eexists|]. eapply effect_shutdown_complete; [| |state_leaf].
  - by destruct (w_joining w).
  - done.
Qed.

Lemma Text2Image_CreateTask_effect html css options w :
  post (Text2Image_CreateTask html css options) w
    (effect_of (OpCreateTask html css options) w).
Proof.
  unfold Text2Image_CreateTask.
  destruct html as [html|]; [|msteps; effect_leaf].
  cbn beta iota zeta. mstep.
  destruct (m_initialized (w_ctx w)) eqn:Hinit;
    [|unfold createTask; mstep; mstep; rewrite Hinit; cbn [negb];
      msteps; effect_leaf].
  set (o := match options with
            | Some o => Some o
            | None => Some Text2Image_GetDefaultOptions
            end).
  assert (∃ o', o = Some o') as [o' ->] by (destruct options; by eexists).
  destruct (createTask_spec html (Some (default EmptyString css)) o' w Hinit)
    as (a & e & _ & Heq).
  eapply post_eq; [exact Heq|]; cbn beta iota.
  mstep; mtask; cbn.
  split; [by eexists|]. eapply effect_create; [done|state_leaf].
Qed.

Lemma Text2Image_Render_op_effect handle outputPath w :
  wf w →
  post (Text2Image_Render handle outputPath) w
    (effect_of (OpRender handle outputPath) w).
Proof.
  intros Hwf. unfold Text2Image_Render.
  mstep; [msteps; effect_leaf|].
  mstep. eapply post_eq; [apply getTask_spec|]. cbn beta iota.
  destruct (m_tasksMap (w_ctx w) !! handle) as [p|] eqn:Hp; cbn [default id];
    [|msteps; effect_leaf].
  destruct (wf_registry w Hwf _ _ Hp) as (_ & Hpnull & [t Ht]).
  pose proof Hpnull as Hpnull'. apply N.eqb_neq in Hpnull'. rewrite Hpnull'.
  destruct (m_initialized (w_ctx w)) eqn:Hinit;
    [|unfold renderSync; mstep; mstep; rewrite Hinit; cbn [negb];
      msteps; effect_leaf].
  eapply post_mono; [by apply (renderSync_full p t)|].
  intros r w' (ok & b & t1 & evs & -> & Hout & Hsync & Hstate).
  split; [by eexists|]. by eapply effect_render.
Qed.

Lemma Text2Image_RenderAsync_effect handle outputPath callback userData w :
  wf w →
  post (Text2Image_RenderAsync handle outputPath callback userData) w
    (effect_of (OpRenderAsync handle outputPath callback userData) w).
Proof.
  intros Hwf. unfold Text2Image_RenderAsync.
  mstep; [msteps; effect_leaf|].
  mstep. eapply post_eq; [apply getTask_spec|]. cbn beta iota.
  destruct (m_tasksMap (w_ctx w) !! handle) as [p|] eqn:Hp; cbn [default id];
    [|msteps; effect_leaf].
  destruct (wf_registry w Hwf _ _ Hp) as (_ & Hpnull & [t Ht]).
  pose proof Hpnull as Hpnull'. apply N.eqb_neq in Hpnull'. rewrite Hpnull'.
  unfold renderAsync, ThreadPool_enqueue.
  destruct (m_initialized (w_ctx w)) eqn:Hinit;
    [|mstep; mstep; rewrite Hinit; cbn [negb]; msteps; effect_leaf].
  mstep. mstep. rewrite Hinit. cbn [negb]. rewrite Hpnull'.
  destruct (m_stop (m_threadPool (w_ctx w))) eqn:Hstop.
  - mstep. mstep. mtask. mstep. mstep. mstep. cbn. rewrite Hstop.
    msteps. split; [by eexists|].
    eapply effect_rejected; [done..|state_leaf].
  - mstep. mstep. mtask. mstep. mstep. mstep. cbn. rewrite Hstop.
    msteps. split; [by eexists|].
    eapply effect_enqueue; [done..|state_leaf].
Qed.

Lemma Text2Image_GetResult_effect handle buffer size w :
  wf w →
  post (Text2Image_GetResult handle buffer size) w
    (effect_of (OpGetResult handle buffer size) w).
Proof.
  intros Hwf. unfold Text2Image_GetResult.
  mstep; [msteps; effect_leaf|].
  mstep. eapply post_eq; [apply getTask_spec|]. cbn beta iota.
  mstep; [msteps; effect_leaf|].
  destruct (getTask_live handle w Hwf) as [Hnull|[t Ht]];
    [apply N.eqb_neq in Hif0; done|].
  msteps; effect_leaf.
Qed.

Lemma Text2Image_FreeTask_effect handle w :
  post (Text2Image_FreeTask handle) w (effect_of (OpFreeTask handle) w).
Proof.
  unfold Text2Image_FreeTask, freeTask.
  msteps; try effect_leaf.
  split; [by eexists|]. eapply effect_free; [eassumption|state_leaf].
Qed.

Lemma Text2Image_GetLastError_effect w :
  post Text2Image_GetLastError w (effect_of OpGetLastError w).
Proof. unfold Text2Image_GetLastError, getLastError. msteps; effect_leaf. Qed.

Lemma Text2Image_SetMaxThreads_effect numThreads w :
  post (Text2Image_SetMaxThreads numThreads) w
    (effect_of (OpSetMaxThreads numThreads) w).
Proof.
  unfold Text2Image_SetMaxThreads, ThreadPool_setMaxThreads.
  fold (requested_threads X numThreads).
  msteps; try effect_leaf.
  - split; [by eexists|]. eapply effect_grow; [| |state_leaf]; cbn; lia.
  - split; [by eexists|]. eapply effect_shrink; [| |state_leaf]; cbn; lia.
Qed.

Lemma worker_critical_section_effect i w :
  post (worker_critical_section i) w (effect_of (OpWorkerCriticalSection i) w).
Proof.
  unfold worker_critical_section. mstep. mstep. mstep; [|effect_leaf].
  mstep; try effect_leaf.
  destruct (acquire (m_threadPool (w_ctx w))) eqn:Hacq; cbn beta iota.
  1, 3: msteps; effect_leaf.
  - msteps. split; [by eexists|]. eapply effect_exit; [done..|state_leaf].
  - destruct (acquire_take _ _ Hacq) as [q Hq].
    msteps. split; [by eexists|].
    eapply (effect_take _ _ _ q); [done..|].
    unfold state_is; cbn; rewrite Hq; split_and!; reflexivity.
  - by apply acquire_defined in Hacq.
Qed.

Lemma worker_execute_op_effect i w :
  wf w → post (worker_execute i) w (effect_of (OpWorkerExecute i) w).
Proof.
  intros Hwf. unfold worker_execute.
  mstep. mstep. mstep; [|effect_leaf].
  mstep; try effect_leaf.
  destruct (wf_workers w Hwf task) as [t Ht].
  { apply list_elem_of_lookup. by exists i. }
  mstep. eapply post_mono; [by apply (worker_run_task_spec task t)|].
  intros r w1 (-> & Hheap & Htr & Hctx & Hj & _). cbn beta iota.
  msteps. split; [by eexists|].
  eapply effect_execute; [done..|].
  unfold state_is. rewrite survivors_drop_unheld. cbn.
  rewrite Hheap, Htr, Hctx, Hj. split_and!; reflexivity.
Qed.

(** Every step of a run from a well-formed state returns, and changes
    the state in one of the ways of [op_effect]. *)
Lemma run_op_sound op w :
  wf w → post (run_op op) w (effect_of op w).
Proof.
  intros Hwf. destruct op; cbn [run_op].
  all: try (mstep;
            eapply post_mono;
              [first [ by apply initialize_effect
                     | by apply shutdown_signal_effect
                     | by apply shutdown_complete_effect
                     | by apply Text2Image_CreateTask_effect
                     | by apply Text2Image_Render_op_effect
                     | by apply Text2Image_RenderAsync_effect
                     | by apply Text2Image_GetResult_effect
                     | by apply Text2Image_GetLastError_effect ]
              | intros r w' ([a ->] & Heff); mstep;
                split; [by eexists|done]]).
  - by apply Text2Image_FreeTask_effect.
  - by apply Text2Image_SetMaxThreads_effect.
  - by apply worker_critical_section_effect.
  - by apply worker_execute_op_effect.
Qed.

Lemma run_op_step op w :
  wf w → run_op op w = (Returned tt, (run_op op w).2) ∧
         op_effect w op (run_op op w).2 ∧ wf (run_op op w).2.
Proof.
  intros Hwf.
  pose proof (run_op_sound op w Hwf) as ([[] Hr] & Heff).
  pose proof (run_op_wf op w Hwf) as (_ & Hwf' & _).
  split_and!; [|done..].
  destruct (run_op op w) as [r w']. cbn in Hr. by subst r.
Qed.

End OpEffect.

Section Runs.
Context {X : Externals}.
Implicit Types w : World X.

(** A property that every guarded step keeps holds after every guarded
    run. *)
Lemma run_keeps (I : World X → Prop) (ok : Op → World X → bool) :
  (∀ op w w', wf w → I w → ok op w = true → op_effect w op w' → I w') →
  ∀ ops w, wf w → I w → always ok ops w = true → I (exec ops w).
Proof.
  intros Hstep ops. induction ops as [|op ops IH]; intros w Hwf HI Hok; [done|].
  cbn in Hok. apply andb_true_iff in Hok as [Hop Hops].
  destruct (run_op_step op w Hwf) as (_ & Heff & Hwf').
  rewrite exec_cons by done. apply IH; [done| |done].
  exact (Hstep op w _ Hwf HI Hop Heff).
Qed.

Lemma always_true ops w : always (λ _ _, true) ops w = true.
Proof. revert w. induction ops as [|op ops IH]; intros w; cbn; auto. Qed.

Lemma run_keeps_always (I : World X → Prop) :
  (∀ op w w', wf w → I w → op_effect w op w' → I w') →
  ∀ ops w, wf w → I w → I (exec ops w).
Proof.
  intros Hstep ops w Hwf HI.
  apply (run_keeps I (λ _ _, true)); [|done..|apply always_true].
  intros op w0 w' Hwf0 HI0 _. by apply Hstep.
Qed.


End Runs.

(** [renderSync] changes the context in the last-error slot at most. *)
Lemma sync_end_ctx outputPath t1 c b ok evs c' :
  sync_end outputPath t1 c b ok evs c' →
  (ok = true ∧ c' = c) ∨
  (ok = false ∧ ∃ message, message ≠ EmptyString ∧
                           c' = ctx_set_lastError message c).
Proof.
  destruct 1; [right|left|right|right|left]; split; try done.
  all: eexists; split; [|reflexivity].
  all: by apply append_nonempty.
Qed.

(** Puts the parts of the state an effect leaves into the goal. *)
Ltac effect_cases Heff :=
  destruct Heff;
  repeat match goal with
         | H : sync_end _ _ _ _ _ _ _ |- _ =>
             destruct H
         | c := _ : LibraryContext |- _ => subst c
         | pool := _ : ThreadPool |- _ => subst pool
         | n := _ : Z |- _ => subst n
         | H : state_is _ _ _ _ _ |- _ =>
             let Hc := fresh "Hc" in
             let Hh := fresh "Hh" in
             let Htr := fresh "Htr" in
             let Hj := fresh "Hj" in
             destruct H as (Hc & Hh & Htr & Hj)
         end.

Section Shutdown.
Context {X : Externals}.
Implicit Types w : World X.

Lemma all_exited_nil ws : all_exited ws = true → WExited ∉ ws → ws = [].
Proof.
  destruct ws as [|s ws]; [done|]. cbn.
  intros [Hs%bool_decide_eq_true _]%andb_true_iff Hno.
  subst s. destruct Hno. by left.
Qed.

(** A worker returns only from a pool with more threads than
    [m_maxThreads]. *)
Lemma acquire_exit p :
  acquire p = AExit → m_maxThreads p < Z.of_nat (length (m_workers p)).
Proof.
  unfold acquire, acquire_front.
  repeat case_match; try done. intros _. by apply Z.ltb_lt.
Qed.

Lemma not_elem_of_insert_exited (ws : list WorkerState) i s :
  s ≠ WExited → WExited ∉ ws → WExited ∉ <[i := s]> ws.
Proof.
  intros Hs Hno [?|?]%elem_of_list_insert_inv; [by subst|done].
Qed.

Lemma no_worker_left_new e :
  no_worker_left (World_new X e).
Proof.
  unfold no_worker_left. cbn. rewrite length_replicate.
  split_and!; [|lia..].
  intros Hin. by apply elem_of_replicate in Hin as [? _].
Qed.

Lemma no_worker_left_step op w w' :
  (0 < hardware_concurrency X)%N →
  wf w → no_worker_left w → keeps_size op w = true →
  op_effect w op w' → no_worker_left w'.
Proof.
  intros Hhc Hwf (Hex & Hmax & Hsize) Hok Heff.
  unfold no_worker_left.
  effect_cases Heff; rewrite ?Hc; cbn; try done.
  - (* shutdown completes *)
    apply all_exited_nil in H0; [|done]. rewrite H0 in Hsize. cbn in Hsize. lia.
  - (* the pool grows *)
    unfold requested_threads in *.
    rewrite length_app, length_replicate.
    split_and!; [|lia..].
    intros [?|Hin]%elem_of_app; [done|].
    by apply elem_of_replicate in Hin as [? _].
  - (* the pool shrinks *)
    unfold keeps_size, shrinking in Hok. apply negb_true_iff, Z.ltb_ge in Hok.
    lia.
  - (* a worker returns *)
    apply acquire_exit in H0. lia.
  - rewrite length_insert. split_and!; [|done..].
    by apply not_elem_of_insert_exited.
  - rewrite length_insert. split_and!; [|done..].
    by apply not_elem_of_insert_exited.
Qed.

Lemma all_exited_false ws :
  ws ≠ [] → WExited ∉ ws → all_exited ws = false.
Proof.
  intros Hne Hno. destruct (all_exited ws) eqn:Hall; [|done].
  by apply all_exited_nil in Hall.
Qed.

(** Where no worker has returned, the joins of [shutdown] block. *)
Lemma shutdown_blocked w :
  m_workers (m_threadPool (w_ctx w)) ≠ [] →
  WExited ∉ m_workers (m_threadPool (w_ctx w)) →
  shutdown_complete w = (Returned false, w) ∧
  (m_initialized (w_ctx w) = true →
   (Text2Image_Shutdown w).1 = Returned false).
Proof.
  intros Hne Hno. pose proof (all_exited_false _ Hne Hno) as Hall. split.
  - apply post_run. unfold shutdown_complete, ThreadPool_shutdown_join.
    mstep. mstep. mstep; [by mstep|].
    mstep. mstep. mstep. rewrite Hall. by msteps.
  - intros Hinit.
    enough (post shutdown w (λ r _, r = Returned false)) by done.
    unfold shutdown, shutdown_signal, ThreadPool_shutdown_signal,
      shutdown_complete, ThreadPool_shutdown_join.
    mstep. mstep. mstep. rewrite Hinit. cbn [negb].
    msteps; try done.
    cbn in Hif0. unfold all_exited in Hall. congruence.
Qed.

(** X5.  [Text2Image_Shutdown] never returns unless the pool was
    shrunk before.  The only [return] of [ThreadPool::worker] is taken
    when the pool has more threads than [m_maxThreads]; so on a machine
    with at least one hardware thread, at every point of a run from the
    start of the process in which no [Text2Image_SetMaxThreads] asks
    for fewer threads than the pool has, no worker thread has ended,
    the joins of [shutdown] cannot complete, and a call of
    [Text2Image_Shutdown] on the initialized library leaves its caller
    blocked in [join].  ([hardware_concurrency] is cast to [int] by
    [Text2Image_SetMaxThreads], hence the bound.) *)
Theorem shutdown_never_returns_unless_pool_shrunk e ops :
  (0 < hardware_concurrency X < 2 ^ 31)%N →
  always keeps_size ops (World_new X e) = true →
  let w := exec ops (World_new X e) in
  m_workers (m_threadPool (w_ctx w)) ≠ [] ∧
  (WExited ∉ m_workers (m_threadPool (w_ctx w))) ∧
  shutdown_complete w = (Returned false, w) ∧
  (m_initialized (w_ctx w) = true →
   (Text2Image_Shutdown w).1 = Returned false).
Proof.
  intros [Hhc _] Hok w.
  assert (no_worker_left w) as (Hno & _ & Hsize).
  { apply (run_keeps no_worker_left keeps_size);
      [|apply wf_new|apply no_worker_left_new|done].
    intros op w0 w' Hwf HI Hop Heff. by eapply no_worker_left_step. }
  assert (m_workers (m_threadPool (w_ctx w)) ≠ []) as Hne.
  { intros Hnil. rewrite Hnil in Hsize. cbn in Hsize. lia. }
  destruct (shutdown_blocked w Hne Hno) as [? ?]. by split_and!.
Qed.

End Shutdown.

Section Registry.
Context {X : Externals}.
Implicit Types w : World X.


Lemma Render_unknown handle outputPath w :
  m_tasksMap (w_ctx w) !! handle = None →
  Text2Image_Render handle outputPath w
  = (Returned false,
     set_ctx (ctx_set_lastError
                (if N.eqb handle nullptr then "Invalid task handle"
                 else "Task not found") (w_ctx w)) w).
Proof.
  intros Hh. apply post_run. unfold Text2Image_Render.
  mstep; [by msteps|].
  mstep. eapply post_eq; [apply getTask_spec|]. rewrite Hh. cbn. by msteps.
Qed.




End Registry.

Section LastError.
Context {X : Externals}.
Implicit Types w : World X.

Lemma reports_error_iff w :
  reports_error w ↔ m_lastError (w_ctx w) ≠ EmptyString.
Proof.
  unfold reports_error, Text2Image_GetLastError, getLastError, bind, gets, ret.
  destruct (m_lastError (w_ctx w)) as [|a s] eqn:Hs; cbn; split.
  - by intros (message & _ & [=]).
  - done.
  - done.
  - intros _. eexists. split; [|reflexivity]. done.
Qed.

Lemma reports_error_set message c w :
  message ≠ EmptyString → w_ctx w = ctx_set_lastError message c →
  reports_error w.
Proof. intros Hm Hc. apply reports_error_iff. by rewrite Hc. Qed.

(** The last step of the proofs of the error contract. *)
Ltac contract_leaf :=
  lazymatch goal with
  | |- ∃ _ _, _ = _ ∧ _ => eexists _, _
  | |- ∃ _, _ = _ ∧ _ => eexists
  end;
  split; [reflexivity|]; unfold error_contract; cbn;
  first [ reflexivity
        | apply reports_error_iff; cbn;
          first [done | by apply append_nonempty] ].

Lemma Init_contract w :
  post Text2Image_Init w (λ r w', ∃ ok,
    r = Returned ok ∧ error_contract w ok w').
Proof. unfold Text2Image_Init, initialize. msteps; contract_leaf. Qed.

Lemma CreateTask_contract html css options w :
  post (Text2Image_CreateTask html css options) w (λ r w', ∃ h,
    r = Returned h ∧ error_contract w (negb (N.eqb h nullptr)) w').
Proof.
  unfold Text2Image_CreateTask.
  destruct html as [html|]; [|msteps; contract_leaf].
  cbn beta iota zeta. mstep.
  destruct (m_initialized (w_ctx w)) eqn:Hinit;
    [|unfold createTask; mstep; mstep; rewrite Hinit; cbn [negb];
      msteps; contract_leaf].
  set (o := match options with
            | Some o => Some o
            | None => Some Text2Image_GetDefaultOptions
            end).
  assert (∃ o', o = Some o') as [o' ->] by (destruct options; by eexists).
  destruct (createTask_spec html (Some (default EmptyString css)) o' w Hinit)
    as (a & e & _ & Heq).
  eapply post_eq; [exact Heq|]; cbn beta iota.
  mstep; mtask; cbn. contract_leaf.
Qed.

Lemma Render_contract handle outputPath w :
  wf w →
  post (Text2Image_Render handle outputPath) w (λ r w', ∃ ok,
    r = Returned ok ∧ error_contract w ok w').
Proof.
  intros Hwf. unfold Text2Image_Render.
  mstep; [msteps; contract_leaf|].
  mstep. eapply post_eq; [apply getTask_spec|]. cbn beta iota.
  destruct (m_tasksMap (w_ctx w) !! handle) as [p|] eqn:Hp; cbn [default id];
    [|msteps; contract_leaf].
  destruct (wf_registry w Hwf _ _ Hp) as (_ & Hpnull & [t Ht]).
  pose proof Hpnull as Hpnull'. apply N.eqb_neq in Hpnull'. rewrite Hpnull'.
  destruct (m_initialized (w_ctx w)) eqn:Hinit;
    [|unfold renderSync; mstep; mstep; rewrite Hinit; cbn [negb];
      msteps; contract_leaf].
  eapply post_mono; [by apply (renderSync_full p t)|].
  intros r w' (ok & b & t1 & evs & -> & _ & Hsync & _).
  exists ok. split; [done|].
  destruct (sync_end_ctx _ _ _ _ _ _ _ Hsync)
    as [[-> Hc]|[-> (message & Hm & Hc)]]; cbn.
  - by rewrite Hc.
  - by eapply reports_error_set.
Qed.

Lemma RenderAsync_contract handle outputPath callback userData w :
  wf w →
  post (Text2Image_RenderAsync handle outputPath callback userData) w
    (λ r w', ∃ ok, r = Returned ok ∧ error_contract w ok w').
Proof.
  intros Hwf. unfold Text2Image_RenderAsync.
  mstep; [msteps; contract_leaf|].
  mstep. eapply post_eq; [apply getTask_spec|]. cbn beta iota.
  mstep; [msteps; contract_leaf|].
  destruct (getTask_live handle w Hwf) as [Hnull|[t Ht]];
    [apply N.eqb_neq in Hif0; done|].
  unfold renderAsync, ThreadPool_enqueue. msteps; contract_leaf.
Qed.

Lemma GetResult_contract handle buffer size w :
  wf w →
  post (Text2Image_GetResult handle buffer size) w (λ r w', ∃ ok out,
    r = Returned (ok, out) ∧ error_contract w ok w').
Proof.
  intros Hwf. unfold Text2Image_GetResult.
  mstep; [msteps; contract_leaf|].
  mstep. eapply post_eq; [apply getTask_spec|]. cbn beta iota.
  mstep; [msteps; contract_leaf|].
  destruct (getTask_live handle w Hwf) as [Hnull|[t Ht]];
    [apply N.eqb_neq in Hif0; done|].
  msteps; contract_leaf.
Qed.

(** X9.  A call of the C ABI that reports failure leaves a message
    behind, and a call that reports success leaves the last-error slot
    alone.  In a well-formed state, when [Text2Image_Init],
    [Text2Image_Render], [Text2Image_RenderAsync] or
    [Text2Image_GetResult] returns false, or [Text2Image_CreateTask]
    the null handle, the next [Text2Image_GetLastError] returns a
    non-empty message (never the null pointer); when the call succeeds,
    [m_lastError] is what it was, so the message of an earlier failure
    stays readable. *)
Theorem failure_is_reported_success_is_silent w :
  wf w →
  post Text2Image_Init w (λ r w', ∃ ok,
    r = Returned ok ∧ error_contract w ok w') ∧
  (∀ html css options,
     post (Text2Image_CreateTask html css options) w (λ r w', ∃ h,
       r = Returned h ∧ error_contract w (negb (N.eqb h nullptr)) w')) ∧
  (∀ handle outputPath,
     post (Text2Image_Render handle outputPath) w (λ r w', ∃ ok,
       r = Returned ok ∧ error_contract w ok w')) ∧
  (∀ handle outputPath callback userData,
     post (Text2Image_RenderAsync handle outputPath callback userData) w
       (λ r w', ∃ ok, r = Returned ok ∧ error_contract w ok w')) ∧
  (∀ handle buffer size,
     post (Text2Image_GetResult handle buffer size) w (λ r w', ∃ ok out,
       r = Returned (ok, out) ∧ error_contract w ok w')).
Proof.
  intros Hwf. split_and!; intros.
  - apply Init_contract.
  - apply CreateTask_contract.
  - by apply Render_contract.
  - by apply RenderAsync_contract.
  - by apply GetResult_contract.
Qed.

Lemma last_error_step op w w' :
  m_lastError (w_ctx w) ≠ EmptyString → op_effect w op w' →
  m_lastError (w_ctx w') ≠ EmptyString.
Proof.
  intros HI Heff. effect_cases Heff; rewrite ?Hc; cbn; try done.
  all: by apply append_nonempty.
Qed.

(** X10.  The last-error slot is never cleared.  Once
    [Text2Image_GetLastError] returns a message, it returns a message
    (the same or a later one) after every run of calls and worker
    steps: no operation, not even a successful one, stores the empty
    string in [m_lastError]. *)
Theorem last_error_is_never_cleared ops w :
  wf w → reports_error w → reports_error (exec ops w).
Proof.
  intros Hwf Herr%reports_error_iff. apply reports_error_iff.
  apply (run_keeps_always (λ w, m_lastError (w_ctx w) ≠ EmptyString));
    [|done..].
  intros op w0 w' _ HI Heff. by eapply last_error_step.
Qed.

End LastError.

Section Counting.
Context {A : Type} (f : A → bool).

Lemma count_app l1 l2 : count f (l1 ++ l2) = (count f l1 + count f l2)%nat.
Proof. induction l1 as [|x l1 IH]; cbn; [done|]. rewrite IH. lia. Qed.

Lemma count_replicate n x : f x = false → count f (replicate n x) = 0%nat.
Proof. intros Hx. induction n as [|n IH]; cbn; [done|]. by rewrite Hx, IH. Qed.

Lemma count_insert l i x y :
  l !! i = Some x →
  (count f (<[i := y]> l) + (if f x then 1 else 0)
   = count f l + (if f y then 1 else 0))%nat.
Proof.
  revert i. induction l as [|z l IH]; intros i Hi; [done|].
  destruct i as [|i].
  - cbn in *. injection Hi as ->. destruct (f x), (f y); lia.
  - change (<[S i := y]> (z :: l)) with (z :: <[i := y]> l).
    cbn [count]. specialize (IH i Hi). destruct (f x), (f y), (f z); lia.
Qed.

End Counting.

Section Accounting.
Context {X : Externals}.
Implicit Types w : World X.

Lemma all_exited_holding ws :
  all_exited ws = true → count is_holding ws = 0%nat.
Proof.
  induction ws as [|s ws IH]; cbn; [done|].
  intros [Hs%bool_decide_eq_true ?]%andb_true_iff. subst s. cbn. auto.
Qed.

Lemma count_callback_events (f : Event → bool) t success :
  (∀ callback handle ok userData,
     f (EvCallback callback handle ok userData) = false) →
  count f (callback_events t success) = 0%nat.
Proof.
  intros Hf. unfold callback_events. case_match; cbn; [done|].
  by rewrite Hf.
Qed.

Lemma size_t_wrap_succ n :
  size_t_wrap (size_t_wrap (Z.of_nat n) + 1) = size_t_wrap (Z.of_nat (n + 1)).
Proof.
  unfold size_t_wrap. rewrite Zplus_mod_idemp_l. f_equal. lia.
Qed.

Lemma size_t_wrap_pred n :
  size_t_wrap (size_t_wrap (Z.of_nat (n + 1)) - 1) = size_t_wrap (Z.of_nat n).
Proof.
  unfold size_t_wrap. rewrite Zminus_mod_idemp_l. f_equal. lia.
Qed.

Lemma pool_accounts_new e : pool_accounts (World_new X e).
Proof.
  unfold pool_accounts. cbn. by rewrite count_replicate.
Qed.

Lemma pool_accounts_step op w w' :
  pool_accounts w → op_effect w op w' → pool_accounts w'.
Proof.
  intros [Hsub Hact] Heff. unfold pool_accounts.
  effect_cases Heff; rewrite ?Hc, ?Htr; cbn;
    rewrite ?count_app, ?length_app; cbn;
    rewrite ?count_callback_events by done; try (split; [lia|done]).
  - (* shutdown completes *)
    apply all_exited_holding in H0. rewrite H0 in *. split; [lia|done].
  - (* the pool grows *)
    rewrite count_replicate by done. rewrite Nat.add_0_r. split; [lia|done].
  - (* a worker returns *)
    pose proof (count_insert is_holding _ _ _ WExited H) as Hins. cbn in Hins.
    rewrite !Nat.add_0_r in Hins. rewrite Hins. split; [lia|done].
  - (* a worker takes a task *)
    pose proof (count_insert is_holding _ _ _ (WHolding p) H) as Hins.
    cbn in Hins. rewrite Nat.add_0_r in Hins. rewrite Hins.
    rewrite H1 in Hsub. cbn in Hsub. split; [lia|].
    by rewrite Hact, size_t_wrap_succ.
  - (* a worker runs its task *)
    pose proof (count_insert is_holding _ _ _ WWaiting H) as Hins.
    cbn in Hins. rewrite Nat.add_0_r in Hins. rewrite <- Hins in *.
    split; [lia|]. by rewrite Hact, size_t_wrap_pred.
Qed.

(** X13.  The pool neither loses nor duplicates work.  At every point
    of a run from the start of the process, the number of submissions
    [enqueue] accepted equals the number of tasks workers have run,
    plus the length of the queue, plus the number of workers that hold
    a dequeued task; and [m_activeThreads] is exactly the number of
    workers that hold a task (as a [size_t]): its decrement never
    underflows. *)
Theorem pool_neither_loses_nor_duplicates_work e ops :
  pool_accounts (exec ops (World_new X e)).
Proof.
  apply (run_keeps_always pool_accounts);
    [|apply wf_new|apply pool_accounts_new].
  intros op w w' _ HI Heff. by eapply pool_accounts_step.
Qed.

End Accounting.

Section Handles.
Context {X : Externals}.
Implicit Types w : World X.

Lemma render_outcome_handle t b t' :
  render_outcome t b t' → m_handle t' = m_handle t.
Proof. by destruct 1. Qed.

Lemma survivors_lookup c (h : gmap N Task) p t :
  survivors c h !! p = Some t → h !! p = Some t.
Proof. unfold survivors. by intros [? _]%map_lookup_filter_Some. Qed.

Lemma handles_are_addresses_step op w w' :
  handles_are_addresses w → op_effect w op w' → handles_are_addresses w'.
Proof.
  intros [Hreg Hobj] Heff. unfold handles_are_addresses.
  effect_cases Heff; rewrite ?Hc, ?Hh; cbn; split; try done.
  all: try (intros h0 p0 Hp0;
            first [ apply lookup_insert_Some in Hp0 as [[<- <-]|[_ Hp0]]
                  | apply lookup_delete_Some in Hp0 as [_ Hp0]
                  | rewrite lookup_empty in Hp0 ];
            by eauto).
  all: intros p0 t0 Hp0; try apply survivors_lookup in Hp0;
    try (apply lookup_insert_Some in Hp0 as [[<- <-]|[_ Hp0]]);
    cbn; eauto.
  all: try (rewrite (render_outcome_handle _ _ _ H2); cbn; by eauto).
Qed.

(** X14.  A task handle is the address of its Task object.  At every
    point of a run from the start of the process, the registry maps
    each handle to the shared pointer with the same value, and every
    live Task stores its own address in [m_handle]: the handle a
    callback receives is the one [Text2Image_CreateTask] returned for
    the task. *)
Theorem task_handles_are_addresses e ops :
  handles_are_addresses (exec ops (World_new X e)).
Proof.
  apply (run_keeps_always handles_are_addresses); [|apply wf_new|].
  - intros op w w' _ HI Heff. by eapply handles_are_addresses_step.
  - split; cbn; intros ? ?; by rewrite lookup_empty.
Qed.

End Handles.

Section AsyncOnly.
Context {X : Externals}.
Implicit Types w : World X.



End AsyncOnly.

Section Callbacks.
Context {X : Externals}.
Implicit Types w : World X.



End Callbacks.

Section Safety.
Context {X : Externals}.
Implicit Types w : World X.



(** X3.  [render] never asks Skia for an empty surface.  The canvas
    size it computes from the options has a positive width and a
    positive height, whatever the custom dimensions are; and with a
    preset resolution the custom dimensions play no part. *)
Theorem canvas_size_is_positive options :
  0 < (canvas_size options).1 ∧ 0 < (canvas_size options).2 ∧
  ∀ options',
    resolution options' = resolution options →
    resolution options ≠ TEXT2IMAGE_RESOLUTION_AUTO →
    canvas_size options' = canvas_size options.
Proof.
  unfold canvas_size. split_and!.
  - destruct (resolution options); cbn; try lia.
    destruct (Z.ltb_spec 0 (customWidth options)); lia.
  - destruct (resolution options); cbn; try lia.
    destruct (Z.ltb_spec 0 (customHeight options)); lia.
  - intros options' ->. by destruct (resolution options).
Qed.

(** X4.  What a worker does when its wait is over, case by case.  The
    worker stays blocked exactly when the pool is not stopped, the
    queue is empty and fewer than [m_maxThreads] workers are active.
    It returns exactly when the pool has more threads than
    [m_maxThreads] and either the stop flag is set or the queue is
    empty with [m_maxThreads] workers active: the stop flag alone never
    ends a worker.  It goes round the loop again, without waiting,
    exactly when the queue is empty, the pool has no surplus thread and
    the stop flag is set or [m_maxThreads] workers are active.  It
    takes the task at the front of the queue in every other case with
    a non-empty queue, however many workers are active:
    [m_maxThreads] does not bound the tasks in execution.  And it
    never calls [front()] on an empty queue. *)
Theorem acquire_decision_table p :
  let surplus := m_maxThreads p < Z.of_nat (length (m_workers p)) in
  let saturated := m_maxThreads p ≤ m_activeThreads p in
  (acquire p = ABlocked
   ↔ m_stop p = false ∧ m_tasks p = [] ∧ ¬ saturated) ∧
  (acquire p = AExit
   ↔ surplus ∧ (m_stop p = true ∨ (m_tasks p = [] ∧ saturated))) ∧
  (acquire p = AContinue
   ↔ ¬ surplus ∧ m_tasks p = [] ∧ (m_stop p = true ∨ saturated)) ∧
  (∀ task,
     acquire p = ATake task
     ↔ (∃ q, m_tasks p = task :: q) ∧ ¬ (surplus ∧ m_stop p = true)) ∧
  acquire p ≠ AUndefined.
Proof.
  cbn zeta. unfold acquire, wait_predicate, acquire_front.
  destruct (m_stop p), (m_tasks p) as [|task0 q0],
    (Z.leb_spec (m_maxThreads p) (m_activeThreads p)),
    (Z.ltb_spec (m_maxThreads p) (Z.of_nat (length (m_workers p))));
    cbn; split_and!; try done; try (intros task); split;
    try done; try discriminate.
  all: intros; repeat match goal with
                      | H : _ ∧ _ |- _ => destruct H
                      | H : ∃ _, _ |- _ => destruct H
                      | H : _ ∨ _ |- _ => destruct H
                      end; try congruence; try lia.
  all: try (split_and!; eauto; try lia; try (intros [? ?]; congruence)).
  all: exists q0; congruence.
Qed.

End Safety.

Section PoolAndRegistry.
Context {X : Externals}.
Implicit Types w : World X.


(** X7.  [initialize] succeeds at most once and fails cleanly.  The
    call always returns, and leaves the thread pool (so a stop flag
    that is set stays set), the registry, the tasks and the events as
    they are.  On an initialized library it returns true and changes
    nothing at all.  When it returns true the library is initialized
    and the last-error slot is as before; when it returns false the
    library is not initialized, the render engine has been released
    again and the last error is "Failed to initialize render engine:
    Skia". *)
Theorem initialize_is_idempotent_and_fails_cleanly w :
  ∃ ok w',
    initialize w = (Returned ok, w') ∧
    m_threadPool (w_ctx w') = m_threadPool (w_ctx w) ∧
    m_tasksMap (w_ctx w') = m_tasksMap (w_ctx w) ∧
    w_heap w' = w_heap w ∧ w_trace w' = w_trace w ∧
    w_joining w' = w_joining w ∧
    (m_initialized (w_ctx w) = true → ok = true ∧ w' = w) ∧
    (if ok then
       m_initialized (w_ctx w') = true ∧
       m_lastError (w_ctx w') = m_lastError (w_ctx w)
     else
       m_initialized (w_ctx w') = false ∧
       m_renderEngine (w_ctx w') = false ∧
       m_lastError (w_ctx w') = "Failed to initialize render engine: Skia").
Proof.
  enough (post initialize w (λ r w', ∃ ok,
            r = Returned ok ∧
            m_threadPool (w_ctx w') = m_threadPool (w_ctx w) ∧
            m_tasksMap (w_ctx w') = m_tasksMap (w_ctx w) ∧
            w_heap w' = w_heap w ∧ w_trace w' = w_trace w ∧
            w_joining w' = w_joining w ∧
            (m_initialized (w_ctx w) = true → ok = true ∧ w' = w) ∧
            (if ok then
               m_initialized (w_ctx w') = true ∧
               m_lastError (w_ctx w') = m_lastError (w_ctx w)
             else
               m_initialized (w_ctx w') = false ∧
               m_renderEngine (w_ctx w') = false ∧
               m_lastError (w_ctx w')
               = "Failed to initialize render engine: Skia"))) as Hpost.
  { unfold post in Hpost. destruct (initialize w) as [r w'].
    cbn [fst snd] in Hpost. destruct Hpost as (ok & -> & H).
    by exists ok, w'. }
  unfold initialize. msteps.
  - exists true. by split_and!.
  - exists false. split_and!; try done; intros Hinit; congruence.
  - exists true. split_and!; try done; intros Hinit; congruence.
Qed.

Lemma FreeTask_run handle w :
  handle ≠ nullptr →
  Text2Image_FreeTask handle w
  = (Returned tt,
     match m_tasksMap (w_ctx w) !! handle with
     | Some _ =>
         let c := ctx_set_tasksMap (delete handle (m_tasksMap (w_ctx w)))
                    (w_ctx w) in
         set_heap (survivors c (w_heap w)) (set_ctx c w)
     | None => w
     end).
Proof.
  intros Hnull%N.eqb_neq. apply post_run.
  unfold Text2Image_FreeTask, freeTask. rewrite Hnull.
  mstep. mstep. destruct (m_tasksMap (w_ctx w) !! handle); by msteps.
Qed.

(** X11.  Create, look up, free, look up.  On an initialized library
    [Text2Image_CreateTask] with content returns a non-null handle that
    [getTask] resolves (to the pointer of the same value), and leaves
    what every other handle resolves to as it was.  After
    [Text2Image_FreeTask] on that handle, [getTask] returns the null
    pointer for it, and a [Text2Image_Render] with the stale handle
    fails with "Task not found" without touching a Task. *)
Theorem CreateTask_FreeTask_round_trip html css options w :
  m_initialized (w_ctx w) = true →
  ∃ handle w1,
    Text2Image_CreateTask (Some html) css options w = (Returned handle, w1) ∧
    handle ≠ nullptr ∧
    getTask handle w1 = (Returned handle, w1) ∧
    (∀ other, other ≠ handle →
       (getTask other w1).1 = (getTask other w).1) ∧
    let w2 := (Text2Image_FreeTask handle w1).2 in
    getTask handle w2 = (Returned nullptr, w2) ∧
    (∀ other, other ≠ handle →
       (getTask other w2).1 = (getTask other w).1) ∧
    ∀ outputPath,
      ∃ w3, Text2Image_Render handle outputPath w2 = (Returned false, w3) ∧
            m_lastError (w_ctx w3) = "Task not found" ∧
            w_heap w3 = w_heap w2 ∧ w_trace w3 = w_trace w2.
Proof.
  intros Hinit.
  set (o := default Text2Image_GetDefaultOptions options).
  destruct (createTask_spec html (Some (default EmptyString css)) o w Hinit)
    as (a & e & _ & Heq).
  assert (Text2Image_CreateTask (Some html) css options w
          = (Returned (Npos a),
             (createTask (Some html) (Some (default EmptyString css))
                (Some o) w).2)) as Hcall.
  { apply post_run. unfold Text2Image_CreateTask. cbn beta iota zeta.
    replace (match options with
             | Some o0 => Some o0
             | None => Some Text2Image_GetDefaultOptions
             end) with (Some o) by (by destruct options).
    mstep. eapply post_eq; [exact Heq|]. cbn beta iota.
    mstep. mtask. by rewrite Heq. }
  rewrite Heq in Hcall. cbn [snd] in Hcall.
  eexists (Npos a), _. split; [exact Hcall|].
  split; [done|]. split.
  { rewrite getTask_spec. cbn. by rewrite lookup_insert_eq. }
  split.
  { intros other Hother. rewrite !getTask_spec. cbn.
    by rewrite lookup_insert_ne. }
  cbn zeta. rewrite FreeTask_run by done. cbn [snd].
  cbn [w_ctx set_ctx set_heap set_env m_tasksMap ctx_set_tasksMap].
  rewrite lookup_insert_eq. cbn zeta.
  split.
  { rewrite getTask_spec. cbn. by rewrite lookup_delete_eq. }
  split.
  { intros other Hother. rewrite !getTask_spec. cbn.
    by rewrite lookup_delete_ne, lookup_insert_ne. }
  intros outputPath. eexists. split.
  { apply Render_unknown. cbn. apply lookup_delete_eq. }
  by cbn.
Qed.

Lemma held_by_delete c handle p q :
  m_tasksMap c !! handle = Some p → q ≠ p →
  held_by c q = true →
  held_by (ctx_set_tasksMap (delete handle (m_tasksMap c)) c) q = true.
Proof.
  intros Hh Hq. unfold held_by. cbn.
  intros [[Hreg|Hqueue]%orb_true_iff|Hw]%orb_true_iff.
  - apply bool_decide_eq_true in Hreg.
    apply elem_of_map_img in Hreg as [k Hk].
    rewrite (bool_decide_eq_true_2 (q ∈ map_img (delete handle (m_tasksMap c))));
      [done|].
    apply elem_of_map_img. exists k. rewrite lookup_delete_ne; [done|].
    intros <-. congruence.
  - by rewrite Hqueue, orb_true_r.
  - by rewrite Hw, orb_true_r.
Qed.

(** X12.  [Text2Image_FreeTask] gives up one reference, not the
    task.  Freeing a registered handle always removes the registry
    entry and leaves the pool and the events alone.  The Task object
    behind it stays alive, unchanged, while the queue or a worker still
    holds it (so a submitted task is run, and its callback called,
    after its handle was freed); it is destroyed at once when neither
    does and no other handle names it.  Every other Task that is held
    stays as it is. *)
Theorem FreeTask_releases_one_reference handle p t w :
  handle ≠ nullptr →
  m_tasksMap (w_ctx w) !! handle = Some p →
  w_heap w !! p = Some t →
  let pool := m_threadPool (w_ctx w) in
  ∃ w',
    Text2Image_FreeTask handle w = (Returned tt, w') ∧
    m_tasksMap (w_ctx w') = delete handle (m_tasksMap (w_ctx w)) ∧
    m_threadPool (w_ctx w') = pool ∧ w_trace w' = w_trace w ∧
    (p ∈ m_tasks pool ∨ WHolding p ∈ m_workers pool →
     w_heap w' !! p = Some t) ∧
    (p ∉ m_tasks pool → WHolding p ∉ m_workers pool →
     (∀ other, other ≠ handle → m_tasksMap (w_ctx w) !! other ≠ Some p) →
     w_heap w' !! p = None) ∧
    (∀ q tq, q ≠ p → w_heap w !! q = Some tq → held w q = true →
             w_heap w' !! q = Some tq).
Proof.
  intros Hnull Hh Ht pool. eexists. split; [by apply FreeTask_run|].
  rewrite Hh. cbn. split_and!; try done.
  - intros Hheld. apply map_lookup_filter_Some. split; [done|]. cbn.
    unfold held_by. cbn. fold pool.
    destruct Hheld as [Hq|Hw].
    + by rewrite (bool_decide_eq_true_2 _ Hq), orb_true_r.
    + by rewrite (bool_decide_eq_true_2 _ Hw), orb_true_r.
  - intros Hq Hw Hother. apply map_lookup_filter_None. right.
    intros t' _. cbn. unfold held_by. cbn. fold pool.
    rewrite (bool_decide_eq_false_2 _ Hq), (bool_decide_eq_false_2 _ Hw).
    rewrite bool_decide_eq_false_2; [done|].
    intros [k Hk]%elem_of_map_img.
    apply lookup_delete_Some in Hk as [Hne Hk]. by eapply Hother.
  - intros q tq Hq Htq Hheld. apply map_lookup_filter_Some. split; [done|].
    cbn. by eapply held_by_delete.
Qed.

End PoolAndRegistry.

Section SyncOutput.
Context {X : Externals}.
Implicit Types w : World X.

(** The ways [Text2Image_Render] ends: before the render, with false
    and nothing but the last error changed, or after it. *)
Lemma Render_cases handle outputPath w :
  wf w →
  post (Text2Image_Render handle outputPath) w (λ r w',
    (r = Returned false ∧ w_trace w' = w_trace w ∧ w_heap w' = w_heap w) ∨
    (∃ p t ok b t1 evs,
       m_tasksMap (w_ctx w) !! handle = Some p ∧
       w_heap w !! p = Some t ∧
       r = Returned ok ∧
       render_outcome (TaskObj.setStatus RUNNING t) b t1 ∧
       sync_end outputPath t1 (w_ctx w) b ok evs (w_ctx w') ∧
       state_is w' (w_ctx w')
         (<[p := TaskObj.setStatus (terminal_status b) t1]> (w_heap w))
         (w_trace w
          ++ [EvStatus p (m_status t) RUNNING; EvRender p;
              EvStatus p RUNNING (terminal_status b)] ++ evs)
         (w_joining w))).
Proof.
  intros Hwf. unfold Text2Image_Render.
  mstep; [msteps; by left|].
  mstep. eapply post_eq; [apply getTask_spec|]. cbn beta iota.
  destruct (m_tasksMap (w_ctx w) !! handle) as [p|] eqn:Hp; cbn [default id];
    [|msteps; by left].
  destruct (wf_registry w Hwf _ _ Hp) as (_ & Hpnull & [t Ht]).
  pose proof Hpnull as Hpnull'. apply N.eqb_neq in Hpnull'. rewrite Hpnull'.
  destruct (m_initialized (w_ctx w)) eqn:Hinit;
    [|unfold renderSync; mstep; mstep; rewrite Hinit; cbn [negb];
      msteps; by left].
  eapply post_mono; [by apply (renderSync_full p t)|].
  intros r w' (ok & b & t1 & evs & -> & Hout & Hsync & Hstate).
  right. by exists p, t, ok, b, t1, evs.
Qed.

Lemma Render_returns_wf handle outputPath w :
  wf w → wf (Text2Image_Render handle outputPath w).2.
Proof.
  intros Hwf.
  by destruct (Text2Image_Render_wf handle outputPath w Hwf) as (_ & ? & _).
Qed.

(** X17.  A synchronous render writes to the file what
    [Text2Image_GetResult] hands out.  For [Text2Image_Render] with an
    output path, in a well-formed state: an output file is written to
    the end only by a call that returns true; and when the call returns
    true, either the task has a non-empty result, the call has opened
    [outputPath] and written exactly those bytes, as its last two
    events, and [Text2Image_GetResult] on the same handle then returns
    the same bytes with their length; or the result is empty, no file
    has been opened, and [Text2Image_GetResult] returns false. *)
Theorem Render_writes_what_GetResult_returns handle path buffer size w :
  wf w → buffer ≠ nullptr → size ≠ nullptr →
  ∃ ok w',
    Text2Image_Render handle (Some path) w = (Returned ok, w') ∧
    (∀ file data, EvFileWrite file data true ∈ new_events w w' → ok = true) ∧
    (ok = true →
     (∃ data evs,
        data ≠ [] ∧
        new_events w w'
        = evs ++ [EvFileOpen path true; EvFileWrite path data true] ∧
        Forall (λ ev, ¬ is_file_event ev) evs ∧
        Text2Image_GetResult handle buffer size w'
        = (Returned (true, Some (data, Z.of_nat (length data))), w')) ∨
     (Forall (λ ev, ¬ is_file_event ev) (new_events w w') ∧
      (Text2Image_GetResult handle buffer size w').1
      = Returned (false, None))).
Proof.
  intros Hwf Hbuffer Hsize.
  pose proof (Render_cases handle (Some path) w Hwf) as Hcases.
  pose proof (Render_returns_wf handle (Some path) w Hwf) as Hwf'.
  unfold post in Hcases.
  destruct (Text2Image_Render handle (Some path) w) as [r w'].
  cbn [fst snd] in *.
  destruct Hcases as [(-> & Htr & _)|
    (p & t & ok & b & t1 & evs & Hp & Ht & -> & Hout & Hsync & Hstate)].
  { exists false, w'. split; [done|]. split; [|done].
    intros file data. unfold new_events. rewrite Htr, drop_all.
    by intros ?%elem_of_nil. }
  destruct Hstate as (_ & Hheap & Htr & _).
  assert (new_events w w'
          = [EvStatus p (m_status t) RUNNING; EvRender p;
             EvStatus p RUNNING (terminal_status b)] ++ evs) as Hnew.
  { unfold new_events. by rewrite Htr, drop_app_length. }
  exists ok, w'. split; [done|]. rewrite Hnew.
  pose proof (GetResult_cases handle buffer size w' Hwf') as Hget.
  unfold post in Hget.
  destruct (Text2Image_GetResult handle buffer size w') as [r' w''].
  cbn [fst snd] in *.
  assert (∀ c, w_ctx w' = c → c = w_ctx w →
               resolves_to w' handle
                 (TaskObj.setStatus (terminal_status b) t1)) as Hres.
  { intros c Hc ->. exists p. rewrite Hc, Hheap, lookup_insert_eq. by split. }
  assert (∀ t', resolves_to w' handle t' → m_tasksMap (w_ctx w') !! handle = Some p →
                t' = TaskObj.setStatus (terminal_status b) t1) as Huniq.
  { intros t' (p' & Hp' & Ht') Hp''. rewrite Hp'' in Hp'. injection Hp' as <-.
    rewrite Hheap, lookup_insert_eq in Ht'. by injection Ht' as <-. }
  destruct Hsync as [|Hempty|file Hfile Hne|file Hfile Hne|file Hfile Hne];
    cbn [app].
  - (* the render failed *)
    split; [|done]. intros file data.
    rewrite !elem_of_cons, elem_of_nil. intuition discriminate.
  - (* no output file *)
    split; [done|]. intros _. right. split.
    { repeat constructor; by intros []. }
    destruct Hempty as [[=]|Hempty].
    destruct Hget as [((_ & _ & t' & Hres' & _ & Hresult) & _)|(_ & -> & _)];
      [|done].
    apply Huniq in Hres'; [|done]. subst t'. cbn in Hresult. congruence.
  - (* the file did not open *)
    split; [|done]. intros file' data.
    rewrite !elem_of_cons, elem_of_nil. intuition discriminate.
  - (* the write failed *)
    split; [|done]. intros file' data.
    rewrite !elem_of_cons, elem_of_nil. intuition discriminate.
  - (* written *)
    injection Hfile as <-. split; [done|]. intros _. left.
    exists (m_result t1),
      [EvStatus p (m_status t) RUNNING; EvRender p;
       EvStatus p RUNNING (terminal_status true)].
    split; [done|]. split; [done|]. split.
    { repeat constructor; by intros []. }
    destruct Hget as [(_ & t' & Hres' & -> & ->)|(Hno & _)].
    + apply Huniq in Hres'; [|done]. by subst t'.
    + destruct Hno. split; [done|]. split; [done|].
      eexists. split; [by eapply Hres|]. done.
Qed.

End SyncOutput.

Section RenderElement.

Lemma xmlNode_induction (P : xmlNode → Prop) :
  (∀ type name content children,
     Forall P children → P (XmlNode type name content children)) →
  ∀ node, P node.
Proof.
  intros Hnode. fix IH 1. intros [type name content children].
  apply Hnode. induction children as [|child children IHchildren].
  - constructor.
  - constructor; [apply IH|apply IHchildren].
Qed.

Lemma levels_eq type name content children :
  levels (XmlNode type name content children) = S (deepest children).
Proof.
  reflexivity.
Qed.


Lemma int_add_in_range a b :
  INT_MIN ≤ a + b ≤ INT_MAX → int_add a b = Some (a + b).
Proof.
  intros [Hlo Hhi]. unfold int_add.
  apply Z.leb_le in Hlo, Hhi. by rewrite Hlo, Hhi.
Qed.

(** The loop of [renderElement] is [renderChildren]. *)
Lemma renderElement_loop x below cs :
  (fix loop (cs : list xmlNode) : option (list Draw) :=
     match cs with
     | [] => Some []
     | child :: cs =>
         match renderElement child x below with
         | None => None
         | Some first =>
             match loop cs with
             | None => None
             | Some rest => Some (first ++ rest)
             end
         end
     end) cs
  = renderChildren cs x below.
Proof.
  induction cs as [|c cs IH]; [done|].
  cbn [renderChildren]. by rewrite <- IH.
Qed.

(** [renderElement] with its loop named. *)
Lemma renderElement_eq type name content children x y :
  renderElement (XmlNode type name content children) x y
  = if negb (type =? XML_ELEMENT_NODE) then Some []
    else
      match name with
      | None => None
      | Some nodeName =>
          match
            (if String.eqb nodeName "text" || String.eqb nodeName "#text"
             then
               match content with
               | Some text =>
                   match int_add y 16 with
                   | Some baseline =>
                       Some [DrawSimpleText text (String.length text)
                               x baseline]
                   | None => None
                   end
               | None => Some []
               end
             else Some [])
          with
          | None => None
          | Some own =>
              match children with
              | [] => Some own
              | _ :: _ =>
                  match int_add y 20 with
                  | None => None
                  | Some below =>
                      match renderChildren children x below with
                      | None => None
                      | Some below_draws => Some (own ++ below_draws)
                      end
                  end
              end
          end
      end.
Proof.
  cbn [renderElement].
  destruct (negb (type =? XML_ELEMENT_NODE)); [done|].
  destruct name as [nodeName|]; [|done].
  destruct (if String.eqb nodeName "text" || String.eqb nodeName "#text"
            then _ else _) as [own|]; [|done].
  destruct children as [|child children]; [done|].
  destruct (int_add y 20) as [below|]; [|done].
  by rewrite (renderElement_loop x below (child :: children)).
Qed.

Lemma no_text_element_eq type name content children :
  no_text_element (XmlNode type name content children)
  = negb (type =? XML_ELEMENT_NODE)
    || (match name with
        | None => false
        | Some nodeName =>
            negb (String.eqb nodeName "text" || String.eqb nodeName "#text")
        end
        && forallb no_text_element children).
Proof. reflexivity. Qed.



Lemma deepest_ge child children :
  child ∈ children → (levels child ≤ deepest children)%nat.
Proof.
  induction 1 as [child children|child other children _ IH]; cbn; lia.
Qed.

Lemma levels_positive node : (1 ≤ levels node)%nat.
Proof. destruct node. rewrite levels_eq. lia. Qed.

Lemma renderChildren_plain children x below :
  Forall (λ child, renderElement child x below = Some []) children →
  renderChildren children x below = Some [].
Proof.
  induction 1 as [|child children Hchild _ IH]; cbn; [done|].
  by rewrite Hchild, IH.
Qed.

Lemma renderElement_plain node x y :
  no_text_element node = true →
  INT_MIN ≤ y → y + 20 * Z.of_nat (levels node) ≤ INT_MAX →
  renderElement node x y = Some [].
Proof.
  revert y.
  induction node as [type name content children IH] using xmlNode_induction.
  intros y. rewrite no_text_element_eq, renderElement_eq, levels_eq.
  destruct (negb (type =? XML_ELEMENT_NODE)); [done|]. cbn [orb].
  destruct name as [nodeName|]; [|done].
  destruct (String.eqb nodeName "text" || String.eqb nodeName "#text");
    [done|].
  cbn [negb andb]. intros Hplain Hlo Hhi.
  destruct children as [|child children]; [done|].
  assert (1 ≤ deepest (child :: children))%nat as Hdeep.
  { cbn. pose proof (levels_positive child). lia. }
  rewrite int_add_in_range by (unfold INT_MIN, INT_MAX in *; lia).
  rewrite renderChildren_plain; [done|].
  apply Forall_forall. intros c Hc.
  rewrite Forall_forall in IH. apply IH; [done| |lia|].
  - apply forallb_forall with (x := c) in Hplain; [done|].
    by apply list_elem_of_In.
  - pose proof (deepest_ge c _ Hc). lia.
Qed.

(** X19.  A document without an element named "text" is rendered
    blank.  [renderElement] returns at once on a node that is not of
    type [XML_ELEMENT_NODE], without a look at its children, and draws
    for an element only when its name is "text" or "#text".  So when no
    element the traversal reaches has one of these names (and the tree
    is not so deep that [y + 20] overflows), [renderHtmlToCanvas] draws
    nothing on the canvas and still returns true; without a document
    or a root element it returns false. *)
Theorem plain_document_is_rendered_blank root width height :
  no_text_element root = true →
  20 * Z.of_nat (levels root) ≤ INT_MAX →
  renderHtmlToCanvas (Some (Some root)) width height = Some (true, []) ∧
  renderHtmlToCanvas (Some None) width height = Some (false, []) ∧
  renderHtmlToCanvas None width height = Some (false, []) ∧
  ∀ type name content children x y,
    type ≠ XML_ELEMENT_NODE →
    renderElement (XmlNode type name content children) x y = Some [].
Proof.
  intros Hplain Hdeep. split_and!; try done.
  - unfold renderHtmlToCanvas.
    rewrite renderElement_plain; [done|done|by unfold INT_MIN|lia].
  - intros type name content children x y Htype.
    rewrite renderElement_eq. apply Z.eqb_neq in Htype. by rewrite Htype.
Qed.

End RenderElement.

Section Submission.
Context {X : Externals}.
Implicit Types w : World X.

(** [Text2Image_RenderAsync] on a registered handle of an initialized
    library, as one equation. *)
Lemma RenderAsync_run handle outputPath callback userData p t w :
  wf w →
  m_initialized (w_ctx w) = true →
  m_tasksMap (w_ctx w) !! handle = Some p →
  w_heap w !! p = Some t →
  let heap' := <[p := TaskObj.setCallback callback userData t]> (w_heap w) in
  Text2Image_RenderAsync handle outputPath callback userData w
  = if m_stop (m_threadPool (w_ctx w)) then
      (Returned false,
       set_ctx
         (ctx_set_lastError
            "Exception during async rendering setup: enqueue on stopped ThreadPool"
            (w_ctx w))
         (set_heap heap' w))
    else
      (Returned true,
       set_trace (w_trace w ++ [EvNotifyOne])
         (set_ctx
            (ctx_set_threadPool
               (pool_set_tasks (m_tasks (m_threadPool (w_ctx w)) ++ [p])
                  (m_threadPool (w_ctx w)))
               (w_ctx w))
            (set_heap heap' w))).
Proof.
  intros Hwf Hinit Hp Ht heap'. subst heap'.
  destruct (wf_registry w Hwf _ _ Hp) as (Hh%N.eqb_neq & Hpnull%N.eqb_neq & _).
  destruct (m_stop (m_threadPool (w_ctx w))) eqn:Hstop.
  all: apply post_run; unfold Text2Image_RenderAsync; rewrite Hh.
  all: mstep; eapply post_eq; [apply getTask_spec|]; rewrite Hp.
  all: cbn [default id]; cbn beta iota; rewrite Hpnull.
  all: unfold renderAsync, ThreadPool_enqueue.
  all: mstep; mstep; rewrite Hinit; cbn [negb]; rewrite Hpnull.
  all: mstep; mstep; mtask; mstep; mstep; mstep; cbn; rewrite Hstop.
  all: by msteps.
Qed.

(** X20.  A submission replaces the callback of the task before
    anything else.  For a registered handle of an initialized library,
    [Text2Image_RenderAsync] stores the callback and the user data in
    the task whether or not the pool then accepts the task: on a
    stopped pool the call returns false and the task still has the new
    callback.  On a running pool the task is appended to the queue, and
    submitting the same handle again appends the same Task a second
    time and replaces the callback of the first submission too: the
    queue then holds the task twice, and the task holds only the last
    callback. *)
Theorem submission_replaces_the_callback_first
    handle outputPath callback userData p t w :
  wf w →
  m_initialized (w_ctx w) = true →
  m_tasksMap (w_ctx w) !! handle = Some p →
  w_heap w !! p = Some t →
  let pool := m_threadPool (w_ctx w) in
  ∃ w',
    Text2Image_RenderAsync handle outputPath callback userData w
    = (Returned (negb (m_stop pool)), w') ∧
    w_heap w' = <[p := TaskObj.setCallback callback userData t]> (w_heap w) ∧
    m_tasks (m_threadPool (w_ctx w'))
    = (if m_stop pool then m_tasks pool else m_tasks pool ++ [p]) ∧
    (m_stop pool = false →
     ∀ outputPath' callback' userData',
       ∃ w'',
         Text2Image_RenderAsync handle outputPath' callback' userData' w'
         = (Returned true, w'') ∧
         m_tasks (m_threadPool (w_ctx w'')) = m_tasks pool ++ [p; p] ∧
         w_heap w'' !! p = Some (TaskObj.setCallback callback' userData' t)).
Proof.
  intros Hwf Hinit Hp Ht pool.
  pose proof (RenderAsync_run handle outputPath callback userData p t w
                Hwf Hinit Hp Ht) as Hrun.
  cbn zeta in Hrun. fold pool in Hrun.
  destruct (m_stop pool) eqn:Hstop.
  { eexists. split; [exact Hrun|]. by cbn. }
  eexists. split; [exact Hrun|]. cbn. fold pool. split_and!; try done.
  intros _ outputPath' callback' userData'.
  set (w' := set_trace _ _) in *.
  assert (wf w') as Hwf'.
  { pose proof (Text2Image_RenderAsync_wf handle outputPath callback userData
                  w Hwf) as Hpost.
    unfold post in Hpost. rewrite Hrun in Hpost. by destruct Hpost as (_ & ? & _). }
  pose proof (RenderAsync_run handle outputPath' callback' userData' p
                (TaskObj.setCallback callback userData t) w' Hwf') as Hrun'.
  cbn zeta in Hrun'. subst w'. cbn in Hrun'. fold pool in Hrun'.
  rewrite Hstop in Hrun'.
  eexists. split; [apply Hrun'; [done|done|by rewrite lookup_insert_eq]|].
  cbn. fold pool. rewrite <- app_assoc, lookup_insert_eq. by split.
Qed.

End Submission.

Section QueueOrder.
Context {X : Externals}.
Implicit Types w : World X.

Lemma queue_order_step op w w' :
  op_effect w op w' →
  m_tasks (m_threadPool (w_ctx w)) ++ accepted_at op w w'
  = taken_at op w w' ++ m_tasks (m_threadPool (w_ctx w')).
Proof.
  intros Heff. unfold accepted_at, taken_at.
  effect_cases Heff; rewrite ?Hc; cbn;
    try (destruct op; cbn; rewrite ?Hc, ?drop_all, ?app_nil_r; try done;
         by repeat case_match).
  all: rewrite ?drop_all, ?drop_app_length, ?app_nil_r; try done.
  - by rewrite H, list_lookup_insert_eq by (by eapply lookup_lt_Some).
  - rewrite H, list_lookup_insert_eq by (by eapply lookup_lt_Some).
    by rewrite ?H1, ?app_nil_r.
Qed.

Lemma queue_order_run ops w :
  wf w →
  m_tasks (m_threadPool (w_ctx w)) ++ accepted ops w
  = taken ops w ++ m_tasks (m_threadPool (w_ctx (exec ops w))).
Proof.
  revert w. induction ops as [|op ops IH]; intros w Hwf.
  - cbn. by rewrite app_nil_r.
  - destruct (run_op_step op w Hwf) as (_ & Heff & Hwf').
    rewrite exec_cons by done. cbn [accepted taken].
    rewrite app_assoc, (queue_order_step op w _ Heff), <- !app_assoc.
    by rewrite IH.
Qed.

(** X21.  The queue is first in, first out.  Along every run from the
    start of the process, the tasks that [Text2Image_RenderAsync] put
    into the queue, in the order of the calls, are the tasks the
    workers have taken out of it, in the order they took them,
    followed by the tasks still in the queue: workers start tasks in
    the order of submission, and none is skipped or taken twice. *)
Theorem queue_is_first_in_first_out e ops :
  accepted ops (World_new X e)
  = taken ops (World_new X e)
    ++ m_tasks (m_threadPool (w_ctx (exec ops (World_new X e)))).
Proof. apply (queue_order_run ops (World_new X e)), wf_new. Qed.

End QueueOrder.

Section Outcomes.
Context {X : Externals}.
Implicit Types w : World X.

(** X22.  What a synchronous render leaves behind.  For a registered
    handle of an initialized library, [Text2Image_Render] returns and
    leaves the task COMPLETED or FAILED.  When it returns true the task
    is COMPLETED.  When the task is FAILED the call returned false, the
    task has a non-empty error message and the last error is that
    message after "Rendering failed: ".  When the call returned false
    and the task is COMPLETED all the same, an output path was given,
    the result is non-empty, the last error names the file that could
    not be opened or written, and the error message of the task is the
    one it had before the call. *)
Theorem Render_outcome_by_status handle outputPath p t w :
  wf w →
  m_initialized (w_ctx w) = true →
  m_tasksMap (w_ctx w) !! handle = Some p →
  w_heap w !! p = Some t →
  ∃ ok w' t',
    Text2Image_Render handle outputPath w = (Returned ok, w') ∧
    w_heap w' !! p = Some t' ∧
    (m_status t' = COMPLETED ∨ m_status t' = FAILED) ∧
    (ok = true → m_status t' = COMPLETED) ∧
    (m_status t' = FAILED →
     ok = false ∧ m_errorMessage t' ≠ EmptyString ∧
     m_lastError (w_ctx w') = "Rendering failed: " +:+ m_errorMessage t') ∧
    (ok = false → m_status t' = COMPLETED →
     m_errorMessage t' = m_errorMessage t ∧ m_result t' ≠ [] ∧
     ∃ file,
       outputPath = Some file ∧
       (m_lastError (w_ctx w') = "Failed to open output file: " +:+ file ∨
        m_lastError (w_ctx w')
        = "Failed to write to output file: " +:+ file)).
Proof.
  intros Hwf Hinit Hp Ht.
  destruct (wf_registry w Hwf _ _ Hp) as (Hh & Hpnull & _).
  assert (Text2Image_Render handle outputPath w = renderSync p outputPath w)
    as Hcall.
  { apply N.eqb_neq in Hh, Hpnull. unfold Text2Image_Render. rewrite Hh.
    unfold bind at 1. rewrite getTask_spec, Hp. cbn [default id].
    by rewrite Hpnull. }
  pose proof (renderSync_full p t outputPath w Hinit Hpnull Ht) as Hfull.
  unfold post in Hfull. rewrite Hcall.
  destruct (renderSync p outputPath w) as [r w']. cbn [fst snd] in Hfull.
  destruct Hfull
    as (ok & b & t1 & evs & -> & Hout & Hsync & _ & Hheap & _).
  exists ok, w', (TaskObj.setStatus (terminal_status b) t1).
  split; [done|]. rewrite Hheap, lookup_insert_eq. split; [done|].
  destruct Hout as [output|message Hmessage];
    inversion Hsync as [|Hnone|file Hfile Hne|file Hfile Hne|file Hfile Hne];
    subst; cbn; split_and!; try done; auto; try (intros; discriminate).
  all: intros _ _; split_and!; try done; by eauto.
Qed.

End Outcomes.

Section ShutdownIsFinal.
Context {X : Externals}.
Implicit Types w : World X.

Lemma shutdown_signal_run w :
  m_initialized (w_ctx w) = true →
  shutdown_signal w
  = (Returned true,
     set_joining true
       (set_trace (w_trace w ++ [EvNotifyAll])
          (set_ctx
             (ctx_set_threadPool (pool_set_stop true (m_threadPool (w_ctx w)))
                (w_ctx w)) w))).
Proof.
  intros Hinit. apply post_run.
  unfold shutdown_signal, ThreadPool_shutdown_signal.
  mstep. mstep. rewrite Hinit. by msteps.
Qed.

Lemma shutdown_complete_run w :
  w_joining w = true →
  all_exited (m_workers (m_threadPool (w_ctx w))) = true →
  let c :=
    ctx_set_tasksMap ∅
      (ctx_set_renderEngine false
         (ctx_set_threadPool
            (pool_set_workers [] (m_threadPool (w_ctx w))) (w_ctx w))) in
  shutdown_complete w
  = (Returned true,
     set_ctx (ctx_set_initialized false c)
       (set_heap (survivors c (w_heap w)) (set_joining false w))).
Proof.
  intros Hj Hall c. subst c. apply post_run.
  unfold shutdown_complete, ThreadPool_shutdown_join.
  mstep. mstep. rewrite Hj. cbn [negb].
  mstep. mstep. mstep. rewrite Hall. by msteps.
Qed.

Lemma survivors_queue_only c (h : gmap N Task) p t :
  m_tasksMap c = ∅ → m_workers (m_threadPool c) = [] →
  survivors c h !! p = Some t ↔ h !! p = Some t ∧ p ∈ m_tasks (m_threadPool c).
Proof.
  intros Hreg Hworkers. unfold survivors.
  rewrite map_lookup_filter_Some. cbn. unfold held_by.
  split; intros [Hh Hheld]; (split; [done|]).
  - apply orb_true_iff in Hheld as [[Hr|Hq]%orb_true_iff|Hw].
    + apply bool_decide_eq_true in Hr.
      apply elem_of_map_img in Hr as [k Hk].
      by rewrite Hreg, lookup_empty in Hk.
    + by apply bool_decide_eq_true in Hq.
    + apply bool_decide_eq_true in Hw. rewrite Hworkers in Hw.
      by apply elem_of_nil in Hw.
  - by rewrite (bool_decide_eq_true_2 _ Hheld), orb_true_r.
Qed.

(** X23.  A shutdown is final.  [Text2Image_Shutdown] on a library
    that is not initialized returns at once and changes nothing, the
    stop flag of the pool included.  On an initialized library whose
    worker threads have all ended, it returns with the library not
    initialized, the render engine released, the registry empty and the
    [m_workers] vector cleared; the queue is not cleared, and exactly
    the tasks still in the queue stay alive.  The stop flag stays set
    for ever: after any further run, a successful [Text2Image_Init]
    included, [Text2Image_RenderAsync] returns false for every
    handle. *)
Theorem shutdown_is_final w :
  wf w →
  (m_initialized (w_ctx w) = false →
   Text2Image_Shutdown w = (Returned true, w)) ∧
  (m_initialized (w_ctx w) = true →
   all_exited (m_workers (m_threadPool (w_ctx w))) = true →
   ∃ w',
     Text2Image_Shutdown w = (Returned true, w') ∧
     m_initialized (w_ctx w') = false ∧
     m_renderEngine (w_ctx w') = false ∧
     m_tasksMap (w_ctx w') = ∅ ∧
     m_stop (m_threadPool (w_ctx w')) = true ∧
     m_workers (m_threadPool (w_ctx w')) = [] ∧
     m_tasks (m_threadPool (w_ctx w')) = m_tasks (m_threadPool (w_ctx w)) ∧
     (∀ p t, w_heap w' !! p = Some t
             ↔ w_heap w !! p = Some t ∧ p ∈ m_tasks (m_threadPool (w_ctx w))) ∧
     ∀ ops handle outputPath callback userData,
       (Text2Image_RenderAsync handle outputPath callback userData
          (exec ops w')).1 = Returned false).
Proof.
  intros Hwf. split.
  { intros Hinit. apply post_run.
    unfold Text2Image_Shutdown, shutdown, shutdown_signal.
    mstep. mstep. mstep. rewrite Hinit. by msteps. }
  intros Hinit Hall.
  pose proof (shutdown_signal_run w Hinit) as Hsignal.
  pose proof (shutdown_signal_wf w Hwf) as Hwf1.
  unfold post in Hwf1. rewrite Hsignal in Hwf1.
  destruct Hwf1 as (_ & Hwf1 & _). cbn [fst snd] in Hwf1.
  lazymatch type of Hwf1 with
  | wf ?w1 =>
      pose proof (shutdown_complete_run w1 eq_refl Hall) as Hcomplete
  end.
  cbn zeta in Hcomplete.
  pose proof (shutdown_complete_wf _ Hwf1) as Hwf2.
  unfold post in Hwf2. rewrite Hcomplete in Hwf2.
  destruct Hwf2 as (_ & Hwf2 & _). cbn [fst snd] in Hwf2.
  eexists. split.
  { unfold Text2Image_Shutdown, shutdown, bind. rewrite Hsignal.
    exact Hcomplete. }
  cbn. split_and!; try done.
  - intros p t. etrans; [by apply survivors_queue_only|]. by cbn.
  - intros ops handle outputPath callback userData.
    lazymatch type of Hwf2 with
    | wf ?w2 =>
        pose proof (RenderAsync_stopped handle outputPath callback userData
                      (exec ops w2) (exec_wf_from ops w2 Hwf2)
                      (exec_stop ops w2 Hwf2 eq_refl)) as Hasync
    end.
    unfold post in Hasync. by destruct Hasync as (? & _).
Qed.

End ShutdownIsFinal.

(* ===================================================================== *)
(** ** The theorems above at concrete states                              *)
(* ===================================================================== *)

Module CoverageRuns.
Import Demo Scenarios Coverage.

Local Open Scope string_scope.



Lemma shutdown_never_returns_unless_pool_shrunk_witness :
  (0 < hardware_concurrency (externals 2) < 2 ^ 31)%N ∧
  always keeps_size growing_run (start 2) = true ∧
  m_initialized (w_ctx (exec growing_run (start 2))) = true ∧
  length (m_workers (m_threadPool (w_ctx (exec growing_run (start 2)))))
  = 3%nat ∧
  (Text2Image_Shutdown (exec growing_run (start 2))).1 = Returned false.
Proof.
  assert ((0 < hardware_concurrency (externals 2) < 2 ^ 31)%N) as Hhc
    by (by vm_compute).
  assert (always keeps_size growing_run (start 2) = true) as Hok
    by (by vm_compute).
  split; [exact Hhc|]. split; [exact Hok|].
  split; [by vm_compute|]. split; [by vm_compute|].
  destruct (shutdown_never_returns_unless_pool_shrunk (X := externals 2)
              env0 growing_run Hhc Hok) as (_ & _ & _ & Hblocked).
  apply Hblocked. by vm_compute.
Defined.


Lemma failure_is_reported_success_is_silent_witness :
  wf created_world ∧
  post (Text2Image_Render 2 None) created_world (λ r w', ∃ ok,
    r = Returned ok ∧ error_contract created_world ok w').
Proof.
  assert (wf created_world) as Hwf by apply exec_wf.
  split; [exact Hwf|].
  destruct (failure_is_reported_success_is_silent created_world Hwf)
    as (_ & _ & Hrender & _).
  apply Hrender.
Defined.

Lemma last_error_is_never_cleared_witness :
  wf (exec before_init_run (start 1)) ∧
  reports_error (exec before_init_run (start 1)) ∧
  reports_error
    (exec [OpInit; create_plain; OpRender 1 None]
       (exec before_init_run (start 1))).
Proof.
  assert (wf (exec before_init_run (start 1))) as Hwf by apply exec_wf.
  assert (reports_error (exec before_init_run (start 1))) as Herr.
  { exists "Task not found". split; [done|by vm_compute]. }
  split; [exact Hwf|]. split; [exact Herr|].
  apply (last_error_is_never_cleared
           [OpInit; create_plain; OpRender 1 None] _ Hwf Herr).
Defined.

Lemma CreateTask_FreeTask_round_trip_witness :
  m_initialized (w_ctx initialized_world) = true ∧
  ∃ handle w1,
    Text2Image_CreateTask (Some "<p>hi</p>") None None initialized_world
    = (Returned handle, w1) ∧
    handle ≠ nullptr ∧
    getTask handle w1 = (Returned handle, w1) ∧
    getTask handle (Text2Image_FreeTask handle w1).2
    = (Returned nullptr, (Text2Image_FreeTask handle w1).2).
Proof.
  split; [reflexivity|].
  destruct (CreateTask_FreeTask_round_trip "<p>hi</p>" None None
              initialized_world) as (handle & w1 & Hrun & Hnull & Hget & _ & Hfree & _);
    [reflexivity|].
  exists handle, w1. exact (conj Hrun (conj Hnull (conj Hget Hfree))).
Defined.

Lemma FreeTask_releases_one_reference_witness :
  m_tasksMap (w_ctx queued_world) !! 1%N = Some 1%N ∧
  w_heap queued_world !! 1%N = Some submitted_task ∧
  m_tasks (m_threadPool (w_ctx queued_world)) = [1%N] ∧
  ∃ w',
    Text2Image_FreeTask 1 queued_world = (Returned tt, w') ∧
    m_tasksMap (w_ctx w') !! 1%N = None ∧
    w_heap w' !! 1%N = Some submitted_task.
Proof.
  assert (m_tasksMap (w_ctx queued_world) !! 1%N = Some 1%N) as Hreg
    by (by vm_compute).
  assert (w_heap queued_world !! 1%N = Some submitted_task) as Hobj
    by (by vm_compute).
  assert (m_tasks (m_threadPool (w_ctx queued_world)) = [1%N]) as Hqueue
    by (by vm_compute).
  split; [exact Hreg|]. split; [exact Hobj|]. split; [exact Hqueue|].
  destruct (FreeTask_releases_one_reference 1 1 submitted_task queued_world)
    as (w' & Hrun & Hmap & _ & _ & Hkept & _); [done|exact Hreg|exact Hobj|].
  exists w'. split; [exact Hrun|]. split.
  - rewrite Hmap. apply lookup_delete_eq.
  - apply Hkept. left. rewrite Hqueue. apply list_elem_of_here.
Defined.


Lemma Render_writes_what_GetResult_returns_witness :
  wf created_world ∧
  ∃ ok w',
    Text2Image_Render 1 (Some "out.png") created_world = (Returned ok, w') ∧
    (∀ file data,
       EvFileWrite file data true ∈ new_events created_world w' → ok = true).
Proof.
  assert (wf created_world) as Hwf by apply exec_wf.
  split; [exact Hwf|].
  destruct (Render_writes_what_GetResult_returns 1 "out.png" 100 200
              created_world Hwf) as (ok & w' & Hrun & Hwrite & _);
    [done|done|].
  exists ok, w'. exact (conj Hrun Hwrite).
Defined.


Lemma plain_document_is_rendered_blank_witness :
  no_text_element plain_page = true ∧
  (20 * Z.of_nat (levels plain_page) ≤ INT_MAX)%Z ∧
  renderHtmlToCanvas (Some (Some plain_page)) 800 600 = Some (true, []).
Proof.
  assert (20 * Z.of_nat (levels plain_page) ≤ INT_MAX)%Z as Hdeep
    by (by vm_compute).
  split; [reflexivity|]. split; [exact Hdeep|].
  destruct (plain_document_is_rendered_blank plain_page 800 600)
    as (Hblank & _); [reflexivity|exact Hdeep|].
  exact Hblank.
Defined.

Lemma submission_replaces_the_callback_first_witness :
  wf created_world ∧
  m_initialized (w_ctx created_world) = true ∧
  m_tasksMap (w_ctx created_world) !! 1%N = Some 1%N ∧
  w_heap created_world !! 1%N = Some plain_task ∧
  ∃ w',
    Text2Image_RenderAsync 1 None 7 9 created_world = (Returned true, w') ∧
    w_heap w' !! 1%N = Some submitted_task ∧
    ∃ w'',
      Text2Image_RenderAsync 1 None 8 9 w' = (Returned true, w'') ∧
      m_tasks (m_threadPool (w_ctx w'')) = [1%N; 1%N] ∧
      w_heap w'' !! 1%N = Some (TaskObj.setCallback 8 9 plain_task).
Proof.
  assert (wf created_world) as Hwf by apply exec_wf.
  assert (m_tasksMap (w_ctx created_world) !! 1%N = Some 1%N) as Hreg
    by (by vm_compute).
  assert (w_heap created_world !! 1%N = Some plain_task) as Hobj
    by (by vm_compute).
  split; [exact Hwf|]. split; [reflexivity|].
  split; [exact Hreg|]. split; [exact Hobj|].
  destruct (submission_replaces_the_callback_first 1 None 7 9 1 plain_task
              created_world Hwf eq_refl Hreg Hobj)
    as (w' & Hrun & Hheap & _ & Hagain).
  exists w'. split; [exact Hrun|]. split.
  - rewrite Hheap. apply lookup_insert_eq.
  - destruct (Hagain eq_refl None 8%N 9%N) as (w'' & Hrun' & Hqueue & Hobj').
    exists w''. exact (conj Hrun' (conj Hqueue Hobj')).
Defined.

Lemma Render_outcome_by_status_witness :
  wf created_world ∧
  m_initialized (w_ctx created_world) = true ∧
  m_tasksMap (w_ctx created_world) !! 1%N = Some 1%N ∧
  w_heap created_world !! 1%N = Some plain_task ∧
  ∃ ok w' t',
    Text2Image_Render 1 (Some "/no/such/dir/out.png") created_world
    = (Returned ok, w') ∧
    w_heap w' !! 1%N = Some t' ∧
    (m_status t' = COMPLETED ∨ m_status t' = FAILED) ∧
    (ok = true → m_status t' = COMPLETED).
Proof.
  assert (wf created_world) as Hwf by apply exec_wf.
  assert (m_tasksMap (w_ctx created_world) !! 1%N = Some 1%N) as Hreg
    by (by vm_compute).
  assert (w_heap created_world !! 1%N = Some plain_task) as Hobj
    by (by vm_compute).
  split; [exact Hwf|]. split; [reflexivity|].
  split; [exact Hreg|]. split; [exact Hobj|].
  destruct (Render_outcome_by_status 1 (Some "/no/such/dir/out.png") 1
              plain_task created_world Hwf eq_refl Hreg Hobj)
    as (ok & w' & t' & Hrun & Hheap & Hstatus & Htrue & _).
  exists ok, w', t'. exact (conj Hrun (conj Hheap (conj Hstatus Htrue))).
Defined.

Lemma shutdown_is_final_witness :
  wf orphan_world ∧
  m_initialized (w_ctx orphan_world) = true ∧
  all_exited (m_workers (m_threadPool (w_ctx orphan_world))) = true ∧
  ∃ w',
    Text2Image_Shutdown orphan_world = (Returned true, w') ∧
    m_initialized (w_ctx w') = false ∧
    m_tasks (m_threadPool (w_ctx w')) = [1%N] ∧
    (Text2Image_RenderAsync 2 None 7 9
       (exec [OpInit; create_plain] w')).1 = Returned false.
Proof.
  assert (wf orphan_world) as Hwf by apply exec_wf.
  split; [exact Hwf|]. split; [reflexivity|]. split; [reflexivity|].
  destruct (shutdown_is_final orphan_world Hwf) as [_ Hfinal].
  destruct (Hfinal eq_refl eq_refl)
    as (w' & Hrun & Hinit & _ & _ & _ & _ & Hqueue & _ & Hasync).
  exists w'. split; [exact Hrun|]. split; [exact Hinit|].
  split; [exact Hqueue|]. apply Hasync.
Defined.

End CoverageRuns.
